(** * anywherechat: the real-time chat core of the three server variants

    The repository ships three socket servers:
    - [Persistent]: src/back/server.js, first document (rooms carry a durable
      [members] array);
    - [Ephemeral]: src/back/server.js, second document (rooms carry an
      [owner]; membership is socket.io room presence);
    - [Minimal]: src/server/src/socket.js (no token, no membership).

    Handlers are embedded as finite interaction trees ([Task]): every [await]
    of the source is a node whose continuation receives the settlement of the
    promise, every synchronous call with an outside effect is a [Perform]
    node.  [run] executes a handler to completion against a [World] (the
    MongoDB collections, the socket.io adapter, the mailer and the console);
    [resume] executes it up to its next [await], which is what the event loop
    interleaves. *)

From Stdlib Require Import List String Ascii Bool Arith Lia.
Import ListNotations.
Open Scope string_scope.
Open Scope list_scope.

(** * Part I: the model *)

(** ** JavaScript strings and the two mention patterns *)

Module Js.

Definition is_digit (c : ascii) : bool :=
  let n := nat_of_ascii c in (Nat.leb 48 n && Nat.leb n 57)%bool.
Definition is_upper (c : ascii) : bool :=
  let n := nat_of_ascii c in (Nat.leb 65 n && Nat.leb n 90)%bool.
Definition is_lower (c : ascii) : bool :=
  let n := nat_of_ascii c in (Nat.leb 97 n && Nat.leb n 122)%bool.

(** Character classes used by the two patterns of the source. *)
Inductive CharClass :=
| Lit (c : ascii)       (* a literal character, also an escaped one *)
| Word                  (* \w *)
| WordDotDash           (* [\w.-] *)
| Alpha.                (* [A-Za-z] *)

Definition is_word (c : ascii) : bool :=
  is_upper c || is_lower c || is_digit c || Ascii.eqb c "_".

Definition class_mem (cl : CharClass) (c : ascii) : bool :=
  match cl with
  | Lit l => Ascii.eqb c l
  | Word => is_word c
  | WordDotDash => is_word c || Ascii.eqb c "." || Ascii.eqb c "-"
  | Alpha => is_upper c || is_lower c
  end.

(** Quantifiers: exactly once, or the greedy [{n,}] ([+] is [{1,}]). *)
Inductive Quant := Once | AtLeast (n : nat).

(** A pattern is a concatenation of quantified classes. *)
Definition RegExp := list (CharClass * Quant).

(** Length of the longest prefix of [s] inside the class. *)
Fixpoint span (cl : CharClass) (s : list ascii) : nat :=
  match s with
  | c :: s' => if class_mem cl c then S (span cl s') else 0
  | [] => 0
  end.

(** Greedy repetition with backtracking: try [n] repetitions, then [n-1],
    down to [lo]; [k] matches the rest of the pattern. *)
Fixpoint try_counts (k : list ascii -> option nat) (s : list ascii)
         (lo n : nat) : option nat :=
  match k (skipn n s) with
  | Some len => Some (n + len)
  | None =>
      match n with
      | 0 => None
      | S n' => if Nat.ltb n' lo then None else try_counts k s lo n'
      end
  end.

(** Match the pattern at the start of [s]; the result is the length of the
    match the backtracking matcher finds first. *)
Fixpoint match_here (re : RegExp) (s : list ascii) : option nat :=
  match re with
  | [] => Some 0
  | (cl, Once) :: re' =>
      match s with
      | c :: s' =>
          if class_mem cl c then option_map S (match_here re' s') else None
      | [] => None
      end
  | (cl, AtLeast lo) :: re' =>
      let n := span cl s in
      if Nat.ltb n lo then None else try_counts (match_here re') s lo n
  end.

(** The [lastIndex] loop of a global pattern: after a match the search
    resumes at its end (one character further after an empty match),
    after a failure one character further. *)
Fixpoint scan (fuel : nat) (re : RegExp) (s : list ascii)
  : list (list ascii) :=
  match fuel with
  | 0 => []
  | S fuel' =>
      match match_here re s with
      | Some 0 =>
          [] :: match s with
                | [] => []
                | _ :: s' => scan fuel' re s'
                end
      | Some len => firstn len s :: scan fuel' re (skipn len s)
      | None =>
          match s with
          | [] => []
          | _ :: s' => scan fuel' re s'
          end
      end
  end.

(** [str.match(re)] for a pattern with the [g] flag: the array of all
    matched substrings, or [null] when there is none. *)
Definition match_g (str : string) (re : RegExp) : option (list string) :=
  let s := list_ascii_of_string str in
  match scan (S (List.length s)) re s with
  | [] => None
  | ms => Some (map string_of_list_ascii ms)
  end.

(** [str.slice(1)]. *)
Definition slice1 (str : string) : string :=
  match str with
  | EmptyString => EmptyString
  | String _ rest => rest
  end.

(** [arr.includes(x)] on an array of ids. *)
Definition includes (arr : list string) (x : string) : bool :=
  existsb (String.eqb x) arr.

(** [str.split(' ')]. *)
Fixpoint split_space_aux (s : string) (cur : string) : list string :=
  match s with
  | EmptyString => [cur]
  | String c rest =>
      if Ascii.eqb c " "
      then cur :: split_space_aux rest EmptyString
      else split_space_aux rest (cur ++ String c EmptyString)
  end.
Definition split_space (s : string) : list string :=
  split_space_aux s EmptyString.

(** Truthiness of a string: the empty string is falsy. *)
Definition truthy (s : string) : bool :=
  match s with EmptyString => false | _ => true end.

End Js.

(** [/@([\w.-]+@[\w.-]+\.[A-Za-z]{2,})/g] *)
Definition emailMentionRegex : Js.RegExp :=
  [ (Js.Lit "@", Js.Once); (Js.WordDotDash, Js.AtLeast 1);
    (Js.Lit "@", Js.Once); (Js.WordDotDash, Js.AtLeast 1);
    (Js.Lit ".", Js.Once); (Js.Alpha, Js.AtLeast 2) ]%char.

(** [/@(\w+)/g] *)
Definition usernameMentionRegex : Js.RegExp :=
  [ (Js.Lit "@", Js.Once); (Js.Word, Js.AtLeast 1) ]%char.

(** ** Documents shared by the variants *)

Definition ObjectId := string.
Definition Date := nat.

(** The decoded token [{ userId, username }] bound to [socket.user] and
  [req.user]. *)
Module Claims.
Record t : Type := { userId : ObjectId; username : string }.
End Claims.

(** [userSchema]; the password hash plays no part in the chat core. *)
Module User.
Record t : Type := { _id : ObjectId; username : string; email : string }.
End User.

(** The argument of [transporter.sendMail]. *)
Module Mail.
Record t : Type :=
  { from : string; to : string; subject : string; text : string }.
End Mail.

(** [process.env.GMAIL_USER || 'yourEmail@gmail.com'] *)
Definition GMAIL_USER : string := "yourEmail@gmail.com".

(** Settlement of an awaited promise. *)
Inductive Outcome (A : Type) : Type :=
| Resolved (a : A)
| Rejected.
Arguments Resolved {A} a.
Arguments Rejected {A}.

Inductive RoomQuery :=
| RoomById (id : ObjectId)          (* Room.findById(id) *)
| RoomByName (name : string).       (* Room.findOne({ name }) *)

Inductive UserQuery :=
| UserByEmail (email : string)      (* User.findOne({ email }) *)
| UserByUsername (username : string).

(** The object handed to a socket.io acknowledgement callback. *)
Inductive Ack :=
| AckError (error : string)
| AckSuccess (message : string).

(** ** Handlers as interaction trees, and the world they run in *)

Section Runtime.

(** Room documents, message documents and broadcast payloads differ
    between the variants. *)
Context {R M P : Type}.

(** What Mongoose needs to know about the documents. *)
Class Schema : Type :=
  { room_id : R -> ObjectId;
    room_name : R -> string;
    message_room : M -> ObjectId;
    message_user : M -> ObjectId;
    (* the [required] validators run by [save] *)
    message_valid : M -> bool }.

Context {schema : Schema}.

(** A message with its [user] path populated with the [username]. *)
Definition Populated : Type := (M * option string)%type.

(** Awaited operations. *)
Inductive Op :=
| RoomFindOne (q : RoomQuery)
| RoomSave (room : R)
| RoomFindByIdAndDelete (id : ObjectId)
| MessageSave (m : M)
| MessageFindPopulate (room : ObjectId)
| UserFindOne (q : UserQuery)
| SendMail (mail : Mail.t).

Definition result (op : Op) : Type :=
  match op with
  | RoomFindOne _ => option R
  | RoomSave _ => unit
  | RoomFindByIdAndDelete _ => unit
  | MessageSave _ => unit
  | MessageFindPopulate _ => list Populated
  | UserFindOne _ => option User.t
  | SendMail _ => unit
  end.

(** JSON bodies of the REST replies. *)
Inductive Body :=
| Msg (message : string)
| MsgRoom (message : string) (room : R)
| Docs (messages : list Populated).

(** Synchronous calls with an effect outside the handler. *)
Inductive Effect :=
| SocketJoin (room : string)                         (* socket.join *)
| EmitTo (room : string) (event : string) (payload : P)  (* io.to().emit *)
| Callback (ack : Ack)                               (* callback(...) *)
| Respond (status : nat) (body : Body)               (* res.status().json() *)
| Console (error : bool) (line : string).            (* console.log / error *)

Inductive Task :=
| Done                       (* the handler returned *)
| Unhandled                  (* a rejection escaped the handler *)
| Perform (e : Effect) (k : Task)
| Await (op : Op) (k : Outcome (result op) -> Task).

(** [for (const x of xs) body], in continuation-passing style: [body x
    next] runs the body for [x] and goes on with [next]. *)
Fixpoint forOf {A : Type} (xs : list A) (body : A -> Task -> Task)
         (k : Task) : Task :=
  match xs with
  | [] => k
  | x :: rest => body x (forOf rest body k)
  end.

(** A connected socket as the adapter sees it. *)
Record Socket : Type :=
  { socket_id : nat;
    socket_user : option Claims.t;           (* socket.user, if bound *)
    socket_rooms : list string;              (* socket.rooms *)
    received : list (string * P) }.          (* events delivered to it *)

(** What leaves the server, in order. *)
Inductive Obs :=
| ConnectError (socket : nat) (error : string)
| Sent (mail : Mail.t) (delivered : bool)
| Logged (error : bool) (line : string)
| Acked (socket : nat) (ack : Ack)
| Responded (status : nat) (body : Body)
| Emitted (room : string) (event : string) (payload : P).

Record World : Type :=
  { users : list User.t;
    rooms : list R;
    messages : list M;
    sockets : list Socket;
    history : list Obs;
    (* the environment's script: which of the coming database
       operations and mail deliveries reject *)
    db_faults : list bool;
    mail_faults : list bool }.

Definition set_rooms (rs : list R) (w : World) : World :=
  {| users := users w; rooms := rs; messages := messages w;
     sockets := sockets w; history := history w;
     db_faults := db_faults w; mail_faults := mail_faults w |}.
Definition set_messages (ms : list M) (w : World) : World :=
  {| users := users w; rooms := rooms w; messages := ms;
     sockets := sockets w; history := history w;
     db_faults := db_faults w; mail_faults := mail_faults w |}.
Definition set_sockets (ss : list Socket) (w : World) : World :=
  {| users := users w; rooms := rooms w; messages := messages w;
     sockets := ss; history := history w;
     db_faults := db_faults w; mail_faults := mail_faults w |}.
Definition observe (o : Obs) (w : World) : World :=
  {| users := users w; rooms := rooms w; messages := messages w;
     sockets := sockets w; history := history w ++ [o];
     db_faults := db_faults w; mail_faults := mail_faults w |}.

(** Next entry of a fault script; an exhausted script means no fault. *)
Definition db_tick (w : World) : bool * World :=
  (hd false (db_faults w),
   {| users := users w; rooms := rooms w; messages := messages w;
      sockets := sockets w; history := history w;
      db_faults := tl (db_faults w); mail_faults := mail_faults w |}).
Definition mail_tick (w : World) : bool * World :=
  (hd false (mail_faults w),
   {| users := users w; rooms := rooms w; messages := messages w;
      sockets := sockets w; history := history w;
      db_faults := db_faults w; mail_faults := tl (mail_faults w) |}).

Definition room_matches (q : RoomQuery) (r : R) : bool :=
  match q with
  | RoomById id => String.eqb (room_id r) id
  | RoomByName name => String.eqb (room_name r) name
  end.

Definition user_matches (q : UserQuery) (u : User.t) : bool :=
  match q with
  | UserByEmail e => String.eqb (User.email u) e
  | UserByUsername n => String.eqb (User.username u) n
  end.

(** [populate('user', 'username')] *)
Definition populate (us : list User.t) (m : M) : Populated :=
  (m, option_map User.username
        (find (fun u => String.eqb (User._id u) (message_user m)) us)).

(** The unique index on [name]: another document holds the name. *)
Definition name_taken (r : R) (rs : list R) : bool :=
  existsb (fun r' => String.eqb (room_name r') (room_name r)
                     && negb (String.eqb (room_id r') (room_id r))) rs.

(** Insert the document, or replace the stored one with the same id. *)
Definition upsert (r : R) (rs : list R) : list R :=
  if existsb (fun r' => String.eqb (room_id r') (room_id r)) rs
  then map (fun r' => if String.eqb (room_id r') (room_id r) then r else r')
           rs
  else rs ++ [r].

(** The operation settles. *)
Definition perform (op : Op) (w : World) : Outcome (result op) * World :=
  match op return Outcome (result op) * World with
  | RoomFindOne q =>
      let (fault, w1) := db_tick w in
      if fault then (Rejected, w1)
      else (Resolved (find (room_matches q) (rooms w1)), w1)
  | RoomSave r =>
      let (fault, w1) := db_tick w in
      if fault || name_taken r (rooms w1) then (Rejected, w1)
      else (Resolved tt, set_rooms (upsert r (rooms w1)) w1)
  | RoomFindByIdAndDelete id =>
      let (fault, w1) := db_tick w in
      if fault then (Rejected, w1)
      else (Resolved tt,
            set_rooms (filter (fun r => negb (String.eqb (room_id r) id))
                              (rooms w1)) w1)
  | MessageSave m =>
      let (fault, w1) := db_tick w in
      if fault || negb (message_valid m) then (Rejected, w1)
      else (Resolved tt, set_messages (messages w1 ++ [m]) w1)
  | MessageFindPopulate room =>
      let (fault, w1) := db_tick w in
      if fault then (Rejected, w1)
      else (Resolved
              (map (populate (users w1))
                   (filter (fun m => String.eqb (message_room m) room)
                           (messages w1))), w1)
  | UserFindOne q =>
      let (fault, w1) := db_tick w in
      if fault then (Rejected, w1)
      else (Resolved (find (user_matches q) (users w1)), w1)
  | SendMail mail =>
      let (fault, w1) := mail_tick w in
      if fault then (Rejected, observe (Sent mail false) w1)
      else (Resolved tt, observe (Sent mail true) w1)
  end.

Definition join_socket (sid : nat) (room : string) (s : Socket) : Socket :=
  if Nat.eqb (socket_id s) sid && negb (Js.includes (socket_rooms s) room)
  then {| socket_id := socket_id s;
          socket_user := socket_user s;
          socket_rooms := socket_rooms s ++ [room];
          received := received s |}
  else s.

(** Delivery of an event to a socket if it is in the room. *)
Definition deliver (room event : string) (p : P) (s : Socket) : Socket :=
  if Js.includes (socket_rooms s) room
  then {| socket_id := socket_id s;
          socket_user := socket_user s;
          socket_rooms := socket_rooms s;
          received := received s ++ [(event, p)] |}
  else s.

(** The synchronous call happens; [sid] is the socket of the handler. *)
Definition effect (sid : nat) (e : Effect) (w : World) : World :=
  match e with
  | SocketJoin room => set_sockets (map (join_socket sid room) (sockets w)) w
  | EmitTo room event p =>
      observe (Emitted room event p)
              (set_sockets (map (deliver room event p) (sockets w)) w)
  | Callback a => observe (Acked sid a) w
  | Respond status body => observe (Responded status body) w
  | Console err line => observe (Logged err line) w
  end.

(** The handler runs to completion, every promise settling at once. *)
Fixpoint run (sid : nat) (t : Task) (w : World) : World :=
  match t with
  | Done => w
  | Unhandled => w
  | Perform e k => run sid k (effect sid e w)
  | Await op k => let (o, w') := perform op w in run sid (k o) w'
  end.

(** The synchronous stretch up to the next [await]. *)
Fixpoint run_sync (sid : nat) (t : Task) (w : World) : Task * World :=
  match t with
  | Perform e k => run_sync sid k (effect sid e w)
  | _ => (t, w)
  end.

(** The awaited promise settles and the handler goes on to its next
    [await]: one turn of the event loop. *)
Definition resume (sid : nat) (t : Task) (w : World) : Task * World :=
  match t with
  | Await op k => let (o, w') := perform op w in run_sync sid (k o) w'
  | _ => run_sync sid t w
  end.

(** Events received by a socket. *)
Definition received_by (sid : nat) (w : World) : list (string * P) :=
  match find (fun s => Nat.eqb (socket_id s) sid) (sockets w) with
  | Some s => received s
  | None => []
  end.

Definition in_room (sid : nat) (room : string) (w : World) : bool :=
  match find (fun s => Nat.eqb (socket_id s) sid) (sockets w) with
  | Some s => Js.includes (socket_rooms s) room
  | None => false
  end.

(** The mail whose delivery a suspended handler is waiting for. *)
Definition awaited_mail (t : Task) : option Mail.t :=
  match t with
  | Await (SendMail mail) _ => Some mail
  | _ => None
  end.

(** Live presence: some socket bound to the user is in the room. *)
Definition present (user : ObjectId) (room : string) (w : World) : bool :=
  existsb (fun s =>
             match socket_user s with
             | Some u => String.eqb (Claims.userId u) user
                         && Js.includes (socket_rooms s) room
             | None => false
             end) (sockets w).


(** Mails handed to the transporter, in order. *)
Definition mails (h : list Obs) : list Mail.t :=
  flat_map (fun o => match o with Sent mail _ => [mail] | _ => [] end) h.

(** Is the observation a mail attempt or a console line? *)
Definition mail_or_console (o : Obs) : bool :=
  match o with
  | Sent _ _ | Logged _ _ => true
  | _ => false
  end.

(** Does the observation reach the client behind socket [sid]? *)
Definition reaches (sid : nat) (o : Obs) : bool :=
  match o with
  | ConnectError s _ | Acked s _ => Nat.eqb s sid
  | _ => false
  end.

(** The world once the next database operation or mail delivery has
    settled, and whether it rejects. *)
Definition db_next (w : World) : World := snd (db_tick w).
Definition mail_next (w : World) : World := snd (mail_tick w).
Definition db_fault (w : World) : bool := hd false (db_faults w).
Definition mail_fault (w : World) : bool := hd false (mail_faults w).

(** What a mention loop leaves behind when it is left with world [w1]
  after observations [h]: the collections and the sockets are untouched,
  only mails and console lines were produced, and every mail is [good]. *)
Record LoopPost (good : Mail.t -> Prop) (w w1 : World) (h : list Obs)
  : Prop :=
  { lp_users : users w1 = users w;
    lp_rooms : rooms w1 = rooms w;
    lp_messages : messages w1 = messages w;
    lp_sockets : sockets w1 = sockets w;
    lp_history : history w1 = history w ++ h;
    lp_quiet : forallb mail_or_console h = true;
    lp_mails : Forall good (mails h) }.

End Runtime.

Arguments Op : clear implicits.
Arguments Body : clear implicits.
Arguments Effect : clear implicits.
Arguments Task : clear implicits.
Arguments Socket : clear implicits.
Arguments Obs : clear implicits.
Arguments World : clear implicits.
Arguments Schema : clear implicits.

(** ** Pieces shared by the two variants of src/back/server.js *)

Definition Verifier : Type := string -> option Claims.t.

Definition dquote : string := String (ascii_of_nat 34) EmptyString.
Definition newline : string := String (ascii_of_nat 10) EmptyString.

(** [messageSchema] *)
Module Message.
Record t : Type :=
  { room : ObjectId; user : ObjectId; text : string; createdAt : Date }.
End Message.

(** [{ _id: socket.user.userId, username: socket.user.username }] *)
Module Author.
Record t : Type := { _id : ObjectId; username : string }.
End Author.

(** The broadcast [chatMessage] event. *)
Module Payload.
Record t : Type := { user : Author.t; text : string; createdAt : Date }.
End Payload.

Section ServerShared.

Context {R : Type}.
Abbreviation Task := (Task R Message.t Payload.t).

Variable jwt_verify : Verifier.   (* jwt.verify(token, JWT_SECRET) *)

(** [authMiddleware]: [authorization] is the request header. *)
Definition authMiddleware (authorization : option string)
           (next : Claims.t -> Task) : Task :=
  let token :=
    match authorization with
    | Some header => nth_error (Js.split_space header) 1
    | None => None
    end in
  match token with
  | Some token =>
      if Js.truthy token then
        match jwt_verify token with
        | Some decoded => next decoded
        | None => Perform (Respond 401 (Msg "Invalid token")) Done
        end
      else Perform (Respond 401 (Msg "No token provided")) Done
  | None => Perform (Respond 401 (Msg "No token provided")) Done
  end.

(** The [io.use] middleware: [token] is [socket.handshake.auth?.token];
    the result is the error passed to [next] or the bound [socket.user]. *)
Definition io_use (token : option string) : string + Claims.t :=
  match token with
  | Some token =>
      if Js.truthy token then
        match jwt_verify token with
        | Some decoded => inr decoded
        | None => inl "Invalid token"
        end
      else inl "No token provided"
  | None => inl "No token provided"
  end.

(** socket.io fires [connection], where the handlers are registered, only
    for a socket every middleware let through. *)
Inductive Connection :=
| Refused (error : string)
| Connected (user : Claims.t).

Definition connect (token : option string) : Connection :=
  match io_use token with
  | inl err => Refused err
  | inr user => Connected user
  end.


End ServerShared.

(** ** The variant with a durable member list (src/back/server.js, first
  document) *)

Module Persistent.

(** [roomSchema] *)
Module Room.
Record t : Type :=
    { _id : ObjectId; name : string; members : list ObjectId }.
End Room.

#[global] Instance schema : Schema Room.t Message.t :=
  {| room_id := Room._id;
     room_name := Room.name;
     message_room := Message.room;
     message_user := Message.user;
     message_valid := fun m => Js.truthy (Message.text m) |}.

Abbreviation Task := (Task Room.t Message.t Payload.t).
Abbreviation World := (World Room.t Message.t Payload.t).

Definition server_error : Task :=
  Perform (Console true "Server error")
          (Perform (Respond 500 (Msg "Server error")) Done).

(** [POST /rooms]; [fresh] is the id Mongoose gives the new document. *)
Definition createRoom (jwt_verify : Verifier)
           (authorization : option string) (name : option string)
           (fresh : ObjectId) : Task :=
  authMiddleware jwt_verify authorization (fun user =>
    match name with
    | Some name =>
        if Js.truthy name then
          Await (RoomFindOne (RoomByName name)) (fun existingRoom =>
            match existingRoom with
            | Resolved (Some _) =>
                Perform (Respond 400 (Msg "Room name already exists")) Done
            | Resolved None =>
                let newRoom :=
                  {| Room._id := fresh; Room.name := name;
                     Room.members := [Claims.userId user] |} in
                Await (RoomSave newRoom) (fun saved =>
                  match saved with
                  | Resolved _ =>
                      Perform (Respond 201 (MsgRoom "Room created" newRoom))
                              Done
                  | Rejected => server_error
                  end)
            | Rejected => server_error
            end)
        else Perform (Respond 400 (Msg "Room name is required")) Done
    | None => Perform (Respond 400 (Msg "Room name is required")) Done
    end).

(** [POST /rooms/:roomId/join] *)
Definition joinRoomRest (jwt_verify : Verifier)
           (authorization : option string) (roomId : ObjectId) : Task :=
  authMiddleware jwt_verify authorization (fun user =>
    Await (RoomFindOne (RoomById roomId)) (fun found =>
      match found with
      | Resolved None => Perform (Respond 404 (Msg "Room not found")) Done
      | Resolved (Some room) =>
          if Js.includes (Room.members room) (Claims.userId user)
          then Perform (Respond 400 (Msg "Already in the room")) Done
          else
            let room' :=
              {| Room._id := Room._id room; Room.name := Room.name room;
                 Room.members := Room.members room ++ [Claims.userId user]
              |} in
            Await (RoomSave room') (fun saved =>
              match saved with
              | Resolved _ =>
                  Perform (Respond 200
                             (MsgRoom "Joined room successfully" room'))
                          Done
              | Rejected => server_error
              end)
      | Rejected => server_error
      end)).

(** [DELETE /rooms/:roomId] *)
Definition deleteRoom (jwt_verify : Verifier)
           (authorization : option string) (roomId : ObjectId) : Task :=
  authMiddleware jwt_verify authorization (fun user =>
    Await (RoomFindOne (RoomById roomId)) (fun found =>
      match found with
      | Resolved None => Perform (Respond 404 (Msg "Room not found")) Done
      | Resolved (Some room) =>
          (* Check membership *)
          if negb (Js.includes (Room.members room) (Claims.userId user))
          then Perform (Respond 403
                          (Msg "You are not a member of this room")) Done
          else
            Await (RoomFindByIdAndDelete roomId) (fun deleted =>
              match deleted with
              | Resolved _ => Perform (Respond 200 (Msg "Room deleted")) Done
              | Rejected => server_error
              end)
      | Rejected => server_error
      end)).

(** [GET /rooms/:roomId/messages] *)
Definition getMessages (jwt_verify : Verifier)
           (authorization : option string) (roomId : ObjectId) : Task :=
  authMiddleware jwt_verify authorization (fun user =>
    Await (RoomFindOne (RoomById roomId)) (fun found =>
      match found with
      | Resolved None => Perform (Respond 404 (Msg "Room not found")) Done
      | Resolved (Some room) =>
          if negb (Js.includes (Room.members room) (Claims.userId user))
          then Perform (Respond 403
                          (Msg "You are not a member of this room")) Done
          else
            Await (MessageFindPopulate roomId) (fun found =>
              match found with
              | Resolved messages =>
                  Perform (Respond 200 (Docs messages)) Done
              | Rejected => server_error
              end)
      | Rejected => server_error
      end)).

(** [if (callback) callback(ack)] *)
Definition reply (callback : bool) (ack : Ack) (k : Task) : Task :=
  if callback then Perform (Callback ack) k else k.

(** [socket.on('joinRoom', async (roomId, callback) => ...)] *)
Definition joinRoom (user : Claims.t) (roomId : ObjectId)
           (callback : bool) : Task :=
  Await (RoomFindOne (RoomById roomId)) (fun found =>
    match found with
    | Resolved None => reply callback (AckError "Room not found") Done
    | Resolved (Some room) =>
        (* Check membership *)
        if negb (Js.includes (Room.members room) (Claims.userId user))
        then reply callback
                   (AckError "You are not a member of this room") Done
        else Perform (SocketJoin roomId)
               (reply callback (AckSuccess "Joined the room") Done)
    | Rejected =>
        Perform (Console true "Failed to join room:")
                (reply callback (AckError "Failed to join room") Done)
    end).

(** The [data] of a [chatMessage] event. *)
Record ChatData : Type := { roomId : ObjectId; message : string }.

(** The outer [catch (err)] of the [chatMessage] handler. *)
Definition catch_chat : Task :=
  Perform (Console true "Error sending message:") Done.

Definition mentionMail (user : Claims.t) (room : Room.t)
           (message mentionedEmail : string) : Mail.t :=
  {| Mail.from := GMAIL_USER;
     Mail.to := mentionedEmail;
     Mail.subject := "You were mentioned in ChatApp!";
     Mail.text :=
       Claims.username user ++ " mentioned you in room '" ++ Room.name room
       ++ "' with message: " ++ dquote ++ message ++ dquote |}.

(** The body of [for (let mention of mentions)]. *)
Definition mentionBody (user : Claims.t) (room : Room.t) (message : string)
           (mention : string) (next : Task) : Task :=
  (* remove the leading @ *)
  let mentionedEmail := Js.slice1 mention in
  (* find the user by email *)
  Await (UserFindOne (UserByEmail mentionedEmail)) (fun found =>
    match found with
    | Resolved (Some userMentioned) =>
        (* if not in the room, send email notification *)
        if negb (Js.includes (Room.members room) (User._id userMentioned))
        then
          Await (SendMail (mentionMail user room message mentionedEmail))
            (fun sent =>
               match sent with
               | Resolved _ =>
                   Perform (Console false
                              ("Mention email sent to " ++ mentionedEmail))
                           next
               | Rejected =>
                   Perform (Console true
                              ("Failed to send mention email to "
                                 ++ mentionedEmail ++ ":"))
                           next
               end)
        else next
    | Resolved None => next
    | Rejected => catch_chat
    end).

Definition chatPayload (user : Claims.t) (newMessage : Message.t)
  : Payload.t :=
  {| Payload.user := {| Author._id := Claims.userId user;
                        Author.username := Claims.username user |};
     Payload.text := Message.text newMessage;
     Payload.createdAt := Message.createdAt newMessage |}.

(** [socket.on('chatMessage', async (data) => ...)]; [now] is what
    [Date.now] gives when the message document is built. *)
Definition chatMessage (user : Claims.t) (data : ChatData) (now : Date)
  : Task :=
  let roomId := roomId data in
  let message := message data in
  (* Check membership *)
  Await (RoomFindOne (RoomById roomId)) (fun found =>
    match found with
    | Resolved None => Done
    | Resolved (Some room) =>
        if negb (Js.includes (Room.members room) (Claims.userId user))
        then Done
        else
          (* Save message to DB *)
          let newMessage :=
            {| Message.room := roomId; Message.user := Claims.userId user;
               Message.text := message; Message.createdAt := now |} in
          Await (MessageSave newMessage) (fun saved =>
            match saved with
            | Resolved _ =>
                (* Broadcast the message to all in the room *)
                let broadcast :=
                  Perform (EmitTo roomId "chatMessage"
                                  (chatPayload user newMessage)) Done in
                match Js.match_g message emailMentionRegex with
                | Some mentions =>
                    forOf mentions (mentionBody user room message) broadcast
                | None => broadcast
                end
            | Rejected => catch_chat
            end)
    | Rejected => catch_chat
    end).

Inductive ClientEvent :=
| JoinRoom (roomId : ObjectId) (callback : bool)
| ChatMessage (data : ChatData) (now : Date)
| Disconnect.

(** The handlers registered by [io.on('connection', ...)]. *)
Definition on_event (c : Connection) (ev : ClientEvent) : Task :=
  match c with
  | Refused _ => Done
  | Connected user =>
      match ev with
      | JoinRoom roomId callback => joinRoom user roomId callback
      | ChatMessage data now => chatMessage user data now
      | Disconnect => Perform (Console false "Client disconnected:") Done
      end
  end.

End Persistent.

(** ** The variant with socket.io membership only (src/back/server.js,
  second document) *)

Module Ephemeral.

(** [roomSchema]: "We remove members array, only store room name + owner" *)
Module Room.
Record t : Type := { _id : ObjectId; name : string; owner : ObjectId }.
End Room.

#[global] Instance schema : Schema Room.t Message.t :=
  {| room_id := Room._id;
     room_name := Room.name;
     message_room := Message.room;
     message_user := Message.user;
     message_valid := fun m => Js.truthy (Message.text m) |}.

Abbreviation Task := (Task Room.t Message.t Payload.t).
Abbreviation World := (World Room.t Message.t Payload.t).

Definition server_error (what : string) : Task :=
  Perform (Console true what)
          (Perform (Respond 500 (Msg "Server error")) Done).

(** [POST /rooms] *)
Definition createRoom (jwt_verify : Verifier)
           (authorization : option string) (name : option string)
           (fresh : ObjectId) : Task :=
  authMiddleware jwt_verify authorization (fun user =>
    match name with
    | Some name =>
        if Js.truthy name then
          Await (RoomFindOne (RoomByName name)) (fun existing =>
            match existing with
            | Resolved (Some _) =>
                Perform (Respond 400 (Msg "Room name already exists")) Done
            | Resolved None =>
                let newRoom :=
                  {| Room._id := fresh; Room.name := name;
                     Room.owner := Claims.userId user |} in
                Await (RoomSave newRoom) (fun saved =>
                  match saved with
                  | Resolved _ =>
                      Perform (Respond 201 (MsgRoom "Room created" newRoom))
                              Done
                  | Rejected => server_error "Create room error:"
                  end)
            | Rejected => server_error "Create room error:"
            end)
        else Perform (Respond 400 (Msg "Room name is required")) Done
    | None => Perform (Respond 400 (Msg "Room name is required")) Done
    end).

(** [DELETE /rooms/:roomName]: "Delete a room if you are the owner" *)
Definition deleteRoom (jwt_verify : Verifier)
           (authorization : option string) (roomName : string) : Task :=
  authMiddleware jwt_verify authorization (fun user =>
    Await (RoomFindOne (RoomByName roomName)) (fun found =>
      match found with
      | Resolved None => Perform (Respond 404 (Msg "Room not found")) Done
      | Resolved (Some room) =>
          if negb (String.eqb (Room.owner room) (Claims.userId user))
          then Perform (Respond 403
                          (Msg "You are not the owner of this room")) Done
          else
            Await (RoomFindByIdAndDelete (Room._id room)) (fun deleted =>
              match deleted with
              | Resolved _ => Perform (Respond 200 (Msg "Room deleted")) Done
              | Rejected => server_error "Delete room error:"
              end)
      | Rejected => server_error "Delete room error:"
      end)).

(** [GET /rooms/:roomName/messages]: "We do NOT check membership here." *)
Definition getMessages (jwt_verify : Verifier)
           (authorization : option string) (roomName : string) : Task :=
  authMiddleware jwt_verify authorization (fun user =>
    Await (RoomFindOne (RoomByName roomName)) (fun found =>
      match found with
      | Resolved None => Perform (Respond 404 (Msg "Room not found")) Done
      | Resolved (Some room) =>
          Await (MessageFindPopulate (Room._id room)) (fun found =>
            match found with
            | Resolved messages => Perform (Respond 200 (Docs messages)) Done
            | Rejected => server_error "Get messages error:"
            end)
      | Rejected => server_error "Get messages error:"
      end)).

(** [socket.on('joinRoom', (roomName, callback) => ...)]: "We no longer
    store membership in DB. Just do socket.join." *)
Definition joinRoom (roomName : string) (callback : bool) : Task :=
  Perform (SocketJoin roomName)
    (if callback
     then Perform (Callback (AckSuccess
                     ("Joined the room (ephemeral) '" ++ roomName ++ "'")))
                  Done
     else Done).

Record ChatData : Type := { roomName : string; message : string }.

Definition catch_chat : Task :=
  Perform (Console true "Error sending message:") Done.

Definition mentionMail (user : Claims.t) (roomName message : string)
           (userMentioned : User.t) : Mail.t :=
  {| Mail.from := GMAIL_USER;
     Mail.to := User.email userMentioned;
     Mail.subject :=
       "[Anywherechat] " ++ Claims.username user ++ "님이 멘션했했어요! ";
     Mail.text :=
       "누추한 당신에게 " ++ Claims.username user ++ "님이 이런 귀한 '"
       ++ roomName ++ "'에요. " ++ newline ++ " " ++ Claims.username user
       ++ " : " ++ dquote ++ message ++ dquote |}.

(** The body of [for (const mention of mentions)]: "(No DB membership
    check now)". *)
Definition mentionBody (user : Claims.t) (roomName message : string)
           (mention : string) (next : Task) : Task :=
  let mentionedUsername := Js.slice1 mention in
  Await (UserFindOne (UserByUsername mentionedUsername)) (fun found =>
    match found with
    | Resolved (Some userMentioned) =>
        Await (SendMail (mentionMail user roomName message userMentioned))
          (fun sent =>
             match sent with
             | Resolved _ =>
                 Perform (Console false
                            ("Mention email sent to "
                               ++ User.email userMentioned))
                         next
             | Rejected =>
                 Perform (Console true
                            ("Failed to send mention email to "
                               ++ User.email userMentioned ++ ":"))
                         next
             end)
    | Resolved None => next
    | Rejected => catch_chat
    end).

Definition chatPayload (user : Claims.t) (newMessage : Message.t)
  : Payload.t :=
  {| Payload.user := {| Author._id := Claims.userId user;
                        Author.username := Claims.username user |};
     Payload.text := Message.text newMessage;
     Payload.createdAt := Message.createdAt newMessage |}.

(** [socket.on('chatMessage', async (data) => ...)]; the check of
    [socket.rooms] is commented out in the source. *)
Definition chatMessage (user : Claims.t) (data : ChatData) (now : Date)
  : Task :=
  let roomName := roomName data in
  let message := message data in
  Await (RoomFindOne (RoomByName roomName)) (fun found =>
    match found with
    | Resolved None => Done
    | Resolved (Some room) =>
        let newMessage :=
          {| Message.room := Room._id room;
             Message.user := Claims.userId user;
             Message.text := message; Message.createdAt := now |} in
        Await (MessageSave newMessage) (fun saved =>
          match saved with
          | Resolved _ =>
              (* Broadcast the message to everyone in that socket room *)
              let broadcast :=
                Perform (EmitTo roomName "chatMessage"
                                (chatPayload user newMessage)) Done in
              match Js.match_g message usernameMentionRegex with
              | Some mentions =>
                  forOf mentions (mentionBody user roomName message)
                        broadcast
              | None => broadcast
              end
          | Rejected => catch_chat
          end)
    | Rejected => catch_chat
    end).

Inductive ClientEvent :=
| JoinRoom (roomName : string) (callback : bool)
| ChatMessage (data : ChatData) (now : Date)
| Disconnect.

Definition on_event (c : Connection) (ev : ClientEvent) : Task :=
  match c with
  | Refused _ => Done
  | Connected user =>
      match ev with
      | JoinRoom roomName callback => joinRoom roomName callback
      | ChatMessage data now => chatMessage user data now
      | Disconnect => Perform (Console false "Socket disconnected:") Done
      end
  end.

End Ephemeral.

(** ** The socket server of src/server/src/socket.js *)

Module Minimal.

(** models/room.js; the socket handlers import it and never use it. *)
Module Room.
Record t : Type :=
    { roomId : string; roomName : string; roomPassword : string;
      participants : list ObjectId; createdAt : Date }.
End Room.

(** models/message.js *)
Module Message.
Record t : Type :=
    { roomId : ObjectId; sender : ObjectId; content : string;
      createdAt : Date }.
End Message.

(** The broadcast [newMessage] event. *)
Module Payload.
Record t : Type :=
    { roomId : ObjectId; sender : ObjectId; content : string;
      createdAt : Date }.
End Payload.

#[global] Instance schema : Schema Room.t Message.t :=
  {| room_id := Room.roomId;
     room_name := Room.roomName;
     message_room := Message.roomId;
     message_user := Message.sender;
     message_valid := fun m => Js.truthy (Message.content m) |}.

Abbreviation Task := (Task Room.t Message.t Payload.t).
Abbreviation World := (World Room.t Message.t Payload.t).

(** [socket.on('joinRoom', async ({ roomId, userId }) => ...)] *)
Definition joinRoom (roomId userId : string) : Task :=
  Perform (SocketJoin roomId)
    (Perform (Console false
                ("User " ++ userId ++ " joined room " ++ roomId)) Done).

(** [socket.on('sendMessage', async ({ roomId, userId, content }) => ...)];
    there is no [try]: a rejected [save] escapes the handler. *)
Definition sendMessage (roomId userId content : string) (now : Date)
  : Task :=
  let newMessage :=
    {| Message.roomId := roomId; Message.sender := userId;
       Message.content := content; Message.createdAt := now |} in
  Await (MessageSave newMessage) (fun saved =>
    match saved with
    | Resolved _ =>
        Perform (EmitTo roomId "newMessage"
                   {| Payload.roomId := roomId; Payload.sender := userId;
                      Payload.content := content;
                      Payload.createdAt := Message.createdAt newMessage |})
                Done
    | Rejected => Unhandled
    end).

Inductive ClientEvent :=
| JoinRoom (roomId userId : string)
| SendMessage (roomId userId content : string) (now : Date)
| Disconnect.

(** No middleware is installed, so every connection reaches
    [io.on('connection', ...)], and no identity is bound to the socket.
    The stray identifier on line 32 of the source is evaluated after the
    two handlers above are registered and before the [disconnect] one
    would be, so that one is never registered; what the [ReferenceError]
    it raises does to the process is decided outside the repository. *)
Definition on_event (ev : ClientEvent) : Task :=
  match ev with
  | JoinRoom roomId userId => joinRoom roomId userId
  | SendMessage roomId userId content now =>
      sendMessage roomId userId content now
  | Disconnect => Done
  end.

End Minimal.

(** ** The event loop: handlers interleave at their [await]s *)

(** A turn of the event loop runs one handler, without interruption, from
    the point where it is suspended to its next [await].  Which suspended
    handler goes next is not decided by the program: the database and the
    mailer answer when they answer.  A schedule is the list of the turns
    taken. *)

Section EventLoop.

Context {R M P : Type} {schema : Schema R M}.
Abbreviation Task' := (Task R M P).
Abbreviation World' := (World R M P).

Record Loop : Type :=
  { world : World';
    pending : list (nat * Task') }.    (* suspended handlers, by socket *)

Inductive Turn :=
| Arrive (sid : nat) (handler : Task')  (* a client event is dispatched *)
| Settle (i : nat).                     (* the i-th handler's promise settles *)

Definition turn (t : Turn) (l : Loop) : Loop :=
  match t with
  | Arrive sid handler =>
      let (t', w) := run_sync sid handler (world l) in
      {| world := w; pending := pending l ++ [(sid, t')] |}
  | Settle i =>
      match nth_error (pending l) i with
      | Some (sid, t) =>
          let (t', w) := resume sid t (world l) in
          {| world := w;
             pending := firstn i (pending l)
                        ++ (sid, t') :: skipn (S i) (pending l) |}
      | None => l
      end
  end.

Definition turns (ts : list Turn) (l : Loop) : Loop :=
  fold_left (fun l t => turn t l) ts l.

Definition idle (w : World') : Loop := {| world := w; pending := [] |}.

(** The handler has returned, or a rejection has escaped it. *)
Definition finished (t : Task') : Prop := t = Done \/ t = Unhandled.

End EventLoop.

(** ** Vocabulary of the statements *)

(** What the handlers of the persistent variant build and leave behind. *)
Module PersistentSpec.
Import Persistent.

(** Addresses the loop mails: one per occurrence of a token whose address
    belongs to a user outside [room.members]. *)
Definition notified (us : list User.t) (room : Room.t)
           (mentions : list string) : list string :=
  flat_map (fun mention =>
              match find (user_matches (UserByEmail (Js.slice1 mention))) us
              with
              | Some u =>
                  if negb (Js.includes (Room.members room) (User._id u))
                  then [Js.slice1 mention] else []
              | None => []
              end) mentions.

(** The address of the mail resolves to a user outside [room.members]. *)
Definition to_non_member (us : list User.t) (room : Room.t) (mail : Mail.t)
  : Prop :=
  exists u, find (user_matches (UserByEmail (Mail.to mail))) us = Some u
            /\ Js.includes (Room.members room) (User._id u) = false.

(** The console line that follows a mail attempt. *)
Definition mail_line (fault : bool) (mentionedEmail : string)
  : Obs Room.t Message.t Payload.t :=
  if fault
  then Logged true ("Failed to send mention email to " ++ mentionedEmail ++ ":")
  else Logged false ("Mention email sent to " ++ mentionedEmail).

(** The document built by the handler. *)
Definition newMessage (user : Claims.t) (data : ChatData) (now : Date)
  : Message.t :=
  {| Message.room := roomId data; Message.user := Claims.userId user;
     Message.text := message data; Message.createdAt := now |}.

(** The matched tokens, none when [match] gives [null]. *)
Definition mentions_of (text : string) : list string :=
  match Js.match_g text emailMentionRegex with
  | Some mentions => mentions
  | None => []
  end.

Definition error_line : Obs Room.t Message.t Payload.t :=
  Logged true "Error sending message:".

(** The world once the lookup of the room and the [save] have settled. *)
Definition saved (user : Claims.t) (data : ChatData) (now : Date) (w : World)
  : World :=
  set_messages (messages w ++ [newMessage user data now])
               (db_next (db_next w)).

End PersistentSpec.

(** The same for the ephemeral variant. *)
Module EphemeralSpec.
Import Ephemeral.

(** Users the loop mails: one per occurrence of a token naming a user. *)
Definition notified (us : list User.t) (mentions : list string)
  : list User.t :=
  flat_map (fun mention =>
              match find (user_matches (UserByUsername (Js.slice1 mention))) us
              with
              | Some u => [u]
              | None => []
              end) mentions.

(** The mail goes to the address of a user of the directory. *)
Definition to_user (us : list User.t) (mail : Mail.t) : Prop :=
  exists u, In u us /\ Mail.to mail = User.email u.

Definition mail_line (fault : bool) (u : User.t)
  : Obs Room.t Message.t Payload.t :=
  if fault
  then Logged true ("Failed to send mention email to " ++ User.email u ++ ":")
  else Logged false ("Mention email sent to " ++ User.email u).

Definition newMessage (user : Claims.t) (room : Room.t) (data : ChatData)
           (now : Date) : Message.t :=
  {| Message.room := Room._id room; Message.user := Claims.userId user;
     Message.text := message data; Message.createdAt := now |}.

Definition mentions_of (text : string) : list string :=
  match Js.match_g text usernameMentionRegex with
  | Some mentions => mentions
  | None => []
  end.

Definition error_line : Obs Room.t Message.t Payload.t :=
  Logged true "Error sending message:".

Definition saved (user : Claims.t) (room : Room.t) (data : ChatData)
           (now : Date) (w : World) : World :=
  set_messages (messages w ++ [newMessage user room data now])
               (db_next (db_next w)).

End EphemeralSpec.

(** A post as it reaches the server. *)
Record Post : Type :=
  { post_socket : nat; post_user : Claims.t; post_text : string;
    post_now : Date }.

(** Posts to one room of the persistent variant, handled in turn. *)
Module PersistentPosts.
Import Persistent.

Definition data_of (room : ObjectId) (p : Post) : ChatData :=
  {| roomId := room; message := post_text p |}.

Definition message_of (room : ObjectId) (p : Post) : Message.t :=
  PersistentSpec.newMessage (post_user p) (data_of room p) (post_now p).

Definition event_of (room : ObjectId) (p : Post) : string * Payload.t :=
  ("chatMessage", chatPayload (post_user p) (message_of room p)).

(** The post passes the checks of the handler and the validator. *)
Definition accepts (w : World) (room : ObjectId) (p : Post) : bool :=
  match find (room_matches (RoomById room)) (rooms w) with
  | Some r => Js.includes (Room.members r) (Claims.userId (post_user p))
              && Js.truthy (post_text p)
  | None => false
  end.

(** The handlers run one after the other, each to completion. *)
Definition post_all (room : ObjectId) (posts : list Post) (w : World)
  : World :=
  fold_left (fun w p => run (post_socket p)
                            (chatMessage (post_user p) (data_of room p)
                                         (post_now p)) w)
            posts w.

End PersistentPosts.

(** Posts to one room of the ephemeral variant, handled in turn. *)
Module EphemeralPosts.
Import Ephemeral.

Definition data_of (name : string) (p : Post) : ChatData :=
  {| roomName := name; message := post_text p |}.

Definition message_of (name : string) (r : Room.t) (p : Post) : Message.t :=
  EphemeralSpec.newMessage (post_user p) r (data_of name p) (post_now p).

Definition event_of (name : string) (r : Room.t) (p : Post)
  : string * Payload.t :=
  ("chatMessage", chatPayload (post_user p) (message_of name r p)).

(** The post passes the validator; the handler itself checks nothing but
    the existence of the room. *)
Definition accepts (p : Post) : bool := Js.truthy (post_text p).

Definition post_all (name : string) (posts : list Post) (w : World) : World :=
  fold_left (fun w p => run (post_socket p)
                            (chatMessage (post_user p) (data_of name p)
                                         (post_now p)) w)
            posts w.

End EphemeralPosts.

Definition sent_message (roomId userId content : string) (now : Date)
  : Minimal.Message.t :=
  {| Minimal.Message.roomId := roomId; Minimal.Message.sender := userId;
     Minimal.Message.content := content; Minimal.Message.createdAt := now |}.

Definition sent_payload (roomId userId content : string) (now : Date)
  : Minimal.Payload.t :=
  {| Minimal.Payload.roomId := roomId; Minimal.Payload.sender := userId;
     Minimal.Payload.content := content; Minimal.Payload.createdAt := now |}.

(** ** Sample worlds *)

Module Demo.

Definition alice : Claims.t :=
  {| Claims.userId := "a1"; Claims.username := "alice" |}.
Definition bob : Claims.t :=
  {| Claims.userId := "b2"; Claims.username := "bob" |}.
Definition carol : Claims.t :=
  {| Claims.userId := "c3"; Claims.username := "carol" |}.

Definition directory : list User.t :=
  [ {| User._id := "a1"; User.username := "alice";
       User.email := "alice@example.com" |};
    {| User._id := "b2"; User.username := "bob";
       User.email := "bob@example.com" |};
    {| User._id := "c3"; User.username := "carol";
       User.email := "carol@example.com" |} ].

Definition jwt_verify : Verifier := fun token =>
  if String.eqb token "token-alice" then Some alice
  else if String.eqb token "token-bob" then Some bob
  else if String.eqb token "token-carol" then Some carol
  else None.

(** A room of the persistent variant: alice and carol are members, bob is
    not. *)
Definition general : Persistent.Room.t :=
  {| Persistent.Room._id := "r1"; Persistent.Room.name := "general";
     Persistent.Room.members := ["a1"; "c3"] |}.

Definition sock (n : nat) (u : Claims.t) (rs : list string)
  : Socket Payload.t :=
  {| socket_id := n; socket_user := Some u; socket_rooms := rs;
     received := [] |}.

(** Alice (socket 1) and carol (socket 3) have joined the room. *)
Definition w0 : Persistent.World :=
  {| users := directory; rooms := [general]; messages := [];
     sockets := [sock 1 alice ["r1"]; sock 2 bob []; sock 3 carol ["r1"]];
     history := []; db_faults := []; mail_faults := [] |}.

(** A room of the ephemeral variant, owned by alice. *)
Definition lobby : Ephemeral.Room.t :=
  {| Ephemeral.Room._id := "r2"; Ephemeral.Room.name := "lobby";
     Ephemeral.Room.owner := "a1" |}.

Definition e0 : Ephemeral.World :=
  {| users := directory; rooms := [lobby]; messages := [];
     sockets := [sock 1 alice []; sock 2 bob []; sock 3 carol []];
     history := []; db_faults := []; mail_faults := [] |}.

Definition lobby_post (text : string) : Ephemeral.ChatData :=
  {| Ephemeral.roomName := "lobby"; Ephemeral.message := text |}.

End Demo.

Definition demo_post (text : string) : Persistent.ChatData :=
  {| Persistent.roomId := "r1"; Persistent.message := text |}.

(** A world in which the lookup of the room resolves and the [save]
    rejects. *)
Definition w0_save_fails : Persistent.World :=
  {| users := users Demo.w0; rooms := rooms Demo.w0;
     messages := messages Demo.w0; sockets := sockets Demo.w0;
     history := []; db_faults := [false; true]; mail_faults := [] |}.

(** A world in which the first mail delivery fails. *)
Definition w0_mail_fails : Persistent.World :=
  {| users := users Demo.w0; rooms := rooms Demo.w0;
     messages := messages Demo.w0; sockets := sockets Demo.w0;
     history := []; db_faults := []; mail_faults := [true] |}.

Definition alice_mentions_bob : Persistent.Task :=
  Persistent.on_event (Connected Demo.alice)
    (Persistent.ChatMessage (demo_post "hi @bob@example.com") 5).


Definition demo_posts : list Post :=
  [ {| post_socket := 1; post_user := Demo.alice;
       post_text := "hi @bob@example.com"; post_now := 5 |};
    {| post_socket := 2; post_user := Demo.bob;
       post_text := "let me in"; post_now := 6 |};
    {| post_socket := 3; post_user := Demo.carol;
       post_text := "yo"; post_now := 7 |} ].

(** The persistent variant with no room yet. *)
Definition w_no_room : Persistent.World :=
  {| users := Demo.directory; rooms := []; messages := []; sockets := [];
     history := []; db_faults := []; mail_faults := [] |}.


(** ** Vocabulary of the further properties *)



(** The text holds no ["@"]. *)
Definition at_free (text : string) : Prop :=
  ~ In "@"%char (list_ascii_of_string text).

(** The header the clients send: [`Bearer ${token}`]. *)
Definition authorization_header (token : string) : string :=
  "Bearer " ++ token.

(** The string holds no space. *)
Definition space_free (s : string) : Prop :=
  ~ In " "%char (list_ascii_of_string s).

(** The request carries no token [authMiddleware] can use: no header, no
    second field in the header, an empty second field, or a second field
    that does not verify. *)
Definition unusable (jwt_verify : Verifier) (authorization : option string)
  : Prop :=
  match authorization with
  | None => True
  | Some header =>
      match nth_error (Js.split_space header) 1 with
      | None => True
      | Some token => token = EmptyString \/ jwt_verify token = None
      end
  end.

(** A socket with this id is connected. *)
Definition connected {R M P : Type} (sid : nat) (w : World R M P) : bool :=
  existsb (fun s => Nat.eqb (socket_id s) sid) (sockets w).


(** A [sendMessage] event as it reaches the socket server of
    src/server/src/socket.js. *)
Record Send : Type :=
  { send_socket : nat; send_user : string; send_content : string;
    send_now : Date }.

(** [sendMessage] events to one room, handled in turn. *)
Module MinimalSends.
Import Minimal.

Definition message_of (room : string) (s : Send) : Message.t :=
  sent_message room (send_user s) (send_content s) (send_now s).

Definition event_of (room : string) (s : Send) : string * Payload.t :=
  ("newMessage",
   sent_payload room (send_user s) (send_content s) (send_now s)).

(** The event passes the validator. *)
Definition accepts (s : Send) : bool := Js.truthy (send_content s).


End MinimalSends.

(** The request carries a header whose second field is a token that
    [jwt.verify] decodes to [user]. *)
Definition authenticated (jwt_verify : Verifier)
           (authorization : option string) (user : Claims.t) : Prop :=
  exists header token,
    authorization = Some header
    /\ nth_error (Js.split_space header) 1 = Some token
    /\ Js.truthy token = true
    /\ jwt_verify token = Some user.

(** The unique index on the room names holds of the stored rooms. *)
Definition names_unique {R M : Type} {schema : Schema R M} (rs : list R)
  : Prop :=
  NoDup (map room_name rs).



(** ** The account routes of src/back/server.js

    [/auth/signup] and [/auth/login] work on the [users] collection with
    the password hashes, which the chat core never reads; they are written
    here in a state and error monad over that collection.  The calls of
    [bcrypt] and of [jwt.sign] are taken to return; the awaited database
    calls may reject. *)

Module Accounts.

(** A stored [User] document: the fields the chat core reads and the
    [password] field, which holds the hash. *)
Record Account : Type := { doc : User.t; password : string }.

(** [res.status(status).json({ message, token })] *)
Record Response : Type :=
  { status : nat; message : string; token : option string }.

(** The collection, the labels [console.error] was called with ([None]
    when it was called with the error alone), and the script of the database
    faults, of which each awaited call consumes one entry. *)
Record Store : Type :=
  { accounts : list Account;
    console : list (option string);
    faults : list bool }.

(** An awaited computation: it resolves or rejects, and leaves a store. *)
Definition Db (A : Type) : Type := Store -> Outcome A * Store.

Definition ret {A : Type} (a : A) : Db A := fun s => (Resolved a, s).

Definition bind {A B : Type} (m : Db A) (f : A -> Db B) : Db B :=
  fun s =>
    match m s with
    | (Resolved a, s') => f a s'
    | (Rejected, s') => (Rejected, s')
    end.

(** [try { m } catch (err) { handler }] *)
Definition try_catch {A : Type} (m : Db A) (handler : Db A) : Db A :=
  fun s =>
    match m s with
    | (Resolved a, s') => (Resolved a, s')
    | (Rejected, s') => handler s'
    end.

Definition console_error (label : option string) : Db unit :=
  fun s => (Resolved tt,
            {| accounts := accounts s; console := console s ++ [label];
               faults := faults s |}).

Definition tick (s : Store) : bool * Store :=
  (hd false (faults s),
   {| accounts := accounts s; console := console s;
      faults := tl (faults s) |}).

(** [User.findOne(query)] *)
Definition findOne (query : Account -> bool) : Db (option Account) :=
  fun s =>
    let (fault, s1) := tick s in
    if fault then (Rejected, s1)
    else (Resolved (find query (accounts s1)), s1).

(** The unique indexes on [username] and [email]: a stored document holds
    one of the two values. *)
Definition index_violated (a : Account) (l : list Account) : bool :=
  existsb (fun a' => String.eqb (User.username (doc a'))
                                (User.username (doc a))
                     || String.eqb (User.email (doc a')) (User.email (doc a)))
          l.

Section Routes.

Variable bcrypt_hash : string -> string -> string.  (* salt, password *)
Variable bcrypt_compare : string -> string -> bool. (* password, hash *)
Variable jwt_sign : Claims.t -> string.   (* jwt.sign(payload, JWT_SECRET) *)

(** [userSchema.pre('save', ...)]: the password of a new document counts
    as modified, so it is replaced by its hash; [salt] is what
    [bcrypt.hash] draws. *)
Definition pre_save (salt : string) (a : Account) : Account :=
  {| doc := doc a; password := bcrypt_hash salt (password a) |}.

(** [newUser.save()] *)
Definition save (salt : string) (a : Account) : Db unit :=
  fun s =>
    let a' := pre_save salt a in
    let (fault, s1) := tick s in
    if fault || index_violated a' (accounts s1) then (Rejected, s1)
    else (Resolved tt,
          {| accounts := accounts s1 ++ [a']; console := console s1;
             faults := faults s1 |}).

(** The document [signup] stores for a new user. *)
Definition stored (fresh : ObjectId) (salt username email password : string)
  : Account :=
  pre_save salt {| doc := {| User._id := fresh; User.username := username;
                             User.email := email |};
                   password := password |}.

Definition respond (status : nat) (message : string) : Db Response :=
  ret {| status := status; message := message; token := None |}.

(** [app.post('/auth/signup', ...)]: [duplicate] is the query of the check
    for an existing user, [label] what the [catch] passes to
    [console.error] before the error, [fresh] the id of the new document. *)
Definition signup (duplicate : string -> string -> Account -> bool)
           (label : option string)
           (username email password : option string)
           (fresh : ObjectId) (salt : string) : Db Response :=
  try_catch
    (match username, email, password with
     | Some username, Some email, Some password =>
         if negb (Js.truthy username) || negb (Js.truthy email)
            || negb (Js.truthy password)
         then respond 400 "Username, email, and password are required"
         else
           bind (findOne (duplicate username email)) (fun existingUser =>
             match existingUser with
             | Some _ => respond 400 "Username or email already taken"
             | None =>
                 let newUser :=
                   {| doc := {| User._id := fresh;
                                User.username := username;
                                User.email := email |};
                      password := password |} in
                 bind (save salt newUser) (fun _ =>
                   respond 201 "User created successfully")
             end)
     | _, _, _ => respond 400 "Username, email, and password are required"
     end)
    (bind (console_error label) (fun _ => respond 500 "Server error")).

(** [{ $or: [{ username }, { email }] }] *)
Definition username_or_email (username email : string) (a : Account) : bool :=
  String.eqb (User.username (doc a)) username
  || String.eqb (User.email (doc a)) email.

(** [{ $or: [{ username }] }] *)
Definition username_only (username email : string) (a : Account) : bool :=
  String.eqb (User.username (doc a)) username.

(** The route of the persistent variant (lines 129-152). *)
Definition persistent_signup := signup username_or_email None.

(** The route of the ephemeral variant (lines 528-550). *)
Definition ephemeral_signup := signup username_only (Some "Signup error:").

(** [app.post('/auth/login', ...)] *)
Definition login (label : option string) (username password : option string)
  : Db Response :=
  try_catch
    (match username, password with
     | Some username, Some password =>
         if negb (Js.truthy username) || negb (Js.truthy password)
         then respond 400 "Username and password are required"
         else
           bind (findOne (fun a => String.eqb (User.username (doc a))
                                              username)) (fun user =>
             match user with
             | None => respond 401 "Invalid credentials"
             | Some user =>
                 if negb (bcrypt_compare password (Accounts.password user))
                 then respond 401 "Invalid credentials"
                 else
                   let token :=
                     jwt_sign {| Claims.userId := User._id (doc user);
                                 Claims.username := User.username (doc user)
                              |} in
                   ret {| status := 200; message := "Login successful";
                          token := Some token |}
             end)
     | _, _ => respond 400 "Username and password are required"
     end)
    (bind (console_error label) (fun _ => respond 500 "Server error")).

(** The route of the persistent variant (lines 155-184). *)
Definition persistent_login := login None.

(** The route of the ephemeral variant (lines 553-579). *)
Definition ephemeral_login := login (Some "Login error:").

End Routes.

(** No two stored users share a username or an e-mail address. *)
Definition accounts_unique (l : list Account) : Prop :=
  NoDup (map (fun a => User.username (doc a)) l)
  /\ NoDup (map (fun a => User.email (doc a)) l).

End Accounts.

(** A signer that [Demo.jwt_verify] reads back, and a store with alice's
    account under a hash function that keeps the password as it is. *)
Definition demo_sign (c : Claims.t) : string :=
  ("token-" ++ Claims.username c)%string.

Definition demo_accounts : Accounts.Store :=
  {| Accounts.accounts
     := [Accounts.stored (fun _ pw => pw) "a1" "salt" "alice"
                         "alice@example.com" "secret"];
     Accounts.console := []; Accounts.faults := [] |}.

(** * Part II: properties *)

(** ** The mention patterns on examples *)

Example match_email_mentions :
  Js.match_g "hi @bob@example.com, @x@y.z and @a.b@c-d.e.org!!"
             emailMentionRegex
  = Some ["@bob@example.com"; "@a.b@c-d.e.org"].
Proof. reflexivity. Qed.

Example match_username_mentions :
  Js.match_g "hi @bob @ @al_ice9-x@@bob" usernameMentionRegex
  = Some ["@bob"; "@al_ice9"; "@bob"].
Proof. reflexivity. Qed.

Example match_no_mention :
  Js.match_g "no mention here" usernameMentionRegex = None.
Proof. reflexivity. Qed.

(** ** How [run] unfolds *)

Section RunFacts.

Context {R M P : Type} {schema : Schema R M}.
Implicit Types (w : World R M P) (t k : Task R M P).

Lemma run_Perform sid e k w :
  run sid (Perform e k) w = run sid k (effect sid e w).
Proof. reflexivity. Qed.

Lemma run_RoomFindOne sid q (k : Outcome (option R) -> Task R M P) w :
  run sid (Await (RoomFindOne q) k) w
  = run sid (k (if db_fault w then Rejected
                else Resolved (find (room_matches q) (rooms w))))
        (db_next w).
Proof.
  unfold db_fault, db_next. simpl.
  destruct (hd false (db_faults w)); reflexivity.
Qed.

Lemma run_UserFindOne sid q (k : Outcome (option User.t) -> Task R M P) w :
  run sid (Await (UserFindOne q) k) w
  = run sid (k (if db_fault w then Rejected
                else Resolved (find (user_matches q) (users w))))
        (db_next w).
Proof.
  unfold db_fault, db_next. simpl.
  destruct (hd false (db_faults w)); reflexivity.
Qed.

Lemma run_MessageSave sid m (k : Outcome unit -> Task R M P) w :
  run sid (Await (MessageSave m) k) w
  = if db_fault w || negb (message_valid m)
    then run sid (k Rejected) (db_next w)
    else run sid (k (Resolved tt))
             (set_messages (messages w ++ [m]) (db_next w)).
Proof.
  unfold db_fault, db_next. simpl.
  destruct (hd false (db_faults w) || negb (message_valid m)); reflexivity.
Qed.

Lemma run_MessageFindPopulate sid room
      (k : Outcome (list (Populated (M:=M))) -> Task R M P) w :
  run sid (Await (MessageFindPopulate room) k) w
  = run sid (k (if db_fault w then Rejected
                else Resolved
                       (map (populate (users w))
                            (filter (fun m => String.eqb (message_room m) room)
                                    (messages w)))))
        (db_next w).
Proof.
  unfold db_fault, db_next. simpl.
  destruct (hd false (db_faults w)); reflexivity.
Qed.

Lemma run_RoomSave sid r (k : Outcome unit -> Task R M P) w :
  run sid (Await (RoomSave r) k) w
  = if db_fault w || name_taken r (rooms w)
    then run sid (k Rejected) (db_next w)
    else run sid (k (Resolved tt))
             (set_rooms (upsert r (rooms w)) (db_next w)).
Proof.
  unfold db_fault, db_next. simpl.
  destruct (hd false (db_faults w) || name_taken r (rooms w)); reflexivity.
Qed.

Lemma run_RoomFindByIdAndDelete sid id (k : Outcome unit -> Task R M P) w :
  run sid (Await (RoomFindByIdAndDelete id) k) w
  = if db_fault w
    then run sid (k Rejected) (db_next w)
    else run sid (k (Resolved tt))
             (set_rooms (filter (fun r => negb (String.eqb (room_id r) id))
                                (rooms w)) (db_next w)).
Proof.
  unfold db_fault, db_next. simpl.
  destruct (hd false (db_faults w)); reflexivity.
Qed.

Lemma run_SendMail sid mail (k : Outcome unit -> Task R M P) w :
  run sid (Await (SendMail mail) k) w
  = run sid (k (if mail_fault w then Rejected else Resolved tt))
        (observe (Sent mail (negb (mail_fault w))) (mail_next w)).
Proof.
  unfold mail_fault, mail_next. simpl.
  destruct (hd false (mail_faults w)); reflexivity.
Qed.

Lemma mails_Sent (mail : Mail.t) d (h : list (Obs R M P)) :
  mails (Sent mail d :: h) = mail :: mails h.
Proof. reflexivity. Qed.

Lemma mails_app (h1 h2 : list (Obs R M P)) :
  mails (h1 ++ h2) = mails h1 ++ mails h2.
Proof. unfold mails. apply flat_map_app. Qed.

(** A healthy database stays healthy. *)
Lemma db_next_healthy w : db_faults w = [] -> db_faults (db_next w) = [].
Proof. intros H. unfold db_next. simpl. rewrite H. reflexivity. Qed.

Lemma db_fault_healthy w : db_faults w = [] -> db_fault w = false.
Proof. intros H. unfold db_fault. rewrite H. reflexivity. Qed.

(** [run] is the iteration of [resume]: running to completion is one
    particular schedule of the event loop. *)
Lemma run_run_sync sid t w :
  run sid t w = run sid (fst (run_sync sid t w)) (snd (run_sync sid t w)).
Proof.
  revert w. induction t as [| | e k IH | op k IH]; intros w; simpl;
    try reflexivity.
  apply IH.
Qed.

Lemma run_resume sid t w :
  run sid t w = run sid (fst (resume sid t w)) (snd (resume sid t w)).
Proof.
  destruct t as [| | e k | op k]; try reflexivity.
  - apply (run_run_sync sid (Perform e k) w).
  - simpl. destruct (perform op w) as [o w']. apply run_run_sync.
Qed.

(** Delivery keeps the identity and the rooms of a socket. *)
Lemma deliver_id room event (p : P) (s : Socket P) :
  socket_id (deliver room event p s) = socket_id s.
Proof. unfold deliver. destruct (Js.includes _ _); reflexivity. Qed.

Lemma deliver_rooms room event (p : P) (s : Socket P) :
  socket_rooms (deliver room event p s) = socket_rooms s.
Proof. unfold deliver. destruct (Js.includes _ _); reflexivity. Qed.

Lemma deliver_received room event (p : P) (s : Socket P) :
  received (deliver room event p s)
  = if Js.includes (socket_rooms s) room
    then received s ++ [(event, p)] else received s.
Proof. unfold deliver. destruct (Js.includes _ _); reflexivity. Qed.

Lemma find_deliver sid room event (p : P) (ss : list (Socket P)) :
  find (fun s => Nat.eqb (socket_id s) sid) (map (deliver room event p) ss)
  = option_map (deliver room event p)
               (find (fun s => Nat.eqb (socket_id s) sid) ss).
Proof.
  induction ss as [|s ss IH]; simpl; [reflexivity|].
  rewrite deliver_id. destruct (Nat.eqb (socket_id s) sid); auto.
Qed.

Lemma received_by_deliver sid room event (p : P) (ss : list (Socket P)) :
  match find (fun s => Nat.eqb (socket_id s) sid)
             (map (deliver room event p) ss) with
  | Some s => received s
  | None => []
  end
  = match find (fun s => Nat.eqb (socket_id s) sid) ss with
    | Some s => if Js.includes (socket_rooms s) room
                then received s ++ [(event, p)] else received s
    | None => []
    end.
Proof.
  rewrite find_deliver. destruct (find _ ss) as [s|]; simpl; auto.
  apply deliver_received.
Qed.

Lemma in_room_deliver sid room room' event (p : P) (ss : list (Socket P)) :
  match find (fun s => Nat.eqb (socket_id s) sid)
             (map (deliver room' event p) ss) with
  | Some s => Js.includes (socket_rooms s) room
  | None => false
  end
  = match find (fun s => Nat.eqb (socket_id s) sid) ss with
    | Some s => Js.includes (socket_rooms s) room
    | None => false
    end.
Proof.
  rewrite find_deliver. destruct (find _ ss) as [s|]; simpl; auto.
  rewrite deliver_rooms. reflexivity.
Qed.



End RunFacts.

(** ** Running to completion is a schedule of the event loop *)

Section Schedules.

Context {R M P : Type} {schema : Schema R M}.

Lemma turns_cons (a : Turn) ts (l : Loop (R:=R) (M:=M) (P:=P)) :
  turns (a :: ts) l = turns ts (turn a l).
Proof. reflexivity. Qed.

Lemma turn_Settle sid (t : Task R M P) w ps qs :
  turn (Settle (List.length ps))
       {| world := w; pending := ps ++ (sid, t) :: qs |}
  = {| world := snd (resume sid t w);
       pending := ps ++ (sid, fst (resume sid t w)) :: qs |}.
Proof.
  unfold turn. cbn [pending world].
  rewrite nth_error_app2 by apply Nat.le_refl.
  rewrite Nat.sub_diag. cbn [nth_error].
  destruct (resume sid t w) as [t' w']. cbn [fst snd].
  rewrite firstn_app, Nat.sub_diag, firstn_all, firstn_O, app_nil_r.
  replace (S (List.length ps)) with (List.length ps + 1) by apply Nat.add_1_r.
  rewrite skipn_app, skipn_all2 by (rewrite Nat.add_1_r; auto).
  replace (List.length ps + 1 - List.length ps) with 1
    by (rewrite Nat.add_comm; symmetry; apply Nat.add_sub).
  reflexivity.
Qed.

(** Once a handler has started, letting its promises settle one after the
    other, with no other handler in between, ends in the world [run]
    computes. *)
Lemma settles_to_run sid (t : Task R M P) ps qs :
  forall w, exists n t',
    finished t'
    /\ turns (repeat (Settle (List.length ps)) n)
             {| world := snd (run_sync sid t w);
                pending := ps ++ (sid, fst (run_sync sid t w)) :: qs |}
       = {| world := run sid t w; pending := ps ++ (sid, t') :: qs |}.
Proof.
  induction t as [| | e k IH | op k IH]; intros w.
  - exists 0, Done. split; [left|]; reflexivity.
  - exists 0, Unhandled. split; [right|]; reflexivity.
  - apply (IH (effect sid e w)).
  - cbn [run_sync fst snd run].
    destruct (perform op w) as [o w'] eqn:Hop.
    destruct (IH o w') as (n & t' & Hfin & Hturns).
    exists (S n), t'. split; [exact Hfin|].
    cbn [repeat]. rewrite turns_cons, turn_Settle.
    cbn [resume]. rewrite Hop. exact Hturns.
Qed.

Lemma run_is_a_schedule sid (t : Task R M P) (l : Loop) :
  exists n t',
    finished t'
    /\ turns (Arrive sid t :: repeat (Settle (List.length (pending l))) n) l
       = {| world := run sid t (world l);
            pending := pending l ++ [(sid, t')] |}.
Proof.
  destruct (settles_to_run sid t (pending l) [] (world l))
    as (n & t' & Hfin & Hturns).
  exists n, t'. split; [exact Hfin|].
  rewrite turns_cons. cbn [turn].
  destruct (run_sync sid t (world l)) as [t1 w1]. exact Hturns.
Qed.

Lemma turns_app (ts1 ts2 : list Turn) (l : Loop (R:=R) (M:=M) (P:=P)) :
  turns (ts1 ++ ts2) l = turns ts2 (turns ts1 l).
Proof. unfold turns. apply fold_left_app. Qed.

(** Handlers run one after the other, each to completion before the next
    starts, are the schedule in which no two handlers overlap. *)
Lemma runs_are_a_schedule (hs : list (nat * Task R M P)) :
  forall l : Loop, exists ts pend,
    Forall (fun p => finished (snd p)) pend
    /\ turns ts l
       = {| world := fold_left (fun w h => run (fst h) (snd h) w) hs (world l);
            pending := pending l ++ pend |}.
Proof.
  induction hs as [|[sid t] hs IH]; intros l.
  - exists [], []. split; [constructor|].
    rewrite app_nil_r. destruct l; reflexivity.
  - destruct (run_is_a_schedule sid t l) as (n & t' & Hfin & Hrun).
    destruct (IH {| world := run sid t (world l);
                    pending := pending l ++ [(sid, t')] |})
      as (ts & pend & Hpend & Hts).
    exists ((Arrive sid t :: repeat (Settle (List.length (pending l))) n)
              ++ ts),
      ((sid, t') :: pend).
    split; [constructor; assumption|].
    rewrite turns_app, Hrun, Hts. cbn [world pending fold_left fst snd].
    rewrite <- app_assoc. reflexivity.
Qed.

End Schedules.

Lemma authMiddleware_passes {R : Type} (jwt_verify : Verifier) header token
      user (next : Claims.t -> Task R Message.t Payload.t) :
  nth_error (Js.split_space header) 1 = Some token ->
  Js.truthy token = true ->
  jwt_verify token = Some user ->
  authMiddleware jwt_verify (Some header) next = next user.
Proof.
  intros Htok Htruthy Hverify. unfold authMiddleware.
  rewrite Htok, Htruthy, Hverify. reflexivity.
Qed.


(** ** The handlers of the persistent variant *)

Module PersistentFacts.
Import Persistent PersistentSpec PersistentPosts.

Lemma persistent_mail_line_quiet f e : mail_or_console (mail_line f e) = true.
Proof. destruct f; reflexivity. Qed.

Lemma persistent_mails_mail_line f e h : mails (mail_line f e :: h) = mails h.
Proof. destruct f; reflexivity. Qed.

Lemma persistent_run_mentionBody sid user room message mention next
      (w : World) :
  run sid (mentionBody user room message mention next) w
  = if db_fault w then run sid catch_chat (db_next w)
    else
      match find (user_matches (UserByEmail (Js.slice1 mention))) (users w)
      with
      | Some u =>
          if negb (Js.includes (Room.members room) (User._id u))
          then run sid next
                   (observe (mail_line (mail_fault (db_next w))
                                       (Js.slice1 mention))
                      (observe (Sent (mentionMail user room message
                                                  (Js.slice1 mention))
                                     (negb (mail_fault (db_next w))))
                               (mail_next (db_next w))))
          else run sid next (db_next w)
      | None => run sid next (db_next w)
      end.
Proof.
  unfold mentionBody. rewrite run_UserFindOne.
  destruct (db_fault w); [reflexivity|].
  destruct (find _ (users w)) as [u|]; [|reflexivity].
  destruct (negb (Js.includes (Room.members room) (User._id u)));
    [|reflexivity].
  rewrite run_SendMail. unfold mail_line.
  destruct (mail_fault (db_next w)); reflexivity.
Qed.

Lemma persistent_mention_loop sid user room message k mentions :
  forall w : World, exists w1 h (b : bool),
    LoopPost (to_non_member (users w) room) w w1 h
    /\ run sid (forOf mentions (mentionBody user room message) k) w
       = run sid (if b then k else catch_chat) w1
    /\ (db_faults w = [] ->
        db_faults w1 = [] /\ b = true
        /\ mails h = map (mentionMail user room message)
                         (notified (users w) room mentions)).
Proof.
  induction mentions as [|mention mentions IH]; intros w.
  - exists w, [], true. split; [|split].
    + constructor; simpl; auto using app_nil_r.
    + reflexivity.
    + intros H; auto.
  - simpl forOf. rewrite persistent_run_mentionBody.
    destruct (db_fault w) eqn:Hf.
    { exists (db_next w), [], false. split; [|split].
      - constructor; simpl; auto using app_nil_r.
      - reflexivity.
      - intros H. rewrite (db_fault_healthy w H) in Hf. discriminate. }
    simpl notified.
    destruct (find _ (users w)) as [u|] eqn:Hu.
    2:{ destruct (IH (db_next w)) as (w1 & h & b & [] & Hrun & Hok).
        exists w1, h, b. split; [|split]; auto.
        - constructor; auto.
        - intros H. apply Hok. apply db_next_healthy, H. }
    destruct (negb (Js.includes (Room.members room) (User._id u))) eqn:Hm.
    2:{ destruct (IH (db_next w)) as (w1 & h & b & [] & Hrun & Hok).
        exists w1, h, b. split; [|split]; auto.
        - constructor; auto.
        - intros H. apply Hok. apply db_next_healthy, H. }
    remember (mail_fault (db_next w)) as f eqn:Hfault.
    destruct (IH (observe (mail_line f (Js.slice1 mention))
                    (observe (Sent (mentionMail user room message
                                                (Js.slice1 mention)) (negb f))
                             (mail_next (db_next w)))))
      as (w1 & h & b & [] & Hrun & Hok).
    exists w1,
      (Sent (mentionMail user room message (Js.slice1 mention)) (negb f)
         :: mail_line f (Js.slice1 mention) :: h), b.
    split; [|split]; auto.
    + constructor; auto.
      * rewrite lp_history0. cbn [history observe].
        rewrite <- !app_assoc. reflexivity.
      * cbn [forallb mail_or_console]. rewrite persistent_mail_line_quiet.
        exact lp_quiet0.
      * rewrite mails_Sent, persistent_mails_mail_line.
        constructor; auto. exists u. split; auto.
        apply negb_true_iff in Hm. exact Hm.
    + intros H. destruct Hok as (H1 & H2 & H3).
      { apply (db_next_healthy w H). }
      repeat split; auto.
      rewrite mails_Sent, persistent_mails_mail_line.
      cbn [users observe mail_next mail_tick snd db_next db_tick] in H3.
      rewrite H3. reflexivity.
Qed.

Lemma run_catch_chat sid (w : World) :
  run sid catch_chat w = observe error_line w.
Proof. reflexivity. Qed.

Lemma persistent_run_chatMessage sid user data now (w : World) :
  run sid (chatMessage user data now) w
  = if db_fault w then observe error_line (db_next w)
    else
      match find (room_matches (RoomById (roomId data))) (rooms w) with
      | None => db_next w
      | Some room =>
          if negb (Js.includes (Room.members room) (Claims.userId user))
          then db_next w
          else if db_fault (db_next w) || negb (Js.truthy (message data))
          then observe error_line (db_next (db_next w))
          else
            run sid
                (forOf (mentions_of (message data))
                       (mentionBody user room (message data))
                       (Perform (EmitTo (roomId data) "chatMessage"
                                   (chatPayload user
                                      (newMessage user data now)))
                                Done))
            (saved user data now w)
      end.
Proof.
  unfold chatMessage. rewrite run_RoomFindOne.
  destruct (db_fault w); [reflexivity|].
  destruct (find _ (rooms w)) as [room|]; [|reflexivity].
  destruct (negb (Js.includes _ _)); [reflexivity|].
  rewrite run_MessageSave. cbn [message_valid schema Message.text].
  destruct (db_fault (db_next w) || negb (Js.truthy (message data)));
    [reflexivity|].
  unfold mentions_of, saved, newMessage.
  destruct (Js.match_g (message data) emailMentionRegex); reflexivity.
Qed.

(** An authorised post whose [save] resolved: the loop runs on the saved
    world, then either the broadcast happens or a failed lookup sends the
    handler to its [catch]. *)
Lemma persistent_chat_accepted sid user data now (w : World) room :
  db_fault w = false ->
  find (room_matches (RoomById (roomId data))) (rooms w) = Some room ->
  Js.includes (Room.members room) (Claims.userId user) = true ->
  db_fault (db_next w) = false ->
  Js.truthy (message data) = true ->
  exists w1 h (b : bool),
    LoopPost (to_non_member (users w) room) (saved user data now w) w1 h
    /\ run sid (chatMessage user data now) w
       = (if b
          then effect sid (EmitTo (roomId data) "chatMessage"
                             (chatPayload user (newMessage user data now))) w1
          else observe error_line w1)
    /\ (db_faults w = [] ->
        db_faults w1 = [] /\ b = true
        /\ mails h = map (mentionMail user room (message data))
                         (notified (users w) room
                                   (mentions_of (message data)))).
Proof.
  intros Hf Hroom Hmem Hf2 Hvalid.
  rewrite persistent_run_chatMessage, Hf, Hroom, Hmem, Hf2, Hvalid.
  cbn [negb orb].
  destruct (persistent_mention_loop sid user room (message data)
              (Perform (EmitTo (roomId data) "chatMessage"
                          (chatPayload user (newMessage user data now))) Done)
              (mentions_of (message data)) (saved user data now w))
    as (w1 & h & b & Hpost & Hrun & Hok).
  exists w1, h, b. split; [exact Hpost|]. split.
  - rewrite Hrun. destruct b; reflexivity.
  - intros H. apply Hok. unfold saved. cbn [db_faults set_messages].
    apply db_next_healthy, db_next_healthy, H.
Qed.

(** Every way the handler can end.  Either the post is dropped (nothing
    appended, no socket touched, at most the console line of the [catch]), or
    the message is appended, the loop mails users outside the member list,
    and then the broadcast happens unless a failed lookup sent the handler
    to its [catch]. *)
Lemma persistent_chat_cases sid user data now (w : World) :
  let w' := run sid (chatMessage user data now) w in
  let m := newMessage user data now in
  users w' = users w /\ rooms w' = rooms w
  /\ exists h, history w' = history w ++ h
     /\ ((messages w' = messages w /\ sockets w' = sockets w
          /\ (h = [] \/ h = [error_line]))
         \/ exists room hl,
             find (room_matches (RoomById (roomId data))) (rooms w)
             = Some room
             /\ Js.includes (Room.members room) (Claims.userId user) = true
             /\ Js.truthy (message data) = true
             /\ messages w' = messages w ++ [m]
             /\ forallb (@mail_or_console _ _ _) hl = true
             /\ Forall (to_non_member (users w) room) (mails hl)
             /\ ((h = hl ++ [Emitted (roomId data) "chatMessage"
                                     (chatPayload user m)]
                  /\ sockets w'
                     = map (deliver (roomId data) "chatMessage"
                                    (chatPayload user m)) (sockets w))
                 \/ (h = hl ++ [error_line] /\ sockets w' = sockets w))).
Proof.
  intros w' m. subst w' m.
  destruct (db_fault w) eqn:Hf.
  { rewrite persistent_run_chatMessage, Hf. repeat split.
    exists [error_line]. split; [reflexivity|]. left. auto. }
  destruct (find (room_matches (RoomById (roomId data))) (rooms w))
    as [room|] eqn:Hroom.
  2:{ rewrite persistent_run_chatMessage, Hf, Hroom. repeat split.
      exists []. split; [symmetry; apply app_nil_r|]. left. auto. }
  destruct (Js.includes (Room.members room) (Claims.userId user)) eqn:Hmem.
  2:{ rewrite persistent_run_chatMessage, Hf, Hroom, Hmem. repeat split.
      exists []. split; [symmetry; apply app_nil_r|]. left. auto. }
  destruct (db_fault (db_next w)) eqn:Hf2.
  { rewrite persistent_run_chatMessage, Hf, Hroom, Hmem, Hf2. repeat split.
    exists [error_line]. split; [reflexivity|]. left. auto. }
  destruct (Js.truthy (message data)) eqn:Hvalid.
  2:{ rewrite persistent_run_chatMessage, Hf, Hroom, Hmem, Hf2, Hvalid.
      repeat split.
      exists [error_line]. split; [reflexivity|]. left. auto. }
  destruct (persistent_chat_accepted sid user data now w room
              Hf Hroom Hmem Hf2 Hvalid)
    as (w1 & hl & b & [Hu Hr Hm Hs Hh Hq Hmails] & Hrun & _).
  rewrite Hrun. destruct b.
  - cbn [effect users rooms messages sockets history observe set_sockets].
    rewrite Hu, Hr, Hm, Hs, Hh. repeat split.
    eexists. split; [rewrite <- app_assoc; reflexivity|].
    right. exists room, hl. repeat split; auto.
  - cbn [users rooms messages sockets history observe].
    rewrite Hu, Hr, Hm, Hs, Hh. repeat split.
    eexists. split; [rewrite <- app_assoc; reflexivity|].
    right. exists room, hl. repeat split; auto.
Qed.




End PersistentFacts.

(** ** The handlers of the ephemeral variant *)

Module EphemeralFacts.
Import Ephemeral EphemeralSpec EphemeralPosts.

Lemma ephemeral_mail_line_quiet f u : mail_or_console (mail_line f u) = true.
Proof. destruct f; reflexivity. Qed.

Lemma ephemeral_mails_mail_line f u h : mails (mail_line f u :: h) = mails h.
Proof. destruct f; reflexivity. Qed.

Lemma ephemeral_run_mentionBody sid user roomName message mention next
      (w : World) :
  run sid (mentionBody user roomName message mention next) w
  = if db_fault w then run sid catch_chat (db_next w)
    else
      match find (user_matches (UserByUsername (Js.slice1 mention))) (users w)
      with
      | Some u =>
          run sid next
              (observe (mail_line (mail_fault (db_next w)) u)
                 (observe (Sent (mentionMail user roomName message u)
                                (negb (mail_fault (db_next w))))
                          (mail_next (db_next w))))
      | None => run sid next (db_next w)
      end.
Proof.
  unfold mentionBody. rewrite run_UserFindOne.
  destruct (db_fault w); [reflexivity|].
  destruct (find _ (users w)) as [u|]; [|reflexivity].
  rewrite run_SendMail. unfold mail_line.
  destruct (mail_fault (db_next w)); reflexivity.
Qed.

Lemma ephemeral_mention_loop sid user roomName message k mentions :
  forall w : World, exists w1 h (b : bool),
    LoopPost (to_user (users w)) w w1 h
    /\ run sid (forOf mentions (mentionBody user roomName message) k) w
       = run sid (if b then k else catch_chat) w1
    /\ (db_faults w = [] ->
        db_faults w1 = [] /\ b = true
        /\ mails h = map (mentionMail user roomName message)
                         (notified (users w) mentions)).
Proof.
  induction mentions as [|mention mentions IH]; intros w.
  - exists w, [], true. split; [|split].
    + constructor; simpl; auto using app_nil_r.
    + reflexivity.
    + intros H; auto.
  - simpl forOf. rewrite ephemeral_run_mentionBody.
    destruct (db_fault w) eqn:Hf.
    { exists (db_next w), [], false. split; [|split].
      - constructor; simpl; auto using app_nil_r.
      - reflexivity.
      - intros H. rewrite (db_fault_healthy w H) in Hf. discriminate. }
    simpl notified.
    destruct (find _ (users w)) as [u|] eqn:Hu.
    2:{ destruct (IH (db_next w)) as (w1 & h & b & [] & Hrun & Hok).
        exists w1, h, b. split; [|split]; auto.
        - constructor; auto.
        - intros H. apply Hok. apply db_next_healthy, H. }
    remember (mail_fault (db_next w)) as f eqn:Hfault.
    destruct (IH (observe (mail_line f u)
                    (observe (Sent (mentionMail user roomName message u)
                                   (negb f))
                             (mail_next (db_next w)))))
      as (w1 & h & b & [] & Hrun & Hok).
    exists w1,
      (Sent (mentionMail user roomName message u) (negb f)
         :: mail_line f u :: h), b.
    split; [|split]; auto.
    + constructor; auto.
      * rewrite lp_history0. cbn [history observe].
        rewrite <- !app_assoc. reflexivity.
      * cbn [forallb mail_or_console]. rewrite ephemeral_mail_line_quiet.
        exact lp_quiet0.
      * rewrite mails_Sent, ephemeral_mails_mail_line.
        constructor; auto. exists u. split; [|reflexivity].
        apply find_some in Hu. apply Hu.
    + intros H. destruct Hok as (H1 & H2 & H3).
      { apply (db_next_healthy w H). }
      repeat split; auto.
      rewrite mails_Sent, ephemeral_mails_mail_line.
      cbn [users observe mail_next mail_tick snd db_next db_tick] in H3.
      rewrite H3. reflexivity.
Qed.

Lemma ephemeral_run_chatMessage sid user data now (w : World) :
  run sid (chatMessage user data now) w
  = if db_fault w then observe error_line (db_next w)
    else
      match find (room_matches (RoomByName (roomName data))) (rooms w) with
      | None => db_next w
      | Some room =>
          if db_fault (db_next w) || negb (Js.truthy (message data))
          then observe error_line (db_next (db_next w))
          else
            run sid
                (forOf (mentions_of (message data))
                       (mentionBody user (roomName data) (message data))
                       (Perform (EmitTo (roomName data) "chatMessage"
                                   (chatPayload user
                                      (newMessage user room data now)))
                                Done))
            (saved user room data now w)
      end.
Proof.
  unfold chatMessage. rewrite run_RoomFindOne.
  destruct (db_fault w); [reflexivity|].
  destruct (find _ (rooms w)) as [room|]; [|reflexivity].
  rewrite run_MessageSave. cbn [message_valid schema Message.text].
  destruct (db_fault (db_next w) || negb (Js.truthy (message data)));
    [reflexivity|].
  unfold mentions_of, saved, newMessage.
  destruct (Js.match_g (message data) usernameMentionRegex); reflexivity.
Qed.

Lemma ephemeral_chat_accepted sid user data now (w : World) room :
  db_fault w = false ->
  find (room_matches (RoomByName (roomName data))) (rooms w) = Some room ->
  db_fault (db_next w) = false ->
  Js.truthy (message data) = true ->
  exists w1 h (b : bool),
    LoopPost (to_user (users w)) (saved user room data now w) w1 h
    /\ run sid (chatMessage user data now) w
       = (if b
          then effect sid (EmitTo (roomName data) "chatMessage"
                             (chatPayload user
                                (newMessage user room data now))) w1
          else observe error_line w1)
    /\ (db_faults w = [] ->
        db_faults w1 = [] /\ b = true
        /\ mails h = map (mentionMail user (roomName data) (message data))
                         (notified (users w) (mentions_of (message data)))).
Proof.
  intros Hf Hroom Hf2 Hvalid.
  rewrite ephemeral_run_chatMessage, Hf, Hroom, Hf2, Hvalid. cbn [negb orb].
  destruct (ephemeral_mention_loop sid user (roomName data) (message data)
              (Perform (EmitTo (roomName data) "chatMessage"
                          (chatPayload user (newMessage user room data now)))
                       Done)
              (mentions_of (message data)) (saved user room data now w))
    as (w1 & h & b & Hpost & Hrun & Hok).
  exists w1, h, b. split; [exact Hpost|]. split.
  - rewrite Hrun. destruct b; reflexivity.
  - intros H. apply Hok. unfold saved. cbn [db_faults set_messages].
    apply db_next_healthy, db_next_healthy, H.
Qed.

(** Every way the handler can end. *)
Lemma ephemeral_chat_cases sid user data now (w : World) :
  let w' := run sid (chatMessage user data now) w in
  users w' = users w /\ rooms w' = rooms w
  /\ exists h, history w' = history w ++ h
     /\ ((messages w' = messages w /\ sockets w' = sockets w
          /\ (h = [] \/ h = [error_line]))
         \/ exists room hl,
             find (room_matches (RoomByName (roomName data))) (rooms w)
             = Some room
             /\ Js.truthy (message data) = true
             /\ messages w' = messages w ++ [newMessage user room data now]
             /\ forallb (@mail_or_console _ _ _) hl = true
             /\ Forall (to_user (users w)) (mails hl)
             /\ ((h = hl ++ [Emitted (roomName data) "chatMessage"
                                     (chatPayload user
                                        (newMessage user room data now))]
                  /\ sockets w'
                     = map (deliver (roomName data) "chatMessage"
                                    (chatPayload user
                                       (newMessage user room data now)))
                           (sockets w))
                 \/ (h = hl ++ [error_line] /\ sockets w' = sockets w))).
Proof.
  intros w'. subst w'.
  destruct (db_fault w) eqn:Hf.
  { rewrite ephemeral_run_chatMessage, Hf. repeat split.
    exists [error_line]. split; [reflexivity|]. left. auto. }
  destruct (find (room_matches (RoomByName (roomName data))) (rooms w))
    as [room|] eqn:Hroom.
  2:{ rewrite ephemeral_run_chatMessage, Hf, Hroom. repeat split.
      exists []. split; [symmetry; apply app_nil_r|]. left. auto. }
  destruct (db_fault (db_next w)) eqn:Hf2.
  { rewrite ephemeral_run_chatMessage, Hf, Hroom, Hf2. repeat split.
    exists [error_line]. split; [reflexivity|]. left. auto. }
  destruct (Js.truthy (message data)) eqn:Hvalid.
  2:{ rewrite ephemeral_run_chatMessage, Hf, Hroom, Hf2, Hvalid. repeat split.
      exists [error_line]. split; [reflexivity|]. left. auto. }
  destruct (ephemeral_chat_accepted sid user data now w room
              Hf Hroom Hf2 Hvalid)
    as (w1 & hl & b & [Hu Hr Hm Hs Hh Hq Hmails] & Hrun & _).
  rewrite Hrun. destruct b.
  - cbn [effect users rooms messages sockets history observe set_sockets].
    rewrite Hu, Hr, Hm, Hs, Hh. repeat split.
    eexists. split; [rewrite <- app_assoc; reflexivity|].
    right. exists room, hl. repeat split; auto.
  - cbn [users rooms messages sockets history observe].
    rewrite Hu, Hr, Hm, Hs, Hh. repeat split.
    eexists. split; [rewrite <- app_assoc; reflexivity|].
    right. exists room, hl. repeat split; auto.
Qed.



End EphemeralFacts.

(** * The claims *)

(** ** C1: a post by a non-member *)

(** C1, as stated, fails: bob is not in the member list of "general"; his
    post is dropped, and no acknowledgement or error of any kind reaches his
    socket, where the claim has NotAMember surfaced to the caller.  The
    [joinRoom] handler, on the same world, does answer with the error. *)
Lemma C1_counterexample :
  let w' := run 2 (Persistent.on_event (Connected Demo.bob)
                     (Persistent.ChatMessage (demo_post "hi") 5)) Demo.w0 in
  Js.includes (Persistent.Room.members Demo.general)
              (Claims.userId Demo.bob) = false
  /\ ~ (exists o, In o (history w') /\ reaches 2 o = true)
  /\ history (run 2 (Persistent.on_event (Connected Demo.bob)
                       (Persistent.JoinRoom "r1" true)) Demo.w0)
     = [Acked 2 (AckError "You are not a member of this room")].
Proof.
  cbv zeta. split; [reflexivity|]. split; [|reflexivity].
  intros (o & Hin & _). vm_compute in Hin. exact Hin.
Qed.

(** C1, amended: a post into a room of the persistent variant by a user
    outside the room's member list is checked with the test [joinRoom]
    uses and is dropped: no message is appended, nothing is broadcast, no
    room changes.  The handler returns silently; the only trace is the
    console line of the [catch] when the lookup itself rejects.  [joinRoom]
    for the same user leaves the sockets alone and acknowledges with the
    not-a-member error. *)
Theorem C1_non_member_post_is_dropped
        sid user data now (w : Persistent.World) room :
  find (room_matches (RoomById (Persistent.roomId data))) (rooms w)
  = Some room ->
  Js.includes (Persistent.Room.members room) (Claims.userId user) = false ->
  let w' := run sid (Persistent.chatMessage user data now) w in
  let w'' := run sid (Persistent.joinRoom user (Persistent.roomId data) true)
                 w in
  messages w' = messages w
  /\ sockets w' = sockets w
  /\ rooms w' = rooms w
  /\ history w'
     = history w ++ (if db_fault w then [PersistentSpec.error_line] else [])
  /\ sockets w'' = sockets w
  /\ history w''
     = history w
       ++ (if db_fault w
           then [Logged true "Failed to join room:";
                 Acked sid (AckError "Failed to join room")]
           else [Acked sid (AckError "You are not a member of this room")]).
Proof.
  intros Hroom Hmem w' w''. subst w' w''.
  rewrite PersistentFacts.persistent_run_chatMessage.
  unfold Persistent.joinRoom. rewrite run_RoomFindOne.
  destruct (db_fault w).
  - repeat split; try reflexivity.
    cbn. rewrite <- app_assoc. reflexivity.
  - rewrite Hroom, Hmem. cbn [negb].
    repeat split; try reflexivity. cbn. symmetry. apply app_nil_r.
Qed.

Lemma C1_witness :
  find (room_matches (RoomById (Persistent.roomId (demo_post "hi"))))
       (rooms Demo.w0) = Some Demo.general
  /\ Js.includes (Persistent.Room.members Demo.general)
                 (Claims.userId Demo.bob) = false
  /\ messages (run 2 (Persistent.chatMessage Demo.bob (demo_post "hi") 5)
                   Demo.w0) = messages Demo.w0.
Proof.
  split; [reflexivity|]. split; [reflexivity|].
  apply (C1_non_member_post_is_dropped 2 Demo.bob (demo_post "hi") 5
           Demo.w0 Demo.general); reflexivity.
Defined.

(** ** C2: order of broadcasts and order of appends *)




(** ** C3: mentions of room members *)

(** C3, as stated, fails in the ephemeral variant: bob's socket has joined
    "lobby", so he is a member of the room in the only sense that variant
    has; alice's post mentioning him still sends him a mail. *)
Lemma C3_counterexample :
  let w1 := run 2 (Ephemeral.on_event (Connected Demo.bob)
                     (Ephemeral.JoinRoom "lobby" true)) Demo.e0 in
  let w2 := run 1 (Ephemeral.on_event (Connected Demo.alice)
                     (Ephemeral.ChatMessage (Demo.lobby_post "hello @bob") 7))
                w1 in
  present "b2" "lobby" w1 = true
  /\ map Mail.to (mails (history w2)) = ["bob@example.com"].
Proof. split; reflexivity. Qed.

(** C3, amended: in the persistent variant every notification a post
    triggers is addressed to a user who is not in the member list of the
    room the handler read, so a mention that resolves to a member triggers
    none.  (The ephemeral variant consults no membership at all.) *)
Theorem C3_member_mention_sends_nothing
        sid user data now (w : Persistent.World) :
  let w' := run sid (Persistent.chatMessage user data now) w in
  exists h,
    history w' = history w ++ h
    /\ forall mail, In mail (mails h) ->
       exists room u,
         find (room_matches (RoomById (Persistent.roomId data))) (rooms w)
         = Some room
         /\ find (user_matches (UserByEmail (Mail.to mail))) (users w)
            = Some u
         /\ Js.includes (Persistent.Room.members room) (User._id u) = false.
Proof.
  intros w'.
  destruct (PersistentFacts.persistent_chat_cases sid user data now w)
    as (_ & _ & h & Hh & Hcases).
  exists h. split; [exact Hh|]. intros mail Hin.
  destruct Hcases as [(_ & _ & [-> | ->]) | (room & hl & Hroom & _ & _ & _ & _
                                            & Hmails & Hend)].
  - destruct Hin.
  - destruct Hin.
  - assert (Hin' : In mail (mails hl)).
    { destruct Hend as [[-> _] | [-> _]]; rewrite mails_app in Hin;
        simpl in Hin; rewrite app_nil_r in Hin; exact Hin. }
    rewrite Forall_forall in Hmails.
    destruct (Hmails mail Hin') as (u & Hu & Hnot).
    exists room, u. auto.
Qed.

(** ** C4: the same identity mentioned more than once *)

(** C4, as stated, fails: alice mentions bob, who is not a member of
    "general", twice in one message, and two mails go to bob. *)
Lemma C4_counterexample :
  let w' := run 1 (Persistent.on_event (Connected Demo.alice)
                     (Persistent.ChatMessage
                        (demo_post "ping @bob@example.com @bob@example.com")
                        5)) Demo.w0 in
  map Mail.to (mails (history w')) = ["bob@example.com"; "bob@example.com"]
  /\ ~ NoDup (map Mail.to (mails (history w'))).
Proof.
  split; [reflexivity|]. intros H. vm_compute in H.
  inversion H as [|x l Hnotin _]. apply Hnotin. left. reflexivity.
Qed.

(** C4, amended: there is no de-duplication.  For a post that is accepted
    while the database answers, the handler sends one notification per
    occurrence of a mention token that resolves: in the persistent variant
    per occurrence whose address belongs to a user outside the member list,
    in the ephemeral variant per occurrence naming a user.  An identity
    mentioned n times is notified n times. *)
Theorem C4_one_notification_per_occurrence :
  (forall sid user data now (w : Persistent.World) room,
      db_faults w = [] ->
      find (room_matches (RoomById (Persistent.roomId data))) (rooms w)
      = Some room ->
      Js.includes (Persistent.Room.members room) (Claims.userId user) = true ->
      Js.truthy (Persistent.message data) = true ->
      exists h,
        history (run sid (Persistent.chatMessage user data now) w)
        = history w ++ h
        /\ map Mail.to (mails h)
           = PersistentSpec.notified
               (users w) room
               (PersistentSpec.mentions_of (Persistent.message data)))
  /\ (forall sid user data now (w : Ephemeral.World) room,
         db_faults w = [] ->
         find (room_matches (RoomByName (Ephemeral.roomName data))) (rooms w)
         = Some room ->
         Js.truthy (Ephemeral.message data) = true ->
         exists h,
           history (run sid (Ephemeral.chatMessage user data now) w)
           = history w ++ h
           /\ map Mail.to (mails h)
              = map User.email
                    (EphemeralSpec.notified
                       (users w)
                       (EphemeralSpec.mentions_of (Ephemeral.message data)))).
Proof.
  split.
  - intros sid user data now w room Hdb Hroom Hmem Hvalid.
    destruct (PersistentFacts.persistent_chat_accepted sid user data now w room)
      as (w1 & hl & b & [_ _ _ _ Hh _ _] & Hrun & Hok); auto.
    { apply db_fault_healthy, Hdb. }
    { apply db_fault_healthy, db_next_healthy, Hdb. }
    destruct (Hok Hdb) as (_ & -> & Hmails).
    rewrite Hrun. eexists. split.
    + cbn [effect history observe set_sockets]. rewrite Hh.
      cbn [PersistentSpec.saved history set_messages db_next db_tick snd].
      rewrite <- app_assoc. reflexivity.
    + rewrite mails_app, app_nil_r, Hmails, map_map. apply map_id.
  - intros sid user data now w room Hdb Hroom Hvalid.
    destruct (EphemeralFacts.ephemeral_chat_accepted sid user data now w room)
      as (w1 & hl & b & [_ _ _ _ Hh _ _] & Hrun & Hok); auto.
    { apply db_fault_healthy, Hdb. }
    { apply db_fault_healthy, db_next_healthy, Hdb. }
    destruct (Hok Hdb) as (_ & -> & Hmails).
    rewrite Hrun. eexists. split.
    + cbn [effect history observe set_sockets]. rewrite Hh.
      cbn [EphemeralSpec.saved history set_messages db_next db_tick snd].
      rewrite <- app_assoc. reflexivity.
    + rewrite mails_app, app_nil_r, Hmails, map_map. reflexivity.
Qed.

Lemma C4_witness :
  db_faults Demo.w0 = []
  /\ find (room_matches
             (RoomById (Persistent.roomId (demo_post "yo @bob@example.com"))))
          (rooms Demo.w0) = Some Demo.general
  /\ Js.includes (Persistent.Room.members Demo.general)
                 (Claims.userId Demo.alice) = true
  /\ Js.truthy (Persistent.message (demo_post "yo @bob@example.com")) = true
  /\ exists h,
      history (run 1 (Persistent.chatMessage
                        Demo.alice (demo_post "yo @bob@example.com") 5)
                   Demo.w0)
      = history Demo.w0 ++ h
      /\ map Mail.to (mails h)
         = PersistentSpec.notified
             (users Demo.w0) Demo.general
             (PersistentSpec.mentions_of
                (Persistent.message (demo_post "yo @bob@example.com"))).
Proof.
  repeat (split; [reflexivity|]).
  apply (proj1 C4_one_notification_per_occurrence 1 Demo.alice
               (demo_post "yo @bob@example.com") 5 Demo.w0 Demo.general);
    reflexivity.
Defined.

(** ** C5: the save fails *)

(** C5, as stated, fails: alice is a member, her [save] rejects; the
    message is neither appended nor broadcast, but nothing at all is sent to
    her connection: the failure only reaches the server console. *)
Lemma C5_counterexample :
  let w' := run 1 (Persistent.on_event (Connected Demo.alice)
                     (Persistent.ChatMessage (demo_post "hi") 5))
                w0_save_fails in
  history w' = [Logged true "Error sending message:"]
  /\ ~ (exists o, In o (history w') /\ reaches 1 o = true)
  /\ received_by 1 w' = [].
Proof.
  cbv zeta. split; [reflexivity|]. split; [|reflexivity].
  intros (o & Hin & Hr). vm_compute in Hin.
  destruct Hin as [<- | []]. discriminate Hr.
Qed.

(** C5, amended: when the author is authorised and the [save] rejects, the
    message is not appended and no socket receives anything; the failure is
    written to the server console and nothing is sent to the calling
    connection.  In every run, a [chatMessage] broadcast is only issued for
    the message the same handler has appended.  Both hold in the persistent
    and in the ephemeral variant. *)
Theorem C5_failed_save_is_not_broadcast :
  (forall sid user data now (w : Persistent.World) room,
      db_fault w = false ->
      find (room_matches (RoomById (Persistent.roomId data))) (rooms w)
      = Some room ->
      Js.includes (Persistent.Room.members room) (Claims.userId user) = true ->
      db_fault (db_next w) || negb (Js.truthy (Persistent.message data))
      = true ->
      let w' := run sid (Persistent.chatMessage user data now) w in
      messages w' = messages w /\ sockets w' = sockets w
      /\ history w' = history w ++ [Logged true "Error sending message:"])
  /\ (forall sid user data now (w : Persistent.World),
         let w' := run sid (Persistent.chatMessage user data now) w in
         exists h, history w' = history w ++ h
                   /\ forall room event p,
                     In (Emitted room event p) h ->
                     let m := PersistentSpec.newMessage user data now in
                     messages w' = messages w ++ [m]
                     /\ p = Persistent.chatPayload user m)
  /\ (forall sid user data now (w : Ephemeral.World) room,
         db_fault w = false ->
         find (room_matches (RoomByName (Ephemeral.roomName data))) (rooms w)
         = Some room ->
         db_fault (db_next w) || negb (Js.truthy (Ephemeral.message data))
         = true ->
         let w' := run sid (Ephemeral.chatMessage user data now) w in
         messages w' = messages w /\ sockets w' = sockets w
         /\ history w' = history w ++ [Logged true "Error sending message:"])
  /\ (forall sid user data now (w : Ephemeral.World),
         let w' := run sid (Ephemeral.chatMessage user data now) w in
         exists h, history w' = history w ++ h
                   /\ forall room event p,
                     In (Emitted room event p) h ->
                     exists r,
                       let m := EphemeralSpec.newMessage user r data now in
                       messages w' = messages w ++ [m]
                       /\ p = Ephemeral.chatPayload user m).
Proof.
  split; [|split; [|split]].
  - intros sid user data now w room Hf Hroom Hmem Hsave w'. subst w'.
    rewrite PersistentFacts.persistent_run_chatMessage, Hf, Hroom, Hmem, Hsave.
    repeat split.
  - intros sid user data now w w'.
    destruct (PersistentFacts.persistent_chat_cases sid user data now w)
      as (_ & _ & h & Hh & Hcases).
    exists h. split; [exact Hh|]. intros room event p Hin m.
    destruct Hcases as [(_ & _ & [-> | ->])
                       | (r & hl & _ & _ & _ & Hm & Hq & _ & Hend)].
    + destruct Hin.
    + destruct Hin as [H | []]. discriminate H.
    + assert (Hnot : ~ In (Emitted room event p) hl).
      { intros Hin'. rewrite forallb_forall in Hq.
        apply Hq in Hin'. discriminate Hin'. }
      destruct Hend as [[-> _] | [-> _]]; apply in_app_or in Hin;
        destruct Hin as [Hin | [Hin | []]]; try contradiction;
        try discriminate Hin.
      injection Hin as _ _ <-. split; [exact Hm | reflexivity].
  - intros sid user data now w room Hf Hroom Hsave w'. subst w'.
    rewrite EphemeralFacts.ephemeral_run_chatMessage, Hf, Hroom, Hsave.
    repeat split.
  - intros sid user data now w w'.
    destruct (EphemeralFacts.ephemeral_chat_cases sid user data now w)
      as (_ & _ & h & Hh & Hcases).
    exists h. split; [exact Hh|]. intros room event p Hin.
    destruct Hcases as [(_ & _ & [-> | ->])
                       | (r & hl & _ & _ & Hm & Hq & _ & Hend)].
    + destruct Hin.
    + destruct Hin as [H | []]. discriminate H.
    + assert (Hnot : ~ In (Emitted room event p) hl).
      { intros Hin'. rewrite forallb_forall in Hq.
        apply Hq in Hin'. discriminate Hin'. }
      exists r.
      destruct Hend as [[-> _] | [-> _]]; apply in_app_or in Hin;
        destruct Hin as [Hin | [Hin | []]]; try contradiction;
        try discriminate Hin.
      injection Hin as _ _ <-. split; [exact Hm | reflexivity].
Qed.

Lemma C5_witness :
  db_fault w0_save_fails = false
  /\ find (room_matches (RoomById (Persistent.roomId (demo_post "hi"))))
          (rooms w0_save_fails) = Some Demo.general
  /\ Js.includes (Persistent.Room.members Demo.general)
                 (Claims.userId Demo.alice) = true
  /\ db_fault (db_next w0_save_fails)
     || negb (Js.truthy (Persistent.message (demo_post "hi"))) = true
  /\ sockets (run 1 (Persistent.chatMessage Demo.alice (demo_post "hi") 5)
                  w0_save_fails)
     = sockets w0_save_fails.
Proof.
  repeat (split; [reflexivity|]).
  apply (proj1 C5_failed_save_is_not_broadcast 1 Demo.alice (demo_post "hi") 5
               w0_save_fails Demo.general); reflexivity.
Defined.

(** ** C6: notification and broadcast *)

(** C6, as stated, fails: after the lookup of the room, the [save] and the
    lookup of bob have settled, alice's handler is suspended on the delivery
    of the mail to bob.  The message is in the log, and carol, who is in the
    room, has received nothing: the broadcast waits for the delivery, and
    happens in the turn in which the delivery settles. *)
Lemma C6_counterexample :
  let l := turns [Arrive 1 alice_mentions_bob; Settle 0; Settle 0; Settle 0]
                 (idle Demo.w0) in
  map Message.text (messages (world l)) = ["hi @bob@example.com"]
  /\ map (fun p => option_map Mail.to (awaited_mail (snd p))) (pending l)
     = [Some "bob@example.com"]
  /\ in_room 3 "r1" (world l) = true
  /\ received_by 3 (world l) = []
  /\ map (fun e => Payload.text (snd e))
         (received_by 3 (world (turn (Settle 0) l)))
     = ["hi @bob@example.com"].
Proof. repeat split; reflexivity. Qed.

(** C6, amended: the notifications are awaited inline.  For a post that is
    accepted while the database answers, everything the handler emits
    before the broadcast is mail attempts and console lines, one attempt
    per resolving mention whatever the outcome of the earlier deliveries,
    and the broadcast comes last, after every attempt has settled.  A failed
    delivery is caught and logged: nothing is sent to the poster, and the
    later mentions and the broadcast still happen. *)
Theorem C6_broadcast_follows_notifications :
  (forall sid user data now (w : Persistent.World) room,
      db_faults w = [] ->
      find (room_matches (RoomById (Persistent.roomId data))) (rooms w)
      = Some room ->
      Js.includes (Persistent.Room.members room) (Claims.userId user) = true ->
      Js.truthy (Persistent.message data) = true ->
      let w' := run sid (Persistent.chatMessage user data now) w in
      let p := Persistent.chatPayload
                 user (PersistentSpec.newMessage user data now) in
      exists hl,
        history w'
        = history w ++ hl ++ [Emitted (Persistent.roomId data) "chatMessage" p]
        /\ forallb (@mail_or_console _ _ _) hl = true
        /\ mails hl
           = map (Persistent.mentionMail user room (Persistent.message data))
                 (PersistentSpec.notified
                    (users w) room
                    (PersistentSpec.mentions_of (Persistent.message data)))
        /\ sockets w'
           = map (deliver (Persistent.roomId data) "chatMessage" p)
                 (sockets w))
  /\ (forall sid user data now (w : Ephemeral.World) room,
         db_faults w = [] ->
         find (room_matches (RoomByName (Ephemeral.roomName data))) (rooms w)
         = Some room ->
         Js.truthy (Ephemeral.message data) = true ->
         let w' := run sid (Ephemeral.chatMessage user data now) w in
         let p := Ephemeral.chatPayload
                    user (EphemeralSpec.newMessage user room data now) in
         exists hl,
           history w'
           = history w
             ++ hl ++ [Emitted (Ephemeral.roomName data) "chatMessage" p]
           /\ forallb (@mail_or_console _ _ _) hl = true
           /\ mails hl
              = map (Ephemeral.mentionMail user (Ephemeral.roomName data)
                                           (Ephemeral.message data))
                    (EphemeralSpec.notified
                       (users w)
                       (EphemeralSpec.mentions_of (Ephemeral.message data)))
           /\ sockets w'
              = map (deliver (Ephemeral.roomName data) "chatMessage" p)
                    (sockets w)).
Proof.
  split.
  - intros sid user data now w room Hdb Hroom Hmem Hvalid w' p. subst w' p.
    destruct (PersistentFacts.persistent_chat_accepted sid user data now w room)
      as (w1 & hl & b & [_ _ _ Hs Hh Hq _] & Hrun & Hok); auto.
    { apply db_fault_healthy, Hdb. }
    { apply db_fault_healthy, db_next_healthy, Hdb. }
    destruct (Hok Hdb) as (_ & -> & Hmails).
    rewrite Hrun. exists hl. repeat split; auto.
    + cbn [effect history observe set_sockets]. rewrite Hh.
      cbn [PersistentSpec.saved history set_messages db_next db_tick snd].
      rewrite <- app_assoc. reflexivity.
    + cbn [effect sockets observe set_sockets]. rewrite Hs. reflexivity.
  - intros sid user data now w room Hdb Hroom Hvalid w' p. subst w' p.
    destruct (EphemeralFacts.ephemeral_chat_accepted sid user data now w room)
      as (w1 & hl & b & [_ _ _ Hs Hh Hq _] & Hrun & Hok); auto.
    { apply db_fault_healthy, Hdb. }
    { apply db_fault_healthy, db_next_healthy, Hdb. }
    destruct (Hok Hdb) as (_ & -> & Hmails).
    rewrite Hrun. exists hl. repeat split; auto.
    + cbn [effect history observe set_sockets]. rewrite Hh.
      cbn [EphemeralSpec.saved history set_messages db_next db_tick snd].
      rewrite <- app_assoc. reflexivity.
    + cbn [effect sockets observe set_sockets]. rewrite Hs. reflexivity.
Qed.

Lemma C6_witness :
  db_faults w0_mail_fails = []
  /\ find (room_matches
             (RoomById (Persistent.roomId
                          (demo_post "hi @bob@example.com @bob@example.com"))))
          (rooms w0_mail_fails) = Some Demo.general
  /\ Js.includes (Persistent.Room.members Demo.general)
                 (Claims.userId Demo.alice) = true
  /\ Js.truthy (Persistent.message
                  (demo_post "hi @bob@example.com @bob@example.com")) = true
  /\ exists hl,
      history (run 1 (Persistent.chatMessage
                        Demo.alice
                        (demo_post "hi @bob@example.com @bob@example.com") 5)
                   w0_mail_fails)
      = history w0_mail_fails
        ++ hl ++ [Emitted "r1" "chatMessage"
                    (Persistent.chatPayload
                       Demo.alice
                       (PersistentSpec.newMessage
                          Demo.alice
                          (demo_post "hi @bob@example.com @bob@example.com")
                          5))]
      /\ map Mail.to (mails hl) = ["bob@example.com"; "bob@example.com"].
Proof.
  repeat (split; [reflexivity|]).
  destruct (proj1 C6_broadcast_follows_notifications 1 Demo.alice
                  (demo_post "hi @bob@example.com @bob@example.com") 5
                  w0_mail_fails Demo.general)
    as (hl & Hh & _ & Hm & _); try reflexivity.
  exists hl. split; [exact Hh|]. rewrite Hm. reflexivity.
Defined.

(** ** C7: who may delete a room *)

(** C7, as stated, fails in the variant with durable members, whose rooms
    have no owner: alice creates "general" and is its only member, bob joins
    through the REST route, and bob's DELETE succeeds and removes the room. *)
Lemma C7_counterexample :
  let w1 := run 0 (Persistent.createRoom Demo.jwt_verify
                     (Some "Bearer token-alice") (Some "general") "r9")
                w_no_room in
  let w2 := run 0 (Persistent.joinRoomRest Demo.jwt_verify
                     (Some "Bearer token-bob") "r9") w1 in
  let w3 := run 0 (Persistent.deleteRoom Demo.jwt_verify
                     (Some "Bearer token-bob") "r9") w2 in
  map Persistent.Room.members (rooms w1) = [[Claims.userId Demo.alice]]
  /\ Claims.userId Demo.bob <> Claims.userId Demo.alice
  /\ rooms w3 = []
  /\ last (history w3) (Responded 0 (Msg EmptyString))
     = Responded 200 (Msg "Room deleted").
Proof. repeat split; try reflexivity. discriminate. Qed.

(** C7, amended: for a delete call by an authenticated requester on an
    existing room, while the database answers: in the variant whose rooms
    carry an owner, the call is answered 403 and leaves the rooms alone
    whenever the requester is not the owner, and it is answered 200 and
    removes the room record exactly when the requester is the owner; in the
    variant whose rooms carry a member list there is no owner, and the same
    holds with "is in the member list" in place of "is the owner". *)
Theorem C7_delete_authorisation :
  (forall jwt_verify header token user sid roomName (w : Ephemeral.World) room,
      nth_error (Js.split_space header) 1 = Some token ->
      Js.truthy token = true ->
      jwt_verify token = Some user ->
      db_faults w = [] ->
      find (room_matches (RoomByName roomName)) (rooms w) = Some room ->
      let w' := run sid (Ephemeral.deleteRoom jwt_verify (Some header)
                                              roomName) w in
      if String.eqb (Ephemeral.Room.owner room) (Claims.userId user)
      then history w' = history w ++ [Responded 200 (Msg "Room deleted")]
           /\ rooms w'
              = filter (fun r => negb (String.eqb (Ephemeral.Room._id r)
                                                  (Ephemeral.Room._id room)))
                       (rooms w)
      else history w'
           = history w
             ++ [Responded 403 (Msg "You are not the owner of this room")]
           /\ rooms w' = rooms w)
  /\ (forall jwt_verify header token user sid roomId (w : Persistent.World)
             room,
         nth_error (Js.split_space header) 1 = Some token ->
         Js.truthy token = true ->
         jwt_verify token = Some user ->
         db_faults w = [] ->
         find (room_matches (RoomById roomId)) (rooms w) = Some room ->
         let w' := run sid (Persistent.deleteRoom jwt_verify (Some header)
                                                  roomId) w in
         if Js.includes (Persistent.Room.members room) (Claims.userId user)
         then history w' = history w ++ [Responded 200 (Msg "Room deleted")]
              /\ rooms w'
                 = filter (fun r => negb (String.eqb (Persistent.Room._id r)
                                                     roomId))
                          (rooms w)
         else history w'
              = history w
                ++ [Responded 403 (Msg "You are not a member of this room")]
              /\ rooms w' = rooms w).
Proof.
  split.
  - intros jwt_verify header token user sid roomName w room
           Htok Htruthy Hverify Hdb Hroom w'. subst w'.
    unfold Ephemeral.deleteRoom.
    rewrite (authMiddleware_passes jwt_verify header token user _
               Htok Htruthy Hverify).
    rewrite run_RoomFindOne, (db_fault_healthy w Hdb), Hroom.
    destruct (String.eqb (Ephemeral.Room.owner room) (Claims.userId user)).
    + cbn [negb]. rewrite run_RoomFindByIdAndDelete.
      rewrite (db_fault_healthy _ (db_next_healthy w Hdb)).
      split; reflexivity.
    + cbn [negb]. split; reflexivity.
  - intros jwt_verify header token user sid roomId w room
           Htok Htruthy Hverify Hdb Hroom w'. subst w'.
    unfold Persistent.deleteRoom.
    rewrite (authMiddleware_passes jwt_verify header token user _
               Htok Htruthy Hverify).
    rewrite run_RoomFindOne, (db_fault_healthy w Hdb), Hroom.
    destruct (Js.includes (Persistent.Room.members room)
                          (Claims.userId user)).
    + cbn [negb]. rewrite run_RoomFindByIdAndDelete.
      rewrite (db_fault_healthy _ (db_next_healthy w Hdb)).
      split; reflexivity.
    + cbn [negb]. split; reflexivity.
Qed.

Lemma C7_witness :
  nth_error (Js.split_space "Bearer token-bob") 1 = Some "token-bob"
  /\ Js.truthy "token-bob" = true
  /\ Demo.jwt_verify "token-bob" = Some Demo.bob
  /\ db_faults Demo.e0 = []
  /\ find (room_matches (RoomByName "lobby")) (rooms Demo.e0)
     = Some Demo.lobby
  /\ String.eqb (Ephemeral.Room.owner Demo.lobby) (Claims.userId Demo.bob)
     = false
  /\ rooms (run 0 (Ephemeral.deleteRoom Demo.jwt_verify
                     (Some "Bearer token-bob") "lobby") Demo.e0)
     = rooms Demo.e0.
Proof.
  repeat (split; [reflexivity|]).
  apply (proj1 C7_delete_authorisation Demo.jwt_verify "Bearer token-bob"
               "token-bob" Demo.bob 0 "lobby" Demo.e0 Demo.lobby);
    reflexivity.
Defined.

(** ** C8: events on unauthenticated connections *)




(** ** C9: the author of a message in the socket server of
    src/server/src/socket.js *)



(** ** C10: reading the history of a room in the ephemeral variant *)

(** C10: for every requester whose token verifies and every existing room,
    while the database answers, [GET /rooms/:roomName/messages] answers 200
    with all the messages of the room, whoever the requester is; and
    whatever the request and the state of the database, the route never
    answers 403. *)
Theorem C10_history_is_open_to_every_authenticated_user :
  (forall jwt_verify header token user sid roomName (w : Ephemeral.World) room,
      nth_error (Js.split_space header) 1 = Some token ->
      Js.truthy token = true ->
      jwt_verify token = Some user ->
      db_faults w = [] ->
      find (room_matches (RoomByName roomName)) (rooms w) = Some room ->
      history (run sid (Ephemeral.getMessages jwt_verify (Some header)
                                              roomName) w)
      = history w
        ++ [Responded 200
              (Docs (map (populate (users w))
                         (filter (fun m => String.eqb (Message.room m)
                                                      (Ephemeral.Room._id room))
                                 (messages w))))])
  /\ (forall jwt_verify authorization sid roomName (w : Ephemeral.World),
         exists h,
           history (run sid (Ephemeral.getMessages jwt_verify authorization
                                                   roomName) w)
           = history w ++ h
           /\ forall body, ~ In (Responded 403 body) h).
Proof.
  split.
  - intros jwt_verify header token user sid roomName w room
           Htok Htruthy Hverify Hdb Hroom.
    unfold Ephemeral.getMessages.
    rewrite (authMiddleware_passes jwt_verify header token user _
               Htok Htruthy Hverify).
    rewrite run_RoomFindOne, (db_fault_healthy w Hdb), Hroom.
    rewrite run_MessageFindPopulate.
    rewrite (db_fault_healthy _ (db_next_healthy w Hdb)). reflexivity.
  - intros jwt_verify authorization sid roomName w.
    unfold Ephemeral.getMessages, authMiddleware.
    assert (H401 : forall text,
               exists h,
                 history (run sid (Perform (Respond 401 (Msg text)) Done) w)
                 = history w ++ h
                 /\ forall body,
                   ~ In (@Responded Ephemeral.Room.t Message.t Payload.t
                                    403 body) h).
    { intros text. eexists. split; [reflexivity|].
      intros body [H | []]. discriminate H. }
    destruct authorization as [header|]; [|apply H401].
    destruct (nth_error (Js.split_space header) 1) as [token|]; [|apply H401].
    destruct (Js.truthy token); [|apply H401].
    destruct (jwt_verify token) as [user|]; [|apply H401].
    rewrite run_RoomFindOne.
    destruct (db_fault w).
    { eexists. split; [cbn; rewrite <- app_assoc; reflexivity|].
      intros body [H | [H | []]]; discriminate H. }
    destruct (find _ (rooms w)) as [room|].
    2:{ eexists. split; [reflexivity|].
        intros body [H | []]. discriminate H. }
    rewrite run_MessageFindPopulate.
    destruct (db_fault (db_next w)).
    { eexists. split; [cbn; rewrite <- app_assoc; reflexivity|].
      intros body [H | [H | []]]; discriminate H. }
    eexists. split; [reflexivity|].
    intros body [H | []]. discriminate H.
Qed.

Lemma C10_witness :
  nth_error (Js.split_space "Bearer token-carol") 1 = Some "token-carol"
  /\ Js.truthy "token-carol" = true
  /\ Demo.jwt_verify "token-carol" = Some Demo.carol
  /\ db_faults Demo.e0 = []
  /\ find (room_matches (RoomByName "lobby")) (rooms Demo.e0)
     = Some Demo.lobby
  /\ history (run 0 (Ephemeral.getMessages Demo.jwt_verify
                       (Some "Bearer token-carol") "lobby") Demo.e0)
     = history Demo.e0
       ++ [Responded 200
             (Docs (map (populate (users Demo.e0))
                        (filter (fun m => String.eqb (Message.room m)
                                                     (Ephemeral.Room._id
                                                        Demo.lobby))
                                (messages Demo.e0))))].
Proof.
  repeat (split; [reflexivity|]).
  apply (proj1 C10_history_is_open_to_every_authenticated_user
               Demo.jwt_verify "Bearer token-carol" "token-carol" Demo.carol
               0 "lobby" Demo.e0 Demo.lobby); reflexivity.
Defined.

(** * Further properties of the code *)

(** ** What the mention patterns match *)

Section ScanFacts.

Import Js.



(** What the backtracking over a greedy repetition returns: some count
    between the bounds, followed by a match of the rest. *)
Lemma try_counts_Some k s lo n r :
  lo <= n ->
  try_counts k s lo n = Some r ->
  exists m l, r = m + l /\ lo <= m /\ m <= n /\ k (skipn m s) = Some l.
Proof.
  induction n as [|n IH]; intros Hlo; cbn [try_counts].
  - destruct (k (skipn 0 s)) as [l|] eqn:Hk; [|discriminate].
    intros [= <-]. exists 0, l. repeat split; auto.
  - destruct (k (skipn (S n) s)) as [l|] eqn:Hk.
    + intros [= <-]. exists (S n), l. repeat split; auto.
    + destruct (Nat.ltb n lo) eqn:Hlt; [discriminate|].
      apply Nat.ltb_ge in Hlt. intros Hr.
      destruct (IH Hlt Hr) as (m & l & -> & H1 & H2 & H3).
      exists m, l. repeat split; auto.
Qed.


(** Every element of the result of the scan occurs in the text. *)
Lemma scan_substrings re fuel :
  forall s, Forall (fun m => exists pre post, s = pre ++ m ++ post)
                   (scan fuel re s).
Proof.
  induction fuel as [|fuel IH]; intros s; simpl; [constructor|].
  assert (Htail : forall c s',
             s = c :: s' ->
             Forall (fun m => exists pre post, s = pre ++ m ++ post)
                    (scan fuel re s')).
  { intros c s' ->. eapply Forall_impl; [|apply IH].
    intros m (pre & post & ->). exists (c :: pre), post. reflexivity. }
  destruct (match_here re s) as [[|len]|] eqn:Hm.
  - constructor; [exists [], s; reflexivity|].
    destruct s as [|c s']; [constructor | apply (Htail c s' eq_refl)].
  - constructor.
    + exists [], (skipn (S len) s).
      exact (eq_sym (firstn_skipn (S len) s)).
    + eapply Forall_impl; [|apply IH].
      intros m (pre & post & Heq).
      exists (firstn (S len) s ++ pre), post.
      rewrite <- app_assoc, <- Heq.
      exact (eq_sym (firstn_skipn (S len) s)).
  - destruct s as [|c s']; [constructor | apply (Htail c s' eq_refl)].
Qed.

(** A pattern that starts with a literal finds nothing in a text without
    that character. *)
Lemma scan_without_literal c re fuel :
  forall s, ~ In c s -> scan fuel ((Lit c, Once) :: re) s = [].
Proof.
  induction fuel as [|fuel IH]; intros s Hnot; simpl; [reflexivity|].
  destruct s as [|a s]; [reflexivity|].
  cbn [class_mem]. destruct (Ascii.eqb a c) eqn:Ha.
  - apply Ascii.eqb_eq in Ha. subst a. exfalso. apply Hnot. left. reflexivity.
  - apply IH. intros Hin. apply Hnot. right. exact Hin.
Qed.

(** A match of ["@" (class)+ ...] is the ["@"], a character of the class,
    and more. *)
Lemma match_here_at_class cl lo re s len :
  match_here ((Lit "@"%char, Once) :: (cl, AtLeast (S lo)) :: re) s
  = Some len ->
  exists c rest, firstn len s = "@"%char :: c :: rest
                 /\ class_mem cl c = true.
Proof.
  destruct s as [|a s]; [discriminate|].
  cbn [match_here class_mem]. destruct (Ascii.eqb a "@") eqn:Ha; [|discriminate].
  apply Ascii.eqb_eq in Ha. subst a.
  destruct (Nat.ltb (span cl s) (S lo)) eqn:Hlt; [discriminate|].
  apply Nat.ltb_ge in Hlt.
  destruct (try_counts (match_here re) s (S lo) (span cl s)) as [r|] eqn:Hr;
    [|discriminate].
  intros [= <-].
  destruct (try_counts_Some _ _ _ _ _ Hlt Hr) as (m & l & -> & Hm & Hm' & _).
  destruct s as [|c s]; [simpl in Hlt; inversion Hlt|].
  simpl in Hlt. destruct (class_mem cl c) eqn:Hc; [|inversion Hlt].
  destruct m as [|m]; [inversion Hm|].
  exists c, (firstn (m + l) s). split; [reflexivity | exact Hc].
Qed.


Lemma string_of_list_ascii_app a b :
  string_of_list_ascii (a ++ b)
  = (string_of_list_ascii a ++ string_of_list_ascii b)%string.
Proof. induction a as [|c a IH]; simpl; [reflexivity | rewrite IH; reflexivity]. Qed.


End ScanFacts.

Section MentionShapes.

Import Js.








End MentionShapes.



(** X3: in both variants every token found occurs in the text of the
    message. *)
Theorem mentions_occur_in_the_text text mention :
  (In mention (PersistentSpec.mentions_of text) ->
   exists pre post, text = (pre ++ mention ++ post)%string)
  /\ (In mention (EphemeralSpec.mentions_of text) ->
      exists pre post, text = (pre ++ mention ++ post)%string).
Proof.
  assert (H : forall re mentions,
             Js.match_g text re = Some mentions ->
             In mention mentions ->
             exists pre post, text = (pre ++ mention ++ post)%string).
  { intros re mentions. unfold Js.match_g.
    pose proof (scan_substrings re
                  (S (List.length (list_ascii_of_string text)))
                  (list_ascii_of_string text)) as Hsub.
    destruct (Js.scan _ re _) as [|m ms]; [discriminate|].
    intros [= <-] Hin.
    change (In mention (map string_of_list_ascii (m :: ms))) in Hin.
    apply in_map_iff in Hin.
    destruct Hin as (m' & <- & Hin).
    rewrite Forall_forall in Hsub.
    destruct (Hsub m' Hin) as (pre & post & Heq).
    exists (string_of_list_ascii pre), (string_of_list_ascii post).
    rewrite <- !string_of_list_ascii_app, <- Heq.
    symmetry. apply string_of_list_ascii_of_string. }
  split.
  - unfold PersistentSpec.mentions_of.
    destruct (Js.match_g text emailMentionRegex) eqn:Hm; [eauto | intros []].
  - unfold EphemeralSpec.mentions_of.
    destruct (Js.match_g text usernameMentionRegex) eqn:Hm;
      [eauto | intros []].
Qed.

Lemma mentions_of_text_witness :
  In "@bob" (EphemeralSpec.mentions_of "hi @bob!")
  /\ exists pre post, "hi @bob!" = (pre ++ "@bob" ++ post)%string.
Proof.
  split; [left; reflexivity|].
  apply (proj2 (mentions_occur_in_the_text "hi @bob!" "@bob")).
  left. reflexivity.
Defined.

(** ** Messages without a mention *)

Section ResumeFacts.

Context {R M P : Type} {schema : Schema R M}.

Lemma resume_RoomFindOne sid q (k : Outcome (option R) -> Task R M P)
      (w : World R M P) :
  resume sid (Await (RoomFindOne q) k) w
  = run_sync sid (k (if db_fault w then Rejected
                     else Resolved (find (room_matches q) (rooms w))))
             (db_next w).
Proof.
  unfold db_fault, db_next. simpl.
  destruct (hd false (db_faults w)); reflexivity.
Qed.

Lemma resume_MessageSave sid m (k : Outcome unit -> Task R M P)
      (w : World R M P) :
  resume sid (Await (MessageSave m) k) w
  = if db_fault w || negb (message_valid m)
    then run_sync sid (k Rejected) (db_next w)
    else run_sync sid (k (Resolved tt))
                  (set_messages (messages w ++ [m]) (db_next w)).
Proof.
  unfold db_fault, db_next. simpl.
  destruct (hd false (db_faults w) || negb (message_valid m)); reflexivity.
Qed.

End ResumeFacts.

Lemma match_g_at_free text re :
  at_free text -> Js.match_g text ((Js.Lit "@"%char, Js.Once) :: re) = None.
Proof.
  intros H. unfold Js.match_g.
  rewrite (scan_without_literal "@"%char re _ _ H). reflexivity.
Qed.

(** X4: a message without an ["@"] triggers no directory lookup and no
    mail.  When the author is authorised and the lookup of the room and the
    [save] resolve, the handler of either variant, suspended on the [save],
    appends and broadcasts in the very turn in which the [save] settles:
    after two turns it has returned, the only new observation is the
    broadcast, and exactly two database operations were consumed. *)
Theorem mention_free_post_is_broadcast_with_the_save :
  (forall sid user data now (w : Persistent.World) room,
      at_free (Persistent.message data) ->
      db_fault w = false ->
      find (room_matches (RoomById (Persistent.roomId data))) (rooms w)
      = Some room ->
      Js.includes (Persistent.Room.members room) (Claims.userId user) = true ->
      db_fault (db_next w) = false ->
      Js.truthy (Persistent.message data) = true ->
      let handler := Persistent.chatMessage user data now in
      let turn1 := resume sid handler w in
      let turn2 := resume sid (fst turn1) (snd turn1) in
      let m := PersistentSpec.newMessage user data now in
      messages (snd turn1) = messages w
      /\ history (snd turn1) = history w
      /\ fst turn2 = Done
      /\ snd turn2 = run sid handler w
      /\ messages (snd turn2) = messages w ++ [m]
      /\ history (snd turn2)
         = history w ++ [Emitted (Persistent.roomId data) "chatMessage"
                                 (Persistent.chatPayload user m)]
      /\ db_faults (snd turn2) = tl (tl (db_faults w))
      /\ mail_faults (snd turn2) = mail_faults w)
  /\ (forall sid user data now (w : Ephemeral.World) room,
         at_free (Ephemeral.message data) ->
         db_fault w = false ->
         find (room_matches (RoomByName (Ephemeral.roomName data))) (rooms w)
         = Some room ->
         db_fault (db_next w) = false ->
         Js.truthy (Ephemeral.message data) = true ->
         let handler := Ephemeral.chatMessage user data now in
         let turn1 := resume sid handler w in
         let turn2 := resume sid (fst turn1) (snd turn1) in
         let m := EphemeralSpec.newMessage user room data now in
         messages (snd turn1) = messages w
         /\ history (snd turn1) = history w
         /\ fst turn2 = Done
         /\ snd turn2 = run sid handler w
         /\ messages (snd turn2) = messages w ++ [m]
         /\ history (snd turn2)
            = history w ++ [Emitted (Ephemeral.roomName data) "chatMessage"
                                    (Ephemeral.chatPayload user m)]
         /\ db_faults (snd turn2) = tl (tl (db_faults w))
         /\ mail_faults (snd turn2) = mail_faults w).
Proof.
  split.
  - intros sid user data now w room Hfree Hf Hroom Hmem Hf2 Hvalid
           handler turn1 turn2 m.
    assert (Hnone : Js.match_g (Persistent.message data) emailMentionRegex
                    = None) by apply (match_g_at_free _ _ Hfree).
    assert (H1 : turn1
                 = (Await (MessageSave m)
                      (fun saved =>
                         match saved with
                         | Resolved _ =>
                             Perform (EmitTo (Persistent.roomId data)
                                        "chatMessage"
                                        (Persistent.chatPayload user m)) Done
                         | Rejected => Persistent.catch_chat
                         end), db_next w)).
    { subst turn1 handler. unfold Persistent.chatMessage.
      rewrite resume_RoomFindOne, Hf, Hroom, Hmem, Hnone. reflexivity. }
    assert (H2 : turn2
                 = (Done,
                    effect sid (EmitTo (Persistent.roomId data) "chatMessage"
                                  (Persistent.chatPayload user m))
                           (PersistentSpec.saved user data now w))).
    { subst turn2. rewrite H1. cbn [fst snd].
      rewrite resume_MessageSave, Hf2.
      subst m. cbn [message_valid Persistent.schema
                    PersistentSpec.newMessage Message.text].
      rewrite Hvalid. reflexivity. }
    assert (Hrun : run sid handler w = snd turn2).
    { subst handler.
      rewrite PersistentFacts.persistent_run_chatMessage,
        Hf, Hroom, Hmem, Hf2, Hvalid, H2.
      unfold PersistentSpec.mentions_of. rewrite Hnone. reflexivity. }
    rewrite Hrun, H2, H1. cbn [fst snd]. repeat split.
  - intros sid user data now w room Hfree Hf Hroom Hf2 Hvalid
           handler turn1 turn2 m.
    assert (Hnone : Js.match_g (Ephemeral.message data) usernameMentionRegex
                    = None) by apply (match_g_at_free _ _ Hfree).
    assert (H1 : turn1
                 = (Await (MessageSave m)
                      (fun saved =>
                         match saved with
                         | Resolved _ =>
                             Perform (EmitTo (Ephemeral.roomName data)
                                        "chatMessage"
                                        (Ephemeral.chatPayload user m)) Done
                         | Rejected => Ephemeral.catch_chat
                         end), db_next w)).
    { subst turn1 handler. unfold Ephemeral.chatMessage.
      rewrite resume_RoomFindOne, Hf, Hroom, Hnone. reflexivity. }
    assert (H2 : turn2
                 = (Done,
                    effect sid (EmitTo (Ephemeral.roomName data) "chatMessage"
                                  (Ephemeral.chatPayload user m))
                           (EphemeralSpec.saved user room data now w))).
    { subst turn2. rewrite H1. cbn [fst snd].
      rewrite resume_MessageSave, Hf2.
      subst m. cbn [message_valid Ephemeral.schema
                    EphemeralSpec.newMessage Message.text].
      rewrite Hvalid. reflexivity. }
    assert (Hrun : run sid handler w = snd turn2).
    { subst handler.
      rewrite EphemeralFacts.ephemeral_run_chatMessage,
        Hf, Hroom, Hf2, Hvalid, H2.
      unfold EphemeralSpec.mentions_of. rewrite Hnone. reflexivity. }
    rewrite Hrun, H2, H1. cbn [fst snd]. repeat split.
Qed.

Lemma mention_free_post_witness :
  at_free (Persistent.message (demo_post "yo"))
  /\ db_fault Demo.w0 = false
  /\ find (room_matches (RoomById (Persistent.roomId (demo_post "yo"))))
          (rooms Demo.w0) = Some Demo.general
  /\ Js.includes (Persistent.Room.members Demo.general)
                 (Claims.userId Demo.carol) = true
  /\ db_fault (db_next Demo.w0) = false
  /\ Js.truthy (Persistent.message (demo_post "yo")) = true
  /\ fst (resume 3 (fst (resume 3 (Persistent.chatMessage
                                     Demo.carol (demo_post "yo") 6) Demo.w0))
                 (snd (resume 3 (Persistent.chatMessage
                                   Demo.carol (demo_post "yo") 6) Demo.w0)))
     = Done.
Proof.
  assert (Hfree : at_free (Persistent.message (demo_post "yo"))).
  { intros [H | [H | []]]; discriminate H. }
  split; [exact Hfree|]. repeat (split; [reflexivity|]).
  apply (proj1 mention_free_post_is_broadcast_with_the_save
               3 Demo.carol (demo_post "yo") 6 Demo.w0 Demo.general);
    (exact Hfree || reflexivity).
Defined.

(** ** The token on its way from the client to the handlers *)

Section SplitFacts.

Import Js.

Lemma append_snoc (cur : string) c rest :
  ((cur ++ String c EmptyString) ++ rest)%string
  = (cur ++ String c rest)%string.
Proof. induction cur as [|a cur IH]; simpl; [reflexivity | rewrite IH; reflexivity]. Qed.

Lemma append_empty_r (s : string) : (s ++ EmptyString)%string = s.
Proof. induction s as [|a s IH]; simpl; [reflexivity | rewrite IH; reflexivity]. Qed.

Lemma space_free_String c s :
  space_free (String c s) -> c <> " "%char /\ space_free s.
Proof.
  unfold space_free. simpl. intros H. split.
  - intros ->. apply H. left. reflexivity.
  - intros Hin. apply H. right. exact Hin.
Qed.

(** A string without a space is one field. *)
Lemma split_space_aux_space_free s :
  space_free s -> forall cur, split_space_aux s cur = [(cur ++ s)%string].
Proof.
  induction s as [|c s IH]; intros Hfree cur; simpl.
  - rewrite append_empty_r. reflexivity.
  - destruct (space_free_String c s Hfree) as [Hc Hs].
    destruct (Ascii.eqb c " ") eqn:Heq.
    + apply Ascii.eqb_eq in Heq. contradiction.
    + rewrite (IH Hs), append_snoc. reflexivity.
Qed.

(** The first space ends the first field. *)
Lemma split_space_aux_field a b :
  space_free a ->
  forall cur,
    split_space_aux (a ++ String " " b)%string cur
    = (cur ++ a)%string :: split_space_aux b EmptyString.
Proof.
  induction a as [|c a IH]; intros Hfree cur; simpl.
  - rewrite append_empty_r. reflexivity.
  - destruct (space_free_String c a Hfree) as [Hc Ha].
    destruct (Ascii.eqb c " ") eqn:Heq.
    + apply Ascii.eqb_eq in Heq. contradiction.
    + rewrite (IH Ha), append_snoc. reflexivity.
Qed.

Lemma second_field scheme token :
  space_free scheme -> space_free token ->
  nth_error (split_space (scheme ++ String " " token)%string) 1 = Some token.
Proof.
  intros Hs Ht. unfold split_space.
  rewrite (split_space_aux_field scheme token Hs).
  rewrite (split_space_aux_space_free token Ht). reflexivity.
Qed.

End SplitFacts.

(** X5: the token survives the trip.  A token without a space that
    verifies, sent by the client as [`Bearer ${token}`], is read back by
    [authMiddleware], which hands its decoded claims to the route; the same
    token in the handshake of a socket binds the same claims to the socket.
    The scheme word is not looked at: any word in its place does as well. *)
Theorem token_round_trip
        {R : Type} (jwt_verify : Verifier) token decoded
        (next : Claims.t -> Task R Message.t Payload.t) :
  space_free token ->
  Js.truthy token = true ->
  jwt_verify token = Some decoded ->
  authMiddleware jwt_verify (Some (authorization_header token)) next
  = next decoded
  /\ connect jwt_verify (Some token) = Connected decoded
  /\ forall scheme,
      space_free scheme ->
      authMiddleware jwt_verify (Some (scheme ++ String " " token)%string) next
      = next decoded.
Proof.
  intros Hfree Htruthy Hverify.
  assert (Hscheme : forall scheme,
             space_free scheme ->
             authMiddleware jwt_verify (Some (scheme ++ String " " token)%string) next
             = next decoded).
  { intros scheme Hs. apply (authMiddleware_passes jwt_verify _ token); auto.
    apply second_field; assumption. }
  split; [|split; [|exact Hscheme]].
  - apply (Hscheme "Bearer").
    intros [H | [H | [H | [H | [H | [H | []]]]]]]; discriminate H.
  - unfold connect, io_use. rewrite Htruthy, Hverify. reflexivity.
Qed.

Lemma token_round_trip_witness :
  space_free "token-alice"
  /\ Js.truthy "token-alice" = true
  /\ Demo.jwt_verify "token-alice" = Some Demo.alice
  /\ Persistent.deleteRoom Demo.jwt_verify
       (Some (authorization_header "token-alice")) "r1"
     = Persistent.deleteRoom Demo.jwt_verify (Some "Token token-alice") "r1".
Proof.
  assert (Hfree : space_free "token-alice").
  { unfold space_free. simpl. intuition discriminate. }
  split; [exact Hfree|]. split; [reflexivity|]. split; [reflexivity|].
  unfold Persistent.deleteRoom.
  match goal with
  | |- authMiddleware _ _ ?route = _ =>
      destruct (token_round_trip Demo.jwt_verify "token-alice" Demo.alice
                                 route Hfree eq_refl eq_refl)
        as (H1 & _ & H3)
  end.
  rewrite H1. symmetry. apply (H3 "Token").
  unfold space_free. simpl. intuition discriminate.
Defined.

(** X6: a request without a usable token is answered 401 and nothing
    else happens: whatever the route guarded by [authMiddleware], its body
    is not run, nothing is read from or written to the database, and the
    reply is the only observation. *)
Theorem unusable_token_is_answered_401
        {R : Type} {schema : Schema R Message.t}
        (jwt_verify : Verifier) authorization
        (next : Claims.t -> Task R Message.t Payload.t) sid
        (w : World R Message.t Payload.t) :
  unusable jwt_verify authorization ->
  exists text,
    (text = "No token provided" \/ text = "Invalid token")
    /\ run sid (authMiddleware jwt_verify authorization next) w
       = observe (Responded 401 (Msg text)) w.
Proof.
  unfold unusable, authMiddleware.
  destruct authorization as [header|].
  2:{ intros _. exists "No token provided". auto. }
  destruct (nth_error (Js.split_space header) 1) as [token|].
  2:{ intros _. exists "No token provided". auto. }
  intros [-> | Hverify].
  - exists "No token provided". auto.
  - destruct (Js.truthy token).
    + rewrite Hverify. exists "Invalid token". auto.
    + exists "No token provided". auto.
Qed.

Lemma unusable_token_witness :
  unusable Demo.jwt_verify (Some "Bearer token-mallory")
  /\ rooms (run 0 (Persistent.deleteRoom Demo.jwt_verify
                     (Some "Bearer token-mallory") "r1") Demo.w0)
     = rooms Demo.w0.
Proof.
  assert (H : unusable Demo.jwt_verify (Some "Bearer token-mallory")).
  { right. reflexivity. }
  split; [exact H|].
  unfold Persistent.deleteRoom.
  match goal with
  | |- context [authMiddleware _ _ ?route] =>
      destruct (unusable_token_is_answered_401
                  Demo.jwt_verify (Some "Bearer token-mallory") route
                  0 Demo.w0 H) as (text & _ & Hrun)
  end.
  rewrite Hrun. reflexivity.
Defined.

(** X7: the header is cut at single spaces and its second field is the
    token.  A header that is one word, and a header with two spaces between
    the scheme and the token, therefore carry no usable token, whether or
    not the token itself verifies. *)
Theorem malformed_header_is_unusable (jwt_verify : Verifier) scheme token :
  space_free scheme ->
  unusable jwt_verify (Some scheme)
  /\ unusable jwt_verify (Some (scheme ++ String " " (String " " token))%string).
Proof.
  intros Hs. unfold unusable, Js.split_space. split.
  - rewrite (split_space_aux_space_free scheme Hs). exact I.
  - rewrite (split_space_aux_field scheme _ Hs). simpl. left. reflexivity.
Qed.

Lemma malformed_header_witness :
  space_free "Bearer"
  /\ unusable Demo.jwt_verify (Some "Bearer  token-alice").
Proof.
  assert (Hs : space_free "Bearer").
  { unfold space_free. simpl. intuition discriminate. }
  split; [exact Hs|].
  apply (proj2 (malformed_header_is_unusable Demo.jwt_verify "Bearer"
                  "token-alice" Hs)).
Defined.

(** ** Who receives a broadcast *)

Section SocketFacts.

Context {R M P : Type} {schema : Schema R M}.
Implicit Types (w : World R M P).

Lemma join_socket_id sid room (s : Socket P) :
  socket_id (join_socket sid room s) = socket_id s.
Proof. unfold join_socket. destruct (_ && _); reflexivity. Qed.

Lemma join_socket_received sid room (s : Socket P) :
  received (join_socket sid room s) = received s.
Proof. unfold join_socket. destruct (_ && _); reflexivity. Qed.

Lemma includes_app_r (l : list string) x : Js.includes (l ++ [x]) x = true.
Proof.
  unfold Js.includes. rewrite existsb_app. simpl.
  rewrite String.eqb_refl. apply orb_true_iff. right. reflexivity.
Qed.

Lemma includes_app_l (l : list string) x y :
  Js.includes l x = true -> Js.includes (l ++ [y]) x = true.
Proof.
  unfold Js.includes. rewrite existsb_app. intros ->. reflexivity.
Qed.

Lemma find_join_socket sid sid' room (ss : list (Socket P)) :
  find (fun s => Nat.eqb (socket_id s) sid') (map (join_socket sid room) ss)
  = option_map (join_socket sid room)
               (find (fun s => Nat.eqb (socket_id s) sid') ss).
Proof.
  induction ss as [|s ss IH]; simpl; [reflexivity|].
  rewrite join_socket_id. destruct (Nat.eqb (socket_id s) sid'); auto.
Qed.

(** [socket.join] puts a connected socket in the room, changes nothing it
    has received, and leaves the other rooms of every socket alone. *)
Lemma in_room_join sid room w :
  connected sid w = true ->
  in_room sid room (effect sid (SocketJoin room) w) = true.
Proof.
  unfold connected, in_room. cbn [effect sockets set_sockets].
  rewrite find_join_socket. intros Hc.
  destruct (find _ (sockets w)) as [s|] eqn:Hfind.
  - apply find_some in Hfind. destruct Hfind as [_ Hid].
    cbn [option_map]. unfold join_socket. rewrite Hid. cbn [andb].
    destruct (Js.includes (socket_rooms s) room) eqn:Hin; cbn [negb].
    + exact Hin.
    + apply includes_app_r.
  - apply existsb_exists in Hc. destruct Hc as (s & Hin & Hid).
    apply (find_none _ _ Hfind) in Hin. congruence.
Qed.

Lemma in_room_join_other sid sid' room room' w :
  in_room sid' room' w = true ->
  in_room sid' room' (effect sid (SocketJoin room) w) = true.
Proof.
  unfold in_room. cbn [effect sockets set_sockets].
  rewrite find_join_socket.
  destruct (find _ (sockets w)) as [s|]; [|discriminate].
  cbn [option_map]. unfold join_socket.
  destruct (_ && _); [|auto]. cbn [socket_rooms]. apply includes_app_l.
Qed.

Lemma received_by_join sid sid' room w :
  received_by sid' (effect sid (SocketJoin room) w) = received_by sid' w.
Proof.
  unfold received_by. cbn [effect sockets set_sockets].
  rewrite find_join_socket.
  destruct (find _ (sockets w)) as [s|]; [|reflexivity].
  apply join_socket_received.
Qed.

Lemma connected_join sid sid' room w :
  connected sid' (effect sid (SocketJoin room) w) = connected sid' w.
Proof.
  unfold connected. cbn [effect sockets set_sockets].
  induction (sockets w) as [|s ss IH]; simpl; [reflexivity|].
  rewrite join_socket_id, IH. reflexivity.
Qed.

(** A broadcast to a room does not reach a socket outside it. *)
Lemma received_by_outside sid room event (p : P) w w' :
  sockets w' = map (deliver room event p) (sockets w) ->
  in_room sid room w = false ->
  received_by sid w' = received_by sid w.
Proof.
  unfold in_room, received_by. intros ->. rewrite received_by_deliver.
  destruct (find _ (sockets w)) as [s|]; [|reflexivity].
  intros ->. reflexivity.
Qed.

Lemma in_room_delivered sid room room' event (p : P) w w' :
  sockets w' = map (deliver room' event p) (sockets w) ->
  in_room sid room w' = in_room sid room w.
Proof. unfold in_room. intros ->. apply in_room_deliver. Qed.

Lemma in_room_sockets sid room w w' :
  sockets w' = sockets w -> in_room sid room w' = in_room sid room w.
Proof. unfold in_room. intros ->. reflexivity. Qed.

Lemma received_by_sockets sid w w' :
  sockets w' = sockets w -> received_by sid w' = received_by sid w.
Proof. unfold received_by. intros ->. reflexivity. Qed.

End SocketFacts.

(** What one [chatMessage] does to one socket, whatever the database and the
    mailer do. *)
Lemma persistent_chat_socket sid' user data now (w : Persistent.World) sid :
  let w' := run sid' (Persistent.chatMessage user data now) w in
  (forall room, in_room sid room w' = in_room sid room w)
  /\ (in_room sid (Persistent.roomId data) w = false ->
      received_by sid w' = received_by sid w).
Proof.
  intros w'.
  destruct (PersistentFacts.persistent_chat_cases sid' user data now w)
    as (_ & _ & h & _ & [(_ & Hs & _)
                        | (r & hl & _ & _ & _ & _ & _ & _
                           & [[_ Hs] | [_ Hs]])]); fold w' in Hs.
  - split; intros; [apply (in_room_sockets _ _ _ _ Hs)
                   | apply (received_by_sockets _ _ _ Hs)].
  - split; intros; [apply (in_room_delivered _ _ _ _ _ _ _ Hs)
                   | apply (received_by_outside _ _ _ _ _ _ Hs); assumption].
  - split; intros; [apply (in_room_sockets _ _ _ _ Hs)
                   | apply (received_by_sockets _ _ _ Hs)].
Qed.

Lemma ephemeral_chat_socket sid' user data now (w : Ephemeral.World) sid :
  let w' := run sid' (Ephemeral.chatMessage user data now) w in
  (forall room, in_room sid room w' = in_room sid room w)
  /\ (in_room sid (Ephemeral.roomName data) w = false ->
      received_by sid w' = received_by sid w).
Proof.
  intros w'.
  destruct (EphemeralFacts.ephemeral_chat_cases sid' user data now w)
    as (_ & _ & h & _ & [(_ & Hs & _)
                        | (r & hl & _ & _ & _ & _ & _
                           & [[_ Hs] | [_ Hs]])]); fold w' in Hs.
  - split; intros; [apply (in_room_sockets _ _ _ _ Hs)
                   | apply (received_by_sockets _ _ _ Hs)].
  - split; intros; [apply (in_room_delivered _ _ _ _ _ _ _ Hs)
                   | apply (received_by_outside _ _ _ _ _ _ Hs); assumption].
  - split; intros; [apply (in_room_sockets _ _ _ _ Hs)
                   | apply (received_by_sockets _ _ _ Hs)].
Qed.

(** What one [sendMessage] does, whatever the database does. *)
Lemma minimal_run_sendMessage sid room userId content now
      (w : Minimal.World) :
  run sid (Minimal.sendMessage room userId content now) w
  = if db_fault w || negb (Js.truthy content)
    then db_next w
    else effect sid (EmitTo room "newMessage"
                            (sent_payload room userId content now))
                (set_messages
                   (messages w ++ [sent_message room userId content now])
                   (db_next w)).
Proof.
  unfold Minimal.sendMessage. rewrite run_MessageSave.
  cbn [message_valid Minimal.schema Minimal.Message.content].
  destruct (db_fault w || negb (Js.truthy content)); reflexivity.
Qed.

(** X8: a message is only delivered to the sockets that are in its room
    at the time of the broadcast.  In the three servers, whatever the
    database and the mailer do, the handler of a post leaves what a socket
    outside the target room has received as it was, the poster's own socket
    included. *)
Theorem post_never_reaches_a_socket_outside_the_room :
  (forall sid' user data now (w : Persistent.World) sid,
      in_room sid (Persistent.roomId data) w = false ->
      received_by sid (run sid' (Persistent.chatMessage user data now) w)
      = received_by sid w)
  /\ (forall sid' user data now (w : Ephemeral.World) sid,
         in_room sid (Ephemeral.roomName data) w = false ->
         received_by sid (run sid' (Ephemeral.chatMessage user data now) w)
         = received_by sid w)
  /\ (forall sid' room userId content now (w : Minimal.World) sid,
         in_room sid room w = false ->
         received_by sid (run sid' (Minimal.sendMessage room userId content
                                                        now) w)
         = received_by sid w).
Proof.
  split; [|split].
  - intros sid' user data now w sid.
    apply (persistent_chat_socket sid' user data now w sid).
  - intros sid' user data now w sid.
    apply (ephemeral_chat_socket sid' user data now w sid).
  - intros sid' room userId content now w sid Hout.
    rewrite minimal_run_sendMessage.
    destruct (db_fault w || negb (Js.truthy content)); [reflexivity|].
    apply (received_by_outside sid room "newMessage"
             (sent_payload room userId content now)
             (set_messages (messages w ++ [sent_message room userId content now])
                           (db_next w)));
      [reflexivity | exact Hout].
Qed.

Lemma post_outside_witness :
  in_room 2 (Persistent.roomId (demo_post "hi all")) Demo.w0 = false
  /\ received_by 2 (run 1 (Persistent.chatMessage Demo.alice
                             (demo_post "hi all") 5) Demo.w0)
     = received_by 2 Demo.w0.
Proof.
  split; [reflexivity|].
  apply (proj1 post_never_reaches_a_socket_outside_the_room
               1 Demo.alice (demo_post "hi all") 5 Demo.w0 2).
  reflexivity.
Defined.

(** ** Joining a room and watching it *)

Lemma persistent_run_joinRoom sid user room cb (w : Persistent.World) :
  run sid (Persistent.joinRoom user room cb) w
  = if db_fault w
    then run sid (Persistent.reply cb (AckError "Failed to join room") Done)
             (observe (Logged true "Failed to join room:") (db_next w))
    else
      match find (room_matches (RoomById room)) (rooms w) with
      | None =>
          run sid (Persistent.reply cb (AckError "Room not found") Done)
              (db_next w)
      | Some r =>
          if Js.includes (Persistent.Room.members r) (Claims.userId user)
          then run sid
                   (Persistent.reply cb (AckSuccess "Joined the room") Done)
                   (effect sid (SocketJoin room) (db_next w))
          else run sid
                   (Persistent.reply cb
                      (AckError "You are not a member of this room") Done)
                   (db_next w)
      end.
Proof.
  unfold Persistent.joinRoom. rewrite run_RoomFindOne.
  destruct (db_fault w); [reflexivity|].
  destruct (find _ (rooms w)) as [r|]; [|reflexivity].
  destruct (Js.includes _ _); reflexivity.
Qed.

Lemma persistent_run_reply sid cb ack (w : Persistent.World) :
  run sid (Persistent.reply cb ack Done) w
  = if cb then observe (Acked sid ack) w else w.
Proof. destruct cb; reflexivity. Qed.

Lemma persistent_outside_stays_outside room sid posts :
  forall w : Persistent.World,
    in_room sid room w = false ->
    in_room sid room (PersistentPosts.post_all room posts w) = false
    /\ received_by sid (PersistentPosts.post_all room posts w)
       = received_by sid w.
Proof.
  induction posts as [|p posts IH]; intros w Hout; [auto|].
  cbn [PersistentPosts.post_all fold_left].
  fold (PersistentPosts.post_all room posts).
  destruct (persistent_chat_socket (post_socket p) (post_user p)
              (PersistentPosts.data_of room p) (post_now p) w sid)
    as [Hin Hrcv].
  cbn [Persistent.roomId PersistentPosts.data_of] in Hrcv.
  specialize (Hin room). rewrite Hout in Hin.
  destruct (IH _ Hin) as [IH1 IH2].
  unfold PersistentPosts.post_all in IH1, IH2 |- *.
  rewrite IH1, IH2. split; [reflexivity|]. apply Hrcv, Hout.
Qed.

(** X9: in the persistent variant the socket of a user who is not on the
    member list of a room cannot watch it.  Whatever the database does,
    its [joinRoom] leaves every socket as it was, stores nothing, and
    answers with no success acknowledgement; and however many posts the room
    then takes, the socket receives none of them. *)
Theorem non_member_socket_never_watches sid user room cb posts
        (w : Persistent.World) :
  (forall r, find (room_matches (RoomById room)) (rooms w) = Some r ->
             Js.includes (Persistent.Room.members r) (Claims.userId user)
             = false) ->
  in_room sid room w = false ->
  let w1 := run sid (Persistent.joinRoom user room cb) w in
  sockets w1 = sockets w /\ rooms w1 = rooms w /\ messages w1 = messages w
  /\ (exists h, history w1 = history w ++ h
                /\ forall text, ~ In (Acked sid (AckSuccess text)) h)
  /\ received_by sid (PersistentPosts.post_all room posts w1)
     = received_by sid w.
Proof.
  intros Hnot Hout w1.
  assert (Hw1 : sockets w1 = sockets w /\ rooms w1 = rooms w
                /\ messages w1 = messages w
                /\ exists h, history w1 = history w ++ h
                     /\ forall text, ~ In (Acked sid (AckSuccess text)) h).
  { subst w1. rewrite persistent_run_joinRoom.
    destruct (db_fault w).
    { rewrite persistent_run_reply. destruct cb; repeat split.
      - exists [Logged true "Failed to join room:";
                Acked sid (AckError "Failed to join room")].
        split; [cbn; rewrite <- app_assoc; reflexivity|].
        intros text [H|[H|[]]]; discriminate.
      - exists [Logged true "Failed to join room:"].
        split; [reflexivity|]. intros text [H|[]]; discriminate. }
    destruct (find _ (rooms w)) as [r|] eqn:Hroom.
    - rewrite (Hnot r eq_refl), persistent_run_reply.
      destruct cb; repeat split.
      + exists [Acked sid (AckError "You are not a member of this room")].
        split; [reflexivity|]. intros text [H|[]]; discriminate.
      + exists []. split; [symmetry; apply app_nil_r|]. intros text [].
    - rewrite persistent_run_reply. destruct cb; repeat split.
      + exists [Acked sid (AckError "Room not found")].
        split; [reflexivity|]. intros text [H|[]]; discriminate.
      + exists []. split; [symmetry; apply app_nil_r|]. intros text []. }
  destruct Hw1 as (Hs & Hr & Hm & Hh).
  repeat split; try assumption.
  assert (Hout1 : in_room sid room w1 = false).
  { rewrite (in_room_sockets _ _ _ _ Hs). exact Hout. }
  rewrite (proj2 (persistent_outside_stays_outside room sid posts w1 Hout1)).
  apply (received_by_sockets _ _ _ Hs).
Qed.

Lemma non_member_socket_witness :
  received_by 2 (PersistentPosts.post_all "r1" demo_posts
                   (run 2 (Persistent.joinRoom Demo.bob "r1" true) Demo.w0))
  = received_by 2 Demo.w0.
Proof.
  apply (non_member_socket_never_watches 2 Demo.bob "r1" true demo_posts
                                         Demo.w0).
  - intros r Hr. vm_compute in Hr. injection Hr as <-. reflexivity.
  - reflexivity.
Defined.



(** ** Rooms that exist only as socket rooms *)

Lemma ephemeral_run_joinRoom sid name cb (w : Ephemeral.World) :
  run sid (Ephemeral.joinRoom name cb) w
  = if cb
    then observe (Acked sid (AckSuccess
                    ("Joined the room (ephemeral) '" ++ name ++ "'")))
                 (effect sid (SocketJoin name) w)
    else effect sid (SocketJoin name) w.
Proof. unfold Ephemeral.joinRoom. destruct cb; reflexivity. Qed.

Lemma ephemeral_post_without_room sid user data now (w : Ephemeral.World) :
  find (room_matches (RoomByName (Ephemeral.roomName data))) (rooms w) = None ->
  let w' := run sid (Ephemeral.chatMessage user data now) w in
  rooms w' = rooms w /\ messages w' = messages w /\ sockets w' = sockets w.
Proof.
  intros Hnone w'.
  destruct (EphemeralFacts.ephemeral_chat_cases sid user data now w)
    as (_ & Hr & h & _ & [(Hm & Hs & _) | (r & hl & Hroom & _)]);
    fold w' in Hr.
  - auto.
  - rewrite Hnone in Hroom. discriminate.
Qed.

Lemma ephemeral_posts_without_room name posts :
  forall w : Ephemeral.World,
    find (room_matches (RoomByName name)) (rooms w) = None ->
    messages (EphemeralPosts.post_all name posts w) = messages w
    /\ sockets (EphemeralPosts.post_all name posts w) = sockets w.
Proof.
  induction posts as [|p posts IH]; intros w Hnone; [auto|].
  cbn [EphemeralPosts.post_all fold_left].
  fold (EphemeralPosts.post_all name posts).
  destruct (ephemeral_post_without_room (post_socket p) (post_user p)
              (EphemeralPosts.data_of name p) (post_now p) w Hnone)
    as (Hr & Hm & Hs).
  rewrite <- Hr in Hnone. destruct (IH _ Hnone) as [IH1 IH2].
  unfold EphemeralPosts.post_all in IH1, IH2 |- *.
  rewrite IH1, IH2. auto.
Qed.

(** X11: in the ephemeral variant [joinRoom] looks nothing up.  A connected
    socket that asks is put in the socket room of any name and acknowledged
    with success, whether or not a room of that name was ever created and
    whatever the database does; no room record appears.  While there is no
    record of that name, every post to it is dropped: nothing is stored and
    no socket, the joined one included, receives anything. *)
Theorem ephemeral_join_needs_no_room sid name cb posts (w : Ephemeral.World) :
  connected sid w = true ->
  let w1 := run sid (Ephemeral.joinRoom name cb) w in
  in_room sid name w1 = true
  /\ rooms w1 = rooms w
  /\ db_faults w1 = db_faults w
  /\ history w1
     = history w
       ++ (if cb
           then [Acked sid (AckSuccess
                   ("Joined the room (ephemeral) '" ++ name ++ "'"))]
           else [])
  /\ (find (room_matches (RoomByName name)) (rooms w) = None ->
      messages (EphemeralPosts.post_all name posts w1) = messages w
      /\ forall sid', received_by sid' (EphemeralPosts.post_all name posts w1)
                      = received_by sid' w).
Proof.
  intros Hcon w1.
  assert (Hw1 : w1 = (if cb
                      then observe (Acked sid (AckSuccess
                             ("Joined the room (ephemeral) '" ++ name ++ "'")))
                                   (effect sid (SocketJoin name) w)
                      else effect sid (SocketJoin name) w))
    by apply ephemeral_run_joinRoom.
  assert (Hr : rooms w1 = rooms w) by (rewrite Hw1; destruct cb; reflexivity).
  repeat split.
  - rewrite Hw1. assert (H := in_room_join sid name w Hcon).
    destruct cb; exact H.
  - exact Hr.
  - rewrite Hw1. destruct cb; reflexivity.
  - rewrite Hw1. destruct cb; cbn; [reflexivity | symmetry; apply app_nil_r].
  - rewrite <- Hr in H.
    rewrite (proj1 (ephemeral_posts_without_room name posts w1 H)).
    rewrite Hw1. destruct cb; reflexivity.
  - intros sid'. rewrite <- Hr in H.
    rewrite (received_by_sockets _ _ _
               (proj2 (ephemeral_posts_without_room name posts w1 H))).
    rewrite Hw1. assert (H' := received_by_join sid sid' name w).
    destruct cb; exact H'.
Qed.

Lemma ephemeral_join_witness :
  in_room 2 "nowhere"
          (run 2 (Ephemeral.joinRoom "nowhere" true) Demo.e0) = true
  /\ messages (EphemeralPosts.post_all "nowhere" demo_posts
                 (run 2 (Ephemeral.joinRoom "nowhere" true) Demo.e0))
     = messages Demo.e0.
Proof.
  destruct (ephemeral_join_needs_no_room 2 "nowhere" true demo_posts Demo.e0
              eq_refl) as (Hin & _ & _ & _ & Hposts).
  split; [exact Hin|]. apply Hposts. reflexivity.
Defined.

(** ** The socket server without identities *)





(** ** Handlers never look at the socket rooms *)

Section Sockets.

Context {R M P : Type} {schema : Schema R M}.
Implicit Types (w : World R M P).






End Sockets.


(** ** The room routes *)

Section RoomStore.

Context {R M P : Type} {schema : Schema R M}.
Implicit Types (r : R) (rs : list R).

Lemma find_none_existsb {A : Type} (f : A -> bool) (l : list A) :
  find f l = None -> existsb f l = false.
Proof.
  induction l as [|a l IH]; simpl; [reflexivity|].
  destruct (f a); [discriminate | exact IH].
Qed.

Lemma find_app_none {A : Type} (f : A -> bool) (l l' : list A) :
  find f l = None -> find f (l ++ l') = find f l'.
Proof.
  induction l as [|a l IH]; simpl; [reflexivity|].
  destruct (f a); [discriminate | exact IH].
Qed.

Lemma find_app_some {A : Type} (f : A -> bool) (l l' : list A) a :
  find f l = Some a -> find f (l ++ l') = Some a.
Proof.
  induction l as [|b l IH]; simpl; [discriminate|].
  destruct (f b); [auto | exact IH].
Qed.

Lemma existsb_false_find {A : Type} (f : A -> bool) (l : list A) :
  existsb f l = false -> find f l = None.
Proof.
  induction l as [|a l IH]; simpl; [reflexivity|].
  destruct (f a); [discriminate | exact IH].
Qed.

(** A new document with an unused id is appended. *)
Lemma upsert_new r rs :
  find (room_matches (RoomById (room_id r))) rs = None ->
  upsert r rs = rs ++ [r].
Proof.
  intros H. unfold upsert.
  assert (Hex : existsb (fun r' => String.eqb (room_id r') (room_id r)) rs
                = false) by exact (find_none_existsb _ _ H).
  rewrite Hex. reflexivity.
Qed.

Lemma find_upsert_same r rs :
  find (room_matches (RoomById (room_id r))) (upsert r rs) = Some r.
Proof.
  unfold upsert.
  destruct (existsb _ rs) eqn:Hex.
  - induction rs as [|r' rs IH]; [discriminate|].
    cbn [existsb] in Hex. cbn [map find room_matches].
    destruct (String.eqb (room_id r') (room_id r)) eqn:Hid.
    + cbn [room_matches]. rewrite String.eqb_refl. reflexivity.
    + cbn [room_matches]. rewrite Hid. apply IH. exact Hex.
  - rewrite (find_app_none (room_matches (RoomById (room_id r))) rs [r]
               (existsb_false_find _ _ Hex)).
    cbn [find room_matches]. rewrite String.eqb_refl. reflexivity.
Qed.

Lemma find_upsert_other r rs id :
  room_id r <> id ->
  find (room_matches (RoomById id)) (upsert r rs)
  = find (room_matches (RoomById id)) rs.
Proof.
  intros Hneq. apply String.eqb_neq in Hneq. unfold upsert.
  destruct (existsb _ rs) eqn:Hex.
  - clear Hex. induction rs as [|r' rs IH]; [reflexivity|].
    cbn [map find room_matches].
    destruct (String.eqb (room_id r') (room_id r)) eqn:Hid.
    + rewrite Hneq. apply String.eqb_eq in Hid. rewrite Hid, Hneq. exact IH.
    + destruct (String.eqb (room_id r') id); [reflexivity | exact IH].
  - destruct (find (room_matches (RoomById id)) rs) as [a|] eqn:Hf.
    + apply find_app_some. exact Hf.
    + rewrite (find_app_none _ _ _ Hf). cbn [find room_matches].
      rewrite Hneq. reflexivity.
Qed.

Lemma name_free r rs :
  find (room_matches (RoomByName (room_name r))) rs = None ->
  name_taken r rs = false.
Proof.
  intros H. unfold name_taken.
  induction rs as [|r' rs IH]; [reflexivity|].
  cbn [find room_matches] in H. cbn [existsb].
  destruct (String.eqb (room_name r') (room_name r)); [discriminate|].
  cbn [andb orb]. apply IH, H.
Qed.

Lemma NoDup_map_eq {A B : Type} (f : A -> B) (l : list A) a b :
  NoDup (map f l) -> In a l -> In b l -> f a = f b -> a = b.
Proof.
  induction l as [|c l IH]; intros Hnd Ha Hb Hf; [destruct Ha|].
  cbn [map] in Hnd. inversion Hnd as [|x xs Hnotin Hnd']; subst.
  destruct Ha as [->|Ha], Hb as [->|Hb].
  - reflexivity.
  - exfalso. apply Hnotin. rewrite Hf. apply in_map, Hb.
  - exfalso. apply Hnotin. rewrite <- Hf. apply in_map, Ha.
  - apply IH; assumption.
Qed.

(** Saving a stored room under its own name and id passes the unique
    index. *)
Lemma name_kept r r' rs q :
  names_unique rs ->
  find (room_matches q) rs = Some r ->
  room_name r' = room_name r -> room_id r' = room_id r ->
  name_taken r' rs = false.
Proof.
  intros Hnd Hfind Hname Hid. apply find_some in Hfind.
  destruct Hfind as [Hin _]. unfold name_taken.
  apply not_true_is_false. intros Hex.
  apply existsb_exists in Hex. destruct Hex as (r'' & Hin'' & Htest).
  apply andb_true_iff in Htest. destruct Htest as [Hn Hi].
  apply String.eqb_eq in Hn. rewrite Hname in Hn.
  rewrite (NoDup_map_eq room_name rs r'' r Hnd Hin'' Hin Hn) in Hi.
  rewrite Hid, String.eqb_refl in Hi. discriminate.
Qed.

Lemma find_deleted id rs :
  find (room_matches (RoomById id))
       (filter (fun r => negb (String.eqb (room_id r) id)) rs) = None.
Proof.
  induction rs as [|r rs IH]; [reflexivity|].
  cbn [filter]. destruct (String.eqb (room_id r) id) eqn:Hid; cbn [negb].
  - exact IH.
  - cbn [find room_matches]. rewrite Hid. exact IH.
Qed.

Lemma find_name_deleted r rs :
  names_unique rs ->
  In r rs ->
  find (room_matches (RoomByName (room_name r)))
       (filter (fun r' => negb (String.eqb (room_id r') (room_id r))) rs)
  = None.
Proof.
  intros Hnd Hin.
  destruct (find _ (filter _ rs)) as [r'|] eqn:Hf; [|reflexivity].
  apply find_some in Hf. destruct Hf as [Hin' Hname].
  apply filter_In in Hin'. destruct Hin' as [Hin' Hid].
  cbn [room_matches] in Hname. apply String.eqb_eq in Hname.
  rewrite (NoDup_map_eq room_name rs r' r Hnd Hin' Hin Hname) in Hid.
  rewrite String.eqb_refl in Hid. discriminate.
Qed.

End RoomStore.

Lemma authenticated_passes {R : Type} jwt_verify authorization user
      (next : Claims.t -> Task R Message.t Payload.t) :
  authenticated jwt_verify authorization user ->
  authMiddleware jwt_verify authorization next = next user.
Proof.
  intros (header & token & -> & Htok & Htruthy & Hverify).
  apply (authMiddleware_passes jwt_verify header token user next
           Htok Htruthy Hverify).
Qed.

Lemma includes_singleton x y : Js.includes [x] y = String.eqb y x.
Proof. unfold Js.includes. cbn. apply orb_false_r. Qed.

(** X14: a room that was just created has its creator as its only
    member (persistent variant) or as its owner (ephemeral variant).  With a
    healthy database, [POST /rooms] by an authenticated user, with a name
    that is not empty and not yet taken, answers 201, appends the new room
    to the stored ones and leaves those as they were; a lookup of the new id
    or of the new name finds it; and in the persistent variant a post to it
    passes the checks of [chatMessage] exactly when it is not empty and its
    author is the creator. *)
Theorem created_room_belongs_to_its_creator :
  (forall jwt_verify authorization user name fresh sid (w : Persistent.World),
      authenticated jwt_verify authorization user ->
      db_faults w = [] ->
      Js.truthy name = true ->
      find (room_matches (RoomByName name)) (rooms w) = None ->
      find (room_matches (RoomById fresh)) (rooms w) = None ->
      let room := {| Persistent.Room._id := fresh;
                     Persistent.Room.name := name;
                     Persistent.Room.members := [Claims.userId user] |} in
      let w' := run sid (Persistent.createRoom jwt_verify authorization
                                               (Some name) fresh) w in
      history w' = history w ++ [Responded 201 (MsgRoom "Room created" room)]
      /\ rooms w' = rooms w ++ [room]
      /\ find (room_matches (RoomById fresh)) (rooms w') = Some room
      /\ find (room_matches (RoomByName name)) (rooms w') = Some room
      /\ forall p, PersistentPosts.accepts w' fresh p
                   = String.eqb (Claims.userId (post_user p))
                                (Claims.userId user)
                     && Js.truthy (post_text p))
  /\ (forall jwt_verify authorization user name fresh sid
             (w : Ephemeral.World),
         authenticated jwt_verify authorization user ->
         db_faults w = [] ->
         Js.truthy name = true ->
         find (room_matches (RoomByName name)) (rooms w) = None ->
         find (room_matches (RoomById fresh)) (rooms w) = None ->
         let room := {| Ephemeral.Room._id := fresh;
                        Ephemeral.Room.name := name;
                        Ephemeral.Room.owner := Claims.userId user |} in
         let w' := run sid (Ephemeral.createRoom jwt_verify authorization
                                                 (Some name) fresh) w in
         history w' = history w ++ [Responded 201 (MsgRoom "Room created" room)]
         /\ rooms w' = rooms w ++ [room]
         /\ find (room_matches (RoomById fresh)) (rooms w') = Some room
         /\ find (room_matches (RoomByName name)) (rooms w') = Some room).
Proof.
  split.
  - intros jwt_verify authorization user name fresh sid w
           Hauth Hdb Hname Hfree Hfresh room w'.
    assert (Hw' : w' = observe (Responded 201 (MsgRoom "Room created" room))
                               (set_rooms (rooms w ++ [room])
                                          (db_next (db_next w)))).
    { pose proof (name_free (schema:=Persistent.schema) room (rooms w) Hfree)
        as Hn.
      pose proof (upsert_new (schema:=Persistent.schema) room (rooms w) Hfresh)
        as Hu.
      subst w'. unfold Persistent.createRoom.
      rewrite (authenticated_passes _ _ _ _ Hauth), Hname.
      rewrite run_RoomFindOne, (db_fault_healthy w Hdb), Hfree.
      rewrite run_RoomSave.
      rewrite (db_fault_healthy _ (db_next_healthy w Hdb)).
      change (rooms (db_next w)) with (rooms w).
      unfold room in Hn, Hu |- *. rewrite Hn, Hu.
      reflexivity. }
    assert (Hr : rooms w' = rooms w ++ [room]) by (rewrite Hw'; reflexivity).
    assert (Hid : find (room_matches (RoomById fresh)) (rooms w') = Some room).
    { rewrite Hr, (find_app_none _ _ _ Hfresh). cbn.
      rewrite String.eqb_refl. reflexivity. }
    repeat split.
    + rewrite Hw'. reflexivity.
    + exact Hr.
    + exact Hid.
    + rewrite Hr, (find_app_none _ _ _ Hfree). cbn.
      rewrite String.eqb_refl. reflexivity.
    + intros p. unfold PersistentPosts.accepts. rewrite Hid.
      cbn [Persistent.Room.members room]. rewrite includes_singleton.
      reflexivity.
  - intros jwt_verify authorization user name fresh sid w
           Hauth Hdb Hname Hfree Hfresh room w'.
    assert (Hw' : w' = observe (Responded 201 (MsgRoom "Room created" room))
                               (set_rooms (rooms w ++ [room])
                                          (db_next (db_next w)))).
    { pose proof (name_free (schema:=Ephemeral.schema) room (rooms w) Hfree)
        as Hn.
      pose proof (upsert_new (schema:=Ephemeral.schema) room (rooms w) Hfresh)
        as Hu.
      subst w'. unfold Ephemeral.createRoom.
      rewrite (authenticated_passes _ _ _ _ Hauth), Hname.
      rewrite run_RoomFindOne, (db_fault_healthy w Hdb), Hfree.
      rewrite run_RoomSave.
      rewrite (db_fault_healthy _ (db_next_healthy w Hdb)).
      change (rooms (db_next w)) with (rooms w).
      unfold room in Hn, Hu |- *. rewrite Hn, Hu.
      reflexivity. }
    assert (Hr : rooms w' = rooms w ++ [room]) by (rewrite Hw'; reflexivity).
    repeat split.
    + rewrite Hw'. reflexivity.
    + exact Hr.
    + rewrite Hr, (find_app_none _ _ _ Hfresh). cbn.
      rewrite String.eqb_refl. reflexivity.
    + rewrite Hr, (find_app_none _ _ _ Hfree). cbn.
      rewrite String.eqb_refl. reflexivity.
Qed.

Lemma created_room_witness :
  rooms (run 2 (Persistent.createRoom Demo.jwt_verify
                  (Some "Bearer token-bob") (Some "random") "r7") Demo.w0)
  = rooms Demo.w0
    ++ [{| Persistent.Room._id := "r7"; Persistent.Room.name := "random";
           Persistent.Room.members := ["b2"] |}].
Proof.
  apply (proj1 created_room_belongs_to_its_creator Demo.jwt_verify
               (Some "Bearer token-bob") Demo.bob "random" "r7" 2 Demo.w0).
  - exists "Bearer token-bob", "token-bob". repeat split; reflexivity.
  - reflexivity.
  - reflexivity.
  - reflexivity.
  - reflexivity.
Defined.

Lemma authMiddleware_cases {R : Type} jwt_verify authorization
      (next : Claims.t -> Task R Message.t Payload.t) :
  (exists user, authenticated jwt_verify authorization user
                /\ authMiddleware jwt_verify authorization next = next user)
  \/ (exists text, authMiddleware jwt_verify authorization next
                   = Perform (Respond 401 (Msg text)) Done).
Proof.
  unfold authMiddleware.
  destruct authorization as [header|]; [|right; eexists; reflexivity].
  destruct (nth_error (Js.split_space header) 1) as [token|] eqn:Htok;
    [|right; eexists; reflexivity].
  destruct (Js.truthy token) eqn:Htruthy; [|right; eexists; reflexivity].
  destruct (jwt_verify token) as [user|] eqn:Hverify;
    [|right; eexists; reflexivity].
  left. exists user. split; [|reflexivity].
  exists header, token. auto.
Qed.

Ltac no_201 :=
  let H := fresh in
  intros ? H; cbn in H;
  repeat (destruct H as [H|H]; [discriminate|]); destruct H.

(** X15: a room record appears only together with the answer 201.
    Whatever the request and whatever the database does, [POST /rooms]
    touches neither the messages nor the sockets, and either it answers 201
    to an authenticated user who gave a name that is not empty and was not
    taken, the new room being saved, or it leaves the rooms exactly as they
    were and none of its answers is a 201. *)
Theorem room_appears_only_with_a_201 :
  (forall jwt_verify authorization name fresh sid (w : Persistent.World),
      let w' := run sid (Persistent.createRoom jwt_verify authorization
                                               name fresh) w in
      messages w' = messages w /\ sockets w' = sockets w
      /\ ((exists user n,
              authenticated jwt_verify authorization user
              /\ name = Some n /\ Js.truthy n = true
              /\ find (room_matches (RoomByName n)) (rooms w) = None
              /\ history w'
                 = history w
                   ++ [Responded 201
                         (MsgRoom "Room created"
                            {| Persistent.Room._id := fresh;
                               Persistent.Room.name := n;
                               Persistent.Room.members
                               := [Claims.userId user] |})]
              /\ rooms w'
                 = upsert {| Persistent.Room._id := fresh;
                             Persistent.Room.name := n;
                             Persistent.Room.members
                             := [Claims.userId user] |} (rooms w))
          \/ (rooms w' = rooms w
              /\ exists h, history w' = history w ++ h
                           /\ forall body, ~ In (Responded 201 body) h)))
  /\ (forall jwt_verify authorization name fresh sid (w : Ephemeral.World),
         let w' := run sid (Ephemeral.createRoom jwt_verify authorization
                                                 name fresh) w in
         messages w' = messages w /\ sockets w' = sockets w
         /\ ((exists user n,
                 authenticated jwt_verify authorization user
                 /\ name = Some n /\ Js.truthy n = true
                 /\ find (room_matches (RoomByName n)) (rooms w) = None
                 /\ history w'
                    = history w
                      ++ [Responded 201
                            (MsgRoom "Room created"
                               {| Ephemeral.Room._id := fresh;
                                  Ephemeral.Room.name := n;
                                  Ephemeral.Room.owner
                                  := Claims.userId user |})]
                 /\ rooms w'
                    = upsert {| Ephemeral.Room._id := fresh;
                                Ephemeral.Room.name := n;
                                Ephemeral.Room.owner
                                := Claims.userId user |} (rooms w))
             \/ (rooms w' = rooms w
                 /\ exists h, history w' = history w ++ h
                              /\ forall body, ~ In (Responded 201 body) h))).
Proof.
  split.
  - intros jwt_verify authorization name fresh sid w w'. subst w'.
    unfold Persistent.createRoom.
    match goal with
    | |- context [authMiddleware _ _ ?next] =>
        destruct (authMiddleware_cases jwt_verify authorization next)
          as [(user & Hauth & ->) | (text & ->)]
    end.
    2:{ repeat split. right. split; [reflexivity|].
        eexists. split; [reflexivity|]. no_201. }
    destruct name as [n|].
    2:{ repeat split. right. split; [reflexivity|].
        eexists. split; [reflexivity|]. no_201. }
    destruct (Js.truthy n) eqn:Hn.
    2:{ repeat split. right. split; [reflexivity|].
        eexists. split; [reflexivity|]. no_201. }
    rewrite run_RoomFindOne.
    destruct (db_fault w).
    { repeat split. right. split; [reflexivity|].
      eexists. split; [cbn; rewrite <- app_assoc; reflexivity|]. no_201. }
    destruct (find _ (rooms w)) as [r|] eqn:Hfree.
    { repeat split. right. split; [reflexivity|].
      eexists. split; [reflexivity|]. no_201. }
    rewrite run_RoomSave.
    destruct (db_fault (db_next w) || name_taken _ _).
    { repeat split. right. split; [reflexivity|].
      eexists. split; [cbn; rewrite <- app_assoc; reflexivity|]. no_201. }
    repeat split. left. exists user, n. repeat split; auto.
  - intros jwt_verify authorization name fresh sid w w'. subst w'.
    unfold Ephemeral.createRoom.
    match goal with
    | |- context [authMiddleware _ _ ?next] =>
        destruct (authMiddleware_cases jwt_verify authorization next)
          as [(user & Hauth & ->) | (text & ->)]
    end.
    2:{ repeat split. right. split; [reflexivity|].
        eexists. split; [reflexivity|]. no_201. }
    destruct name as [n|].
    2:{ repeat split. right. split; [reflexivity|].
        eexists. split; [reflexivity|]. no_201. }
    destruct (Js.truthy n) eqn:Hn.
    2:{ repeat split. right. split; [reflexivity|].
        eexists. split; [reflexivity|]. no_201. }
    rewrite run_RoomFindOne.
    destruct (db_fault w).
    { repeat split. right. split; [reflexivity|].
      eexists. split; [cbn; rewrite <- app_assoc; reflexivity|]. no_201. }
    destruct (find _ (rooms w)) as [r|] eqn:Hfree.
    { repeat split. right. split; [reflexivity|].
      eexists. split; [reflexivity|]. no_201. }
    rewrite run_RoomSave.
    destruct (db_fault (db_next w) || name_taken _ _).
    { repeat split. right. split; [reflexivity|].
      eexists. split; [cbn; rewrite <- app_assoc; reflexivity|]. no_201. }
    repeat split. left. exists user, n. repeat split; auto.
Qed.

Lemma persistent_run_joinRoomRest jwt_verify authorization user room sid
      (w : Persistent.World) :
  authenticated jwt_verify authorization user ->
  run sid (Persistent.joinRoomRest jwt_verify authorization room) w
  = if db_fault w then run sid Persistent.server_error (db_next w)
    else
      match find (room_matches (RoomById room)) (rooms w) with
      | None => observe (Responded 404 (Msg "Room not found")) (db_next w)
      | Some r =>
          if Js.includes (Persistent.Room.members r) (Claims.userId user)
          then observe (Responded 400 (Msg "Already in the room")) (db_next w)
          else
            let r' := {| Persistent.Room._id := Persistent.Room._id r;
                         Persistent.Room.name := Persistent.Room.name r;
                         Persistent.Room.members
                         := Persistent.Room.members r ++ [Claims.userId user]
                      |} in
            if db_fault (db_next w) || name_taken r' (rooms w)
            then run sid Persistent.server_error (db_next (db_next w))
            else observe (Responded 200
                            (MsgRoom "Joined room successfully" r'))
                         (set_rooms (upsert r' (rooms w))
                                    (db_next (db_next w)))
      end.
Proof.
  intros Hauth. unfold Persistent.joinRoomRest.
  rewrite (authenticated_passes _ _ _ _ Hauth), run_RoomFindOne.
  destruct (db_fault w); [reflexivity|].
  destruct (find _ (rooms w)) as [r|]; [|reflexivity].
  destruct (Js.includes _ _); [reflexivity|].
  rewrite run_RoomSave. change (rooms (db_next w)) with (rooms w).
  cbv zeta. destruct (db_fault (db_next w) || name_taken _ _); reflexivity.
Qed.

(** X16: in the persistent variant membership is open and only grows.
    With a healthy database and the room names unique, [POST
    /rooms/:roomId/join] by any authenticated user on an existing room is
    answered 200, or 400 when the user was a member already; afterwards the
    room is found under the same id and name, the user is on its member
    list, every earlier member still is, every other room is found as
    before, and the user's posts to the room, when not empty, pass the
    checks of [chatMessage]. *)
Theorem any_user_can_enrol jwt_verify authorization user room r sid
        (w : Persistent.World) :
  authenticated jwt_verify authorization user ->
  db_faults w = [] ->
  names_unique (rooms w) ->
  find (room_matches (RoomById room)) (rooms w) = Some r ->
  let w' := run sid (Persistent.joinRoomRest jwt_verify authorization room)
                w in
  exists r',
    find (room_matches (RoomById room)) (rooms w') = Some r'
    /\ Persistent.Room._id r' = room
    /\ Persistent.Room.name r' = Persistent.Room.name r
    /\ Js.includes (Persistent.Room.members r') (Claims.userId user) = true
    /\ (forall u, Js.includes (Persistent.Room.members r) u = true ->
                  Js.includes (Persistent.Room.members r') u = true)
    /\ (forall other, other <> room ->
                      find (room_matches (RoomById other)) (rooms w')
                      = find (room_matches (RoomById other)) (rooms w))
    /\ history w'
       = history w
         ++ [if Js.includes (Persistent.Room.members r) (Claims.userId user)
             then Responded 400 (Msg "Already in the room")
             else Responded 200 (MsgRoom "Joined room successfully" r')]
    /\ forall p, post_user p = user ->
                 PersistentPosts.accepts w' room p = Js.truthy (post_text p).
Proof.
  intros Hauth Hdb Huniq Hroom w'.
  assert (Hid : Persistent.Room._id r = room).
  { apply find_some in Hroom. destruct Hroom as [_ H].
    apply String.eqb_eq in H. exact H. }
  subst w'. rewrite (persistent_run_joinRoomRest _ _ _ _ _ _ Hauth).
  rewrite (db_fault_healthy w Hdb), Hroom.
  destruct (Js.includes (Persistent.Room.members r) (Claims.userId user))
    eqn:Hmem.
  - exists r. cbn [rooms observe db_next db_tick snd history].
    repeat split; auto.
    intros p Hp. unfold PersistentPosts.accepts.
    cbn [rooms observe db_next db_tick snd]. rewrite Hroom, Hp, Hmem.
    reflexivity.
  - cbv zeta.
    set (r' := {| Persistent.Room._id := Persistent.Room._id r;
                  Persistent.Room.name := Persistent.Room.name r;
                  Persistent.Room.members
                  := Persistent.Room.members r ++ [Claims.userId user] |}).
    rewrite (db_fault_healthy _ (db_next_healthy w Hdb)).
    rewrite (name_kept (schema:=Persistent.schema) r r' (rooms w) _
               Huniq Hroom eq_refl eq_refl).
    cbn [orb rooms observe set_rooms history].
    assert (Hfind : find (room_matches (RoomById room)) (upsert r' (rooms w))
                    = Some r').
    { rewrite <- Hid. apply (find_upsert_same (schema:=Persistent.schema) r'). }
    exists r'. repeat split.
    + exact Hfind.
    + exact Hid.
    + apply includes_app_r.
    + intros u Hu. apply includes_app_l, Hu.
    + intros other Hother.
      apply (find_upsert_other (schema:=Persistent.schema) r').
      cbn. rewrite Hid. auto.
    + intros p Hp. unfold PersistentPosts.accepts.
      cbn [rooms observe set_rooms]. rewrite Hfind, Hp.
      cbn [Persistent.Room.members r']. rewrite includes_app_r. reflexivity.
Qed.

Lemma any_user_can_enrol_witness :
  exists r',
    find (room_matches (RoomById "r1"))
         (rooms (run 2 (Persistent.joinRoomRest Demo.jwt_verify
                          (Some "Bearer token-bob") "r1") Demo.w0))
    = Some r'
    /\ Js.includes (Persistent.Room.members r') "b2" = true.
Proof.
  destruct (any_user_can_enrol Demo.jwt_verify (Some "Bearer token-bob")
              Demo.bob "r1" Demo.general 2 Demo.w0)
    as (r' & Hfind & _ & _ & Hmem & _).
  - exists "Bearer token-bob", "token-bob". repeat split; reflexivity.
  - reflexivity.
  - repeat constructor. intros [].
  - reflexivity.
  - exists r'. split; [exact Hfind | exact Hmem].
Defined.




Lemma persistent_post_without_room sid user data now (w : Persistent.World) :
  find (room_matches (RoomById (Persistent.roomId data))) (rooms w) = None ->
  let w' := run sid (Persistent.chatMessage user data now) w in
  rooms w' = rooms w /\ messages w' = messages w /\ sockets w' = sockets w.
Proof.
  intros Hnone w'.
  destruct (PersistentFacts.persistent_chat_cases sid user data now w)
    as (_ & Hr & h & _ & [(Hm & Hs & _) | (r & hl & Hroom & _)]);
    fold w' in Hr.
  - auto.
  - rewrite Hnone in Hroom. discriminate.
Qed.

(** X18: deleting a room removes its record and nothing else.  With a
    healthy database, after a [DELETE] by an authenticated user who passes
    the check of the variant (on the member list; the owner), the room is no
    longer found, while the stored messages and the socket rooms are as they
    were: the messages of the room stay in the collection and the sockets
    that joined stay joined.  From then on every post to the room is
    dropped, whatever the database does, and the history route answers 404
    to every authenticated requester. *)
Theorem deleted_room_leaves_its_messages :
  (forall jwt_verify authorization user room r sid (w : Persistent.World),
      authenticated jwt_verify authorization user ->
      db_faults w = [] ->
      find (room_matches (RoomById room)) (rooms w) = Some r ->
      Js.includes (Persistent.Room.members r) (Claims.userId user) = true ->
      let w' := run sid (Persistent.deleteRoom jwt_verify authorization room)
                    w in
      messages w' = messages w /\ sockets w' = sockets w
      /\ find (room_matches (RoomById room)) (rooms w') = None
      /\ (forall sid' user' text now faults,
             let w'' := run sid' (Persistent.chatMessage user'
                                    {| Persistent.roomId := room;
                                       Persistent.message := text |} now)
                            {| users := users w'; rooms := rooms w';
                               messages := messages w';
                               sockets := sockets w';
                               history := history w';
                               db_faults := faults;
                               mail_faults := mail_faults w' |} in
             messages w'' = messages w /\ sockets w'' = sockets w)
      /\ (forall authorization' user' sid',
             authenticated jwt_verify authorization' user' ->
             history (run sid' (Persistent.getMessages jwt_verify
                                  authorization' room) w')
             = history w' ++ [Responded 404 (Msg "Room not found")]))
  /\ (forall jwt_verify authorization user name r sid (w : Ephemeral.World),
         authenticated jwt_verify authorization user ->
         db_faults w = [] ->
         names_unique (rooms w) ->
         find (room_matches (RoomByName name)) (rooms w) = Some r ->
         Ephemeral.Room.owner r = Claims.userId user ->
         let w' := run sid (Ephemeral.deleteRoom jwt_verify authorization
                                                 name) w in
         messages w' = messages w /\ sockets w' = sockets w
         /\ find (room_matches (RoomByName name)) (rooms w') = None
         /\ (forall sid' user' text now faults,
                let w'' := run sid' (Ephemeral.chatMessage user'
                                       {| Ephemeral.roomName := name;
                                          Ephemeral.message := text |} now)
                               {| users := users w'; rooms := rooms w';
                                  messages := messages w';
                                  sockets := sockets w';
                                  history := history w';
                                  db_faults := faults;
                                  mail_faults := mail_faults w' |} in
                messages w'' = messages w /\ sockets w'' = sockets w)
         /\ (forall authorization' user' sid',
                authenticated jwt_verify authorization' user' ->
                history (run sid' (Ephemeral.getMessages jwt_verify
                                     authorization' name) w')
                = history w' ++ [Responded 404 (Msg "Room not found")])).
Proof.
  split.
  - intros jwt_verify authorization user room r sid w
           Hauth Hdb Hroom Hmem w'.
    assert (Hw' : w' = observe (Responded 200 (Msg "Room deleted"))
                         (set_rooms
                            (filter (fun r => negb (String.eqb
                                                      (Persistent.Room._id r)
                                                      room)) (rooms w))
                            (db_next (db_next w)))).
    { subst w'. unfold Persistent.deleteRoom.
      rewrite (authenticated_passes _ _ _ _ Hauth), run_RoomFindOne.
      rewrite (db_fault_healthy w Hdb), Hroom, Hmem. cbn [negb].
      rewrite run_RoomFindByIdAndDelete.
      rewrite (db_fault_healthy _ (db_next_healthy w Hdb)). reflexivity. }
    assert (Hm : messages w' = messages w) by (rewrite Hw'; reflexivity).
    assert (Hs : sockets w' = sockets w) by (rewrite Hw'; reflexivity).
    assert (Hgone : find (room_matches (RoomById room)) (rooms w') = None).
    { rewrite Hw'. apply (find_deleted (schema:=Persistent.schema)). }
    assert (Hdb' : db_faults w' = []).
    { rewrite Hw'. cbn. rewrite Hdb. reflexivity. }
    repeat split; try assumption.
    + rewrite <- Hm.
      apply (persistent_post_without_room sid' user'
               {| Persistent.roomId := room; Persistent.message := text |}
               now
               {| users := users w'; rooms := rooms w';
                  messages := messages w'; sockets := sockets w';
                  history := history w'; db_faults := faults;
                  mail_faults := mail_faults w' |} Hgone).
    + rewrite <- Hs.
      apply (persistent_post_without_room sid' user'
               {| Persistent.roomId := room; Persistent.message := text |}
               now
               {| users := users w'; rooms := rooms w';
                  messages := messages w'; sockets := sockets w';
                  history := history w'; db_faults := faults;
                  mail_faults := mail_faults w' |} Hgone).
    + intros authorization' user' sid' Hauth'.
      unfold Persistent.getMessages.
      rewrite (authenticated_passes _ _ _ _ Hauth'), run_RoomFindOne.
      rewrite (db_fault_healthy w' Hdb'), Hgone. reflexivity.
  - intros jwt_verify authorization user name r sid w
           Hauth Hdb Huniq Hroom Hown w'.
    assert (Hw' : w' = observe (Responded 200 (Msg "Room deleted"))
                         (set_rooms
                            (filter (fun r' => negb (String.eqb
                                                       (Ephemeral.Room._id r')
                                                       (Ephemeral.Room._id r)))
                                    (rooms w))
                            (db_next (db_next w)))).
    { subst w'. unfold Ephemeral.deleteRoom.
      rewrite (authenticated_passes _ _ _ _ Hauth), run_RoomFindOne.
      rewrite (db_fault_healthy w Hdb), Hroom, Hown, String.eqb_refl.
      cbn [negb]. rewrite run_RoomFindByIdAndDelete.
      rewrite (db_fault_healthy _ (db_next_healthy w Hdb)). reflexivity. }
    assert (Hm : messages w' = messages w) by (rewrite Hw'; reflexivity).
    assert (Hs : sockets w' = sockets w) by (rewrite Hw'; reflexivity).
    assert (Hgone : find (room_matches (RoomByName name)) (rooms w') = None).
    { rewrite Hw'. cbn [rooms observe set_rooms].
      destruct (find_some _ _ Hroom) as [Hin Hname].
      cbn [room_matches] in Hname. apply String.eqb_eq in Hname.
      rewrite <- Hname.
      apply (find_name_deleted (schema:=Ephemeral.schema) r (rooms w)
               Huniq Hin). }
    assert (Hdb' : db_faults w' = []).
    { rewrite Hw'. cbn. rewrite Hdb. reflexivity. }
    repeat split; try assumption.
    + rewrite <- Hm.
      apply (ephemeral_post_without_room sid' user'
               {| Ephemeral.roomName := name; Ephemeral.message := text |}
               now
               {| users := users w'; rooms := rooms w';
                  messages := messages w'; sockets := sockets w';
                  history := history w'; db_faults := faults;
                  mail_faults := mail_faults w' |} Hgone).
    + rewrite <- Hs.
      apply (ephemeral_post_without_room sid' user'
               {| Ephemeral.roomName := name; Ephemeral.message := text |}
               now
               {| users := users w'; rooms := rooms w';
                  messages := messages w'; sockets := sockets w';
                  history := history w'; db_faults := faults;
                  mail_faults := mail_faults w' |} Hgone).
    + intros authorization' user' sid' Hauth'.
      unfold Ephemeral.getMessages.
      rewrite (authenticated_passes _ _ _ _ Hauth'), run_RoomFindOne.
      rewrite (db_fault_healthy w' Hdb'), Hgone. reflexivity.
Qed.

Lemma deleted_room_witness :
  find (room_matches (RoomById "r1"))
       (rooms (run 1 (Persistent.deleteRoom Demo.jwt_verify
                        (Some "Bearer token-alice") "r1") Demo.w0))
  = None.
Proof.
  apply (proj1 deleted_room_leaves_its_messages Demo.jwt_verify
               (Some "Bearer token-alice") Demo.alice "r1" Demo.general 1
               Demo.w0).
  - exists "Bearer token-alice", "token-alice". repeat split; reflexivity.
  - reflexivity.
  - reflexivity.
  - reflexivity.
Defined.

(** ** The account routes *)

Section AccountFacts.

Import Accounts.

Variable bcrypt_hash : string -> string -> string.
Variable bcrypt_compare : string -> string -> bool.
Variable jwt_sign : Claims.t -> string.

(** Every way [signup] can end. *)
Lemma signup_cases duplicate label u e p fresh salt (s : Store) :
  signup bcrypt_hash duplicate label (Some u) (Some e) (Some p) fresh salt s
  = if negb (Js.truthy u) || negb (Js.truthy e) || negb (Js.truthy p)
    then (Resolved {| status := 400;
                      message := "Username, email, and password are required";
                      token := None |}, s)
    else if hd false (faults s)
    then (Resolved {| status := 500; message := "Server error";
                      token := None |},
          {| accounts := accounts s; console := console s ++ [label];
             faults := tl (faults s) |})
    else
      match find (duplicate u e) (accounts s) with
      | Some _ =>
          (Resolved {| status := 400;
                       message := "Username or email already taken";
                       token := None |},
           {| accounts := accounts s; console := console s;
              faults := tl (faults s) |})
      | None =>
          if hd false (tl (faults s))
             || index_violated (stored bcrypt_hash fresh salt u e p)
                               (accounts s)
          then (Resolved {| status := 500; message := "Server error";
                            token := None |},
                {| accounts := accounts s; console := console s ++ [label];
                   faults := tl (tl (faults s)) |})
          else (Resolved {| status := 201;
                            message := "User created successfully";
                            token := None |},
                {| accounts
                   := accounts s ++ [stored bcrypt_hash fresh salt u e p];
                   console := console s; faults := tl (tl (faults s)) |})
      end.
Proof.
  unfold signup, try_catch, bind, findOne, save, respond, ret, console_error,
    tick, stored, pre_save.
  destruct (negb (Js.truthy u) || negb (Js.truthy e) || negb (Js.truthy p));
    [reflexivity|].
  cbn. destruct (hd false (faults s)); [reflexivity|].
  cbn. destruct (find (duplicate u e) (accounts s)); [reflexivity|].
  cbn. destruct (hd false (tl (faults s)) || _); reflexivity.
Qed.

(** Every way [login] can end. *)
Lemma login_cases label u p (s : Store) :
  login bcrypt_compare jwt_sign label (Some u) (Some p) s
  = if negb (Js.truthy u) || negb (Js.truthy p)
    then (Resolved {| status := 400;
                      message := "Username and password are required";
                      token := None |}, s)
    else if hd false (faults s)
    then (Resolved {| status := 500; message := "Server error";
                      token := None |},
          {| accounts := accounts s; console := console s ++ [label];
             faults := tl (faults s) |})
    else
      (Resolved
         match find (fun a => String.eqb (User.username (doc a)) u)
                    (accounts s) with
         | Some a =>
             if bcrypt_compare p (password a)
             then {| status := 200; message := "Login successful";
                     token := Some (jwt_sign
                                      {| Claims.userId := User._id (doc a);
                                         Claims.username
                                         := User.username (doc a) |}) |}
             else {| status := 401; message := "Invalid credentials";
                     token := None |}
         | None => {| status := 401; message := "Invalid credentials";
                      token := None |}
         end,
       {| accounts := accounts s; console := console s;
          faults := tl (faults s) |}).
Proof.
  unfold login, try_catch, bind, findOne, respond, ret, console_error, tick.
  destruct (negb (Js.truthy u) || negb (Js.truthy p)); [reflexivity|].
  cbn. destruct (hd false (faults s)); [reflexivity|].
  cbn. destruct (find _ (accounts s)) as [a|]; [|reflexivity].
  destruct (bcrypt_compare p (password a)); reflexivity.
Qed.

Lemma login_without_fields label username password (s : Store) :
  match username, password with
  | Some _, Some _ => False
  | _, _ => True
  end ->
  login bcrypt_compare jwt_sign label username password s
  = (Resolved {| status := 400;
                 message := "Username and password are required";
                 token := None |}, s).
Proof.
  destruct username, password; intros H; try destruct H; reflexivity.
Qed.

Lemma signup_without_fields duplicate label username email password fresh
      salt (s : Store) :
  match username, email, password with
  | Some _, Some _, Some _ => False
  | _, _, _ => True
  end ->
  signup bcrypt_hash duplicate label username email password fresh salt s
  = (Resolved {| status := 400;
                 message := "Username, email, and password are required";
                 token := None |}, s).
Proof.
  destruct username, email, password; intros H; try destruct H; reflexivity.
Qed.

Lemma username_free u e (l : list Account) :
  find (username_or_email u e) l = None ->
  find (username_only u e) l = None
  /\ find (fun a => String.eqb (User.username (doc a)) u) l = None.
Proof.
  induction l as [|a l IH]; [auto|].
  unfold username_or_email, username_only in *. cbn [find].
  destruct (String.eqb (User.username (doc a)) u); [discriminate|].
  cbn [orb]. destruct (String.eqb (User.email (doc a)) e); [discriminate|].
  exact IH.
Qed.

End AccountFacts.

Lemma bearer_header_passes {R : Type} (jwt_verify : Verifier) token decoded
      (next : Claims.t -> Task R Message.t Payload.t) :
  space_free token ->
  Js.truthy token = true ->
  jwt_verify token = Some decoded ->
  authMiddleware jwt_verify (Some (authorization_header token)) next
  = next decoded.
Proof.
  intros Hfree Htruthy Hverify.
  apply (authMiddleware_passes jwt_verify _ token); auto.
  apply (second_field "Bearer" token); [|exact Hfree].
  intros [H | [H | [H | [H | [H | [H | []]]]]]]; discriminate H.
Qed.

(** X19: sign up, log in, and the token works.  In both variants, with a
    healthy database, a sign-up with a username and an e-mail address that
    no stored user holds and with all three fields not empty answers 201 and
    stores one new user under the hash of the password; the log-in with the
    same username and password then answers 200 with the token signed for
    the id and the username of that user.  When [jwt.verify] reads that
    token back and it holds no space, the header [`Bearer ${token}`] passes
    [authMiddleware] and the handshake passes [io.use], both with exactly
    those claims. *)
Theorem signup_login_token_round_trip
        {R : Type} bcrypt_hash bcrypt_compare jwt_sign (jwt_verify : Verifier)
        u e p fresh salt (s : Accounts.Store)
        (next : Claims.t -> Task R Message.t Payload.t) :
  let claims := {| Claims.userId := fresh; Claims.username := u |} in
  let account := Accounts.stored bcrypt_hash fresh salt u e p in
  let s1 := {| Accounts.accounts := Accounts.accounts s ++ [account];
               Accounts.console := Accounts.console s;
               Accounts.faults := [] |} in
  Accounts.faults s = [] ->
  Js.truthy u = true -> Js.truthy e = true -> Js.truthy p = true ->
  find (Accounts.username_or_email u e) (Accounts.accounts s) = None ->
  bcrypt_compare p (bcrypt_hash salt p) = true ->
  jwt_verify (jwt_sign claims) = Some claims ->
  space_free (jwt_sign claims) ->
  Js.truthy (jwt_sign claims) = true ->
  (Accounts.persistent_signup bcrypt_hash (Some u) (Some e) (Some p) fresh
                              salt s
   = (Resolved {| Accounts.status := 201;
                  Accounts.message := "User created successfully";
                  Accounts.token := None |}, s1)
   /\ Accounts.ephemeral_signup bcrypt_hash (Some u) (Some e) (Some p) fresh
                                salt s
      = (Resolved {| Accounts.status := 201;
                     Accounts.message := "User created successfully";
                     Accounts.token := None |}, s1))
  /\ (Accounts.persistent_login bcrypt_compare jwt_sign (Some u) (Some p) s1
      = (Resolved {| Accounts.status := 200;
                     Accounts.message := "Login successful";
                     Accounts.token := Some (jwt_sign claims) |}, s1)
      /\ Accounts.ephemeral_login bcrypt_compare jwt_sign (Some u) (Some p) s1
         = (Resolved {| Accounts.status := 200;
                        Accounts.message := "Login successful";
                        Accounts.token := Some (jwt_sign claims) |}, s1))
  /\ authMiddleware jwt_verify
                    (Some (authorization_header (jwt_sign claims))) next
     = next claims
  /\ io_use jwt_verify (Some (jwt_sign claims)) = inr claims.
Proof.
  intros claims account s1 Hdb Hu He Hp Hfree Hcompare Hverify Hspace Htoken.
  destruct (username_free u e _ Hfree) as [Honly Hname].
  assert (Hindex : Accounts.index_violated account (Accounts.accounts s)
                   = false)
    by exact (find_none_existsb _ _ Hfree).
  assert (Hfound : find (fun a => String.eqb
                                    (User.username (Accounts.doc a)) u)
                        (Accounts.accounts s1) = Some account).
  { cbn [Accounts.accounts s1]. rewrite (find_app_none _ _ _ Hname).
    cbn. rewrite String.eqb_refl. reflexivity. }
  split; [split|split; [split|split]].
  - unfold Accounts.persistent_signup. rewrite signup_cases.
    rewrite Hu, He, Hp, Hdb, Hfree. fold account. rewrite Hindex.
    reflexivity.
  - unfold Accounts.ephemeral_signup. rewrite signup_cases.
    rewrite Hu, He, Hp, Hdb, Honly. fold account. rewrite Hindex.
    reflexivity.
  - unfold Accounts.persistent_login. rewrite login_cases, Hu, Hp, Hfound.
    cbn. rewrite Hcompare. reflexivity.
  - unfold Accounts.ephemeral_login. rewrite login_cases, Hu, Hp, Hfound.
    cbn. rewrite Hcompare. reflexivity.
  - apply bearer_header_passes; assumption.
  - unfold io_use. rewrite Htoken, Hverify. reflexivity.
Qed.

Lemma signup_login_witness :
  Accounts.persistent_login String.eqb
    demo_sign (Some "alice") (Some "secret")
    demo_accounts
  = (Resolved {| Accounts.status := 200;
                 Accounts.message := "Login successful";
                 Accounts.token := Some "token-alice" |},
     demo_accounts).
Proof.
  apply (signup_login_token_round_trip
           (fun _ pw => pw) String.eqb
           demo_sign Demo.jwt_verify
           "alice" "alice@example.com" "secret" "a1" "salt"
           {| Accounts.accounts := []; Accounts.console := [];
              Accounts.faults := [] |}
           (fun _ : Claims.t => @Done unit Message.t Payload.t));
    try reflexivity.
  unfold space_free. simpl. intuition discriminate.
Defined.

(** X20: log-in hands out a token only for the right password.  Whatever
    the request and whatever the database does, the route always answers,
    stores nothing, and an answer carries a token only when it is the 200
    for a stored user with the requested username whose stored hash
    [bcrypt.compare] accepts for the given password; the token is the one
    signed for the id and the username of that user. *)
Theorem login_token_only_for_the_password
        bcrypt_compare jwt_sign label username password (s : Accounts.Store) :
  let result := Accounts.login bcrypt_compare jwt_sign label username
                               password s in
  Accounts.accounts (snd result) = Accounts.accounts s
  /\ exists response,
      fst result = Resolved response
      /\ forall t,
          Accounts.token response = Some t ->
          Accounts.status response = 200
          /\ exists u p a,
              username = Some u /\ password = Some p
              /\ find (fun a => String.eqb (User.username (Accounts.doc a)) u)
                      (Accounts.accounts s) = Some a
              /\ bcrypt_compare p (Accounts.password a) = true
              /\ t = jwt_sign {| Claims.userId := User._id (Accounts.doc a);
                                 Claims.username
                                 := User.username (Accounts.doc a) |}.
Proof.
  intros result. subst result.
  destruct username as [u|], password as [p|];
    try (rewrite login_without_fields by exact I;
         split; [reflexivity|]; eexists; split; [reflexivity|];
         intros t Ht; discriminate Ht).
  rewrite login_cases.
  destruct (negb (Js.truthy u) || negb (Js.truthy p)).
  { split; [reflexivity|]. eexists. split; [reflexivity|].
    intros t Ht. discriminate Ht. }
  destruct (hd false (Accounts.faults s)).
  { split; [reflexivity|]. eexists. split; [reflexivity|].
    intros t Ht. discriminate Ht. }
  split; [reflexivity|]. eexists. split; [reflexivity|].
  destruct (find _ (Accounts.accounts s)) as [a|] eqn:Hfind.
  - destruct (bcrypt_compare p (Accounts.password a)) eqn:Hcompare.
    + intros t Ht. injection Ht as <-. split; [reflexivity|].
      exists u, p, a. auto.
    + intros t Ht. discriminate Ht.
  - intros t Ht. discriminate Ht.
Qed.

Lemma login_token_witness :
  Accounts.accounts
    (snd (Accounts.login String.eqb demo_sign None (Some "alice")
                         (Some "secret") demo_accounts))
  = Accounts.accounts demo_accounts.
Proof.
  apply (proj1 (login_token_only_for_the_password
                  String.eqb demo_sign None (Some "alice") (Some "secret")
                  demo_accounts)).
Defined.

(** X21: a failed log-in does not tell an unknown username from a wrong
    password.  With a healthy database and both fields not empty, the
    answer to a username no stored user has and the answer to a password
    [bcrypt.compare] rejects are the same 401, without a token, and neither
    leaves a line on the console. *)
Theorem failed_logins_look_alike
        bcrypt_compare jwt_sign label u p (s : Accounts.Store) :
  Accounts.faults s = [] ->
  Js.truthy u = true -> Js.truthy p = true ->
  match find (fun a => String.eqb (User.username (Accounts.doc a)) u)
             (Accounts.accounts s) with
  | Some a => bcrypt_compare p (Accounts.password a) = false
  | None => True
  end ->
  Accounts.login bcrypt_compare jwt_sign label (Some u) (Some p) s
  = (Resolved {| Accounts.status := 401;
                 Accounts.message := "Invalid credentials";
                 Accounts.token := None |}, s).
Proof.
  intros Hdb Hu Hp Hbad. rewrite login_cases, Hu, Hp, Hdb. cbn.
  destruct s as [accounts console faults]. cbn in Hdb, Hbad |- *. subst faults.
  destruct (find _ accounts) as [a|]; [rewrite Hbad|]; reflexivity.
Qed.

Lemma failed_logins_witness :
  Accounts.login String.eqb demo_sign None
                 (Some "alice") (Some "guess")
                 demo_accounts
  = Accounts.login String.eqb demo_sign None
                   (Some "mallory") (Some "guess")
                   demo_accounts.
Proof.
  rewrite (failed_logins_look_alike String.eqb
             demo_sign None "alice" "guess"
             demo_accounts eq_refl eq_refl eq_refl eq_refl).
  rewrite (failed_logins_look_alike String.eqb
             demo_sign None "mallory" "guess"
             demo_accounts eq_refl eq_refl eq_refl I).
  reflexivity.
Defined.

Lemma NoDup_snoc {A : Type} (l : list A) x :
  NoDup l -> ~ In x l -> NoDup (l ++ [x]).
Proof.
  induction l as [|a l IH]; intros Hnd Hnotin; cbn.
  - constructor; [intros [] | constructor].
  - inversion Hnd as [|a' l' Ha Hl]; subst. constructor.
    + intros Hin. apply in_app_or in Hin. destruct Hin as [Hin | [-> | []]].
      * exact (Ha Hin).
      * apply Hnotin. left. reflexivity.
    + apply IH; [exact Hl|]. intros Hin. apply Hnotin. right. exact Hin.
Qed.

Lemma index_free (a : Accounts.Account) (l : list Accounts.Account) :
  Accounts.index_violated a l = false ->
  ~ In (User.username (Accounts.doc a))
       (map (fun a' => User.username (Accounts.doc a')) l)
  /\ ~ In (User.email (Accounts.doc a))
          (map (fun a' => User.email (Accounts.doc a')) l).
Proof.
  unfold Accounts.index_violated. intros Hfree.
  assert (Hall : forall a', In a' l ->
             User.username (Accounts.doc a') <> User.username (Accounts.doc a)
             /\ User.email (Accounts.doc a') <> User.email (Accounts.doc a)).
  { intros a' Hin'.
    destruct (String.eqb (User.username (Accounts.doc a'))
                         (User.username (Accounts.doc a))
              || String.eqb (User.email (Accounts.doc a'))
                            (User.email (Accounts.doc a))) eqn:Htest.
    - exfalso. rewrite (proj2 (existsb_exists _ l)) in Hfree;
        [discriminate|]. exists a'. split; [exact Hin' | exact Htest].
    - apply orb_false_iff in Htest. destruct Htest as [H1 H2].
      apply String.eqb_neq in H1, H2. auto. }
  split; intros Hin; apply in_map_iff in Hin;
    destruct Hin as (a' & Heq & Hin'); destruct (Hall a' Hin'); auto.
Qed.

(** X22: a second account under a used e-mail address is refused, with a
    different answer in each variant.  With a healthy database, a sign-up
    with a new username and an e-mail address a stored user holds stores
    nothing; the persistent variant, which looks for the username or the
    address, answers 400; the ephemeral variant looks for the username
    only, so the save runs into the unique index on [email], and the
    rejection is answered 500 with a line on the console. *)
Theorem used_email_is_refused bcrypt_hash u e p fresh salt holder
        (s : Accounts.Store) :
  Accounts.faults s = [] ->
  Js.truthy u = true -> Js.truthy e = true -> Js.truthy p = true ->
  find (fun a => String.eqb (User.username (Accounts.doc a)) u)
       (Accounts.accounts s) = None ->
  In holder (Accounts.accounts s) ->
  User.email (Accounts.doc holder) = e ->
  Accounts.persistent_signup bcrypt_hash (Some u) (Some e) (Some p) fresh
                             salt s
  = (Resolved {| Accounts.status := 400;
                 Accounts.message := "Username or email already taken";
                 Accounts.token := None |},
     {| Accounts.accounts := Accounts.accounts s;
        Accounts.console := Accounts.console s; Accounts.faults := [] |})
  /\ Accounts.ephemeral_signup bcrypt_hash (Some u) (Some e) (Some p) fresh
                               salt s
     = (Resolved {| Accounts.status := 500;
                    Accounts.message := "Server error";
                    Accounts.token := None |},
        {| Accounts.accounts := Accounts.accounts s;
           Accounts.console := Accounts.console s ++ [Some "Signup error:"];
           Accounts.faults := [] |}).
Proof.
  intros Hdb Hu He Hp Hname Hin Hemail. split.
  - unfold Accounts.persistent_signup. rewrite signup_cases.
    rewrite Hu, He, Hp, Hdb. cbn [negb orb hd tl].
    destruct (find (Accounts.username_or_email u e) (Accounts.accounts s))
      as [a|] eqn:Hfind; [reflexivity|].
    apply (find_none _ _ Hfind) in Hin.
    unfold Accounts.username_or_email in Hin.
    rewrite Hemail, String.eqb_refl, orb_true_r in Hin. discriminate.
  - unfold Accounts.ephemeral_signup. rewrite signup_cases.
    rewrite Hu, He, Hp, Hdb. cbn [negb orb hd tl].
    unfold Accounts.username_only at 1. rewrite Hname.
    assert (Hindex : Accounts.index_violated
                       (Accounts.stored bcrypt_hash fresh salt u e p)
                       (Accounts.accounts s) = true).
    { apply existsb_exists. exists holder. split; [exact Hin|].
      cbn. rewrite Hemail, String.eqb_refl. apply orb_true_r. }
    rewrite Hindex. reflexivity.
Qed.

Lemma used_email_witness :
  Accounts.status
    (match fst (Accounts.ephemeral_signup (fun _ pw => pw) (Some "alicia")
                  (Some "alice@example.com") (Some "pw") "a9" "salt"
                  demo_accounts) with
     | Resolved r => r
     | Rejected => {| Accounts.status := 0; Accounts.message := EmptyString;
                      Accounts.token := None |}
     end) = 500.
Proof.
  rewrite (proj2 (used_email_is_refused (fun _ pw => pw) "alicia"
                    "alice@example.com" "pw" "a9" "salt"
                    (Accounts.stored (fun _ pw => pw) "a1" "salt" "alice"
                                     "alice@example.com" "secret")
                    demo_accounts eq_refl eq_refl eq_refl eq_refl eq_refl
                    (or_introl eq_refl) eq_refl)).
  reflexivity.
Defined.

(** X23: sign-up keeps usernames and e-mail addresses unique.  In both
    variants, whatever the request and whatever the database does, the route
    always answers; the stored users change only together with the answer
    201, by exactly one new user whose stored password is the hash of the
    given one; and when no two stored users shared a username or an address
    before, none do afterwards. *)
Theorem signup_keeps_users_unique
        bcrypt_hash duplicate label username email password fresh salt
        (s : Accounts.Store) :
  let result := Accounts.signup bcrypt_hash duplicate label username email
                                password fresh salt s in
  exists response,
    fst result = Resolved response
    /\ (Accounts.accounts (snd result) = Accounts.accounts s
        /\ Accounts.status response <> 201
        \/ exists u e p,
            username = Some u /\ email = Some e /\ password = Some p
            /\ Accounts.status response = 201
            /\ Accounts.accounts (snd result)
               = Accounts.accounts s
                 ++ [{| Accounts.doc := {| User._id := fresh;
                                           User.username := u;
                                           User.email := e |};
                        Accounts.password := bcrypt_hash salt p |}])
    /\ (Accounts.accounts_unique (Accounts.accounts s) ->
        Accounts.accounts_unique (Accounts.accounts (snd result))).
Proof.
  intros result. subst result.
  destruct username as [u|], email as [e|], password as [p|];
    try (rewrite signup_without_fields by exact I;
         eexists; split; [reflexivity|]; split; [|auto];
         left; split; [reflexivity | discriminate]).
  rewrite signup_cases.
  destruct (negb (Js.truthy u) || negb (Js.truthy e) || negb (Js.truthy p)).
  { eexists. split; [reflexivity|]. split; [|auto].
    left. split; [reflexivity | discriminate]. }
  destruct (hd false (Accounts.faults s)).
  { eexists. split; [reflexivity|]. split; [|auto].
    left. split; [reflexivity | discriminate]. }
  destruct (find (duplicate u e) (Accounts.accounts s)).
  { eexists. split; [reflexivity|]. split; [|auto].
    left. split; [reflexivity | discriminate]. }
  destruct (hd false (tl (Accounts.faults s))).
  { eexists. split; [reflexivity|]. split; [|auto].
    left. split; [reflexivity | discriminate]. }
  cbn [orb].
  destruct (Accounts.index_violated _ _) eqn:Hindex.
  { eexists. split; [reflexivity|]. split; [|auto].
    left. split; [reflexivity | discriminate]. }
  eexists. split; [reflexivity|]. split.
  - right. exists u, e, p. repeat split.
  - cbn [snd Accounts.accounts]. intros [Hnames Hmails].
    destruct (index_free _ _ Hindex) as [Hname Hmail].
    unfold Accounts.accounts_unique. rewrite !map_app. cbn [map].
    split; apply NoDup_snoc; assumption.
Qed.

Lemma signup_unique_witness :
  Accounts.accounts_unique (Accounts.accounts demo_accounts)
  /\ Accounts.accounts_unique
       (Accounts.accounts
          (snd (Accounts.signup (fun _ pw => pw) Accounts.username_or_email
                                None (Some "bob") (Some "bob@example.com")
                                (Some "pw") "b2" "salt" demo_accounts))).
Proof.
  destruct (signup_keeps_users_unique
              (fun _ pw => pw) Accounts.username_or_email None (Some "bob")
              (Some "bob@example.com") (Some "pw") "b2" "salt" demo_accounts)
    as (response & _ & _ & Hunique).
  assert (H0 : Accounts.accounts_unique (Accounts.accounts demo_accounts)).
  { split; (constructor; [intros [] | constructor]). }
  split; [exact H0 | exact (Hunique H0)].
Defined.
